(** * StampFly HAL: a shallow embedding of the peripheral drivers

    The development follows [components/hal]: the lifecycle base class
    ([hal_base.hpp], [hal_base.cpp]), the ADC driver ([adc_hal.cpp]), the I2C
    master ([i2c_hal.cpp]), the interrupt/timer manager ([interrupt_hal.cpp])
    and the GPIO driver ([gpio_hal.cpp]).

    Conventions.
    - C++ integers are [Z] with the wrap-around of their width written out
      ([CInt]); [float] is IEEE-754 binary32 ([Float32], on top of the
      Standard Library's [SpecFloat]).
    - [std::map] is stdpp's [gmap]; [std::vector<uint8_t>] is [list Z].
    - Every member function becomes a function from the object (a record of
      the class's fields) to a return code and the new object.
    - The ESP-IDF driver below the HAL is not part of the repository.  Each
      module takes it as a [Driver]: a function giving the return code and the
      out-parameter of a driver call from the history of the calls made so
      far.  The object carries that history in a ghost field [hw_log], which
      is how the theorems speak about hardware activity.
    - Logging ([logError], [logInfo], ...) and [std::mutex] locking have no
      effect on the values modelled here and are left out. *)

From Stdlib Require Import ZArith Lia Bool List.
From Stdlib Require Import Floats.SpecFloat.
From stdpp Require Import gmap list sorting.

Open Scope Z_scope.

(** ** Machine integers *)

Module CInt.

Definition to_uint8 (z : Z) : Z := z mod 2 ^ 8.
Definition to_uint32 (z : Z) : Z := z mod 2 ^ 32.
Definition to_int32 (z : Z) : Z := (z + 2 ^ 31) mod 2 ^ 32 - 2 ^ 31.

(** [a / b] for an [int] [a] and an [unsigned int] [b]: [a] is converted to
    [unsigned int]; a zero divisor is undefined behaviour. *)
Definition udiv32 (a b : Z) : option Z :=
  if b =? 0 then None else Some (to_uint32 a / b).

End CInt.

(** ** [esp_err_t] (the values of ESP-IDF's [esp_err.h]) *)

Module Esp.

Definition esp_err_t := Z.
Definition ESP_OK : esp_err_t := 0.
Definition ESP_FAIL : esp_err_t := -1.
Definition ESP_ERR_NO_MEM : esp_err_t := 0x101.
Definition ESP_ERR_INVALID_ARG : esp_err_t := 0x102.
Definition ESP_ERR_INVALID_STATE : esp_err_t := 0x103.
Definition ESP_ERR_NOT_FOUND : esp_err_t := 0x105.

End Esp.

(** ** [HalBase]: the lifecycle state shared by all drivers *)

Module HalBase.

Inductive State :=
| UNINITIALIZED | INITIALIZING | INITIALIZED | RUNNING | ERROR | SUSPENDED.

#[global] Instance State_eq_dec : EqDecision State.
Proof. solve_decision. Defined.

(** [HalBase::setState]: the assignment is skipped when the state is already
    the requested one (only the log line depends on the test). *)
Definition setState (state_ new_state : State) : State :=
  if decide (state_ <> new_state) then new_state else state_.

Definition hasError (state_ : State) : bool := bool_decide (state_ = ERROR).

Definition isInitialized (state_ : State) : bool :=
  bool_decide (state_ = INITIALIZED) || bool_decide (state_ = RUNNING).

Definition isRunning (state_ : State) : bool := bool_decide (state_ = RUNNING).

End HalBase.

(** ** IEEE-754 binary32, the C++ [float] of the target *)

Module Float32.

Definition prec : Z := 24.
Definition emax : Z := 128.

Definition float := spec_float.

Definition nan : float := S754_nan.
Definition zero : float := S754_zero false.

(** [static_cast<float>(int)]: round to nearest, ties to even. *)
Definition of_int (z : Z) : float := binary_normalize prec emax z 0 false.

Definition one : float := of_int 1.

Definition mul : float -> float -> float := SFmul prec emax.
Definition add : float -> float -> float := SFadd prec emax.
Definition sub : float -> float -> float := SFsub prec emax.
Definition ltb : float -> float -> bool := SFltb.
Definition leb : float -> float -> bool := SFleb.

(** [alpha] lies in the interval [[0, 1]]. *)
Definition in_unit_interval (alpha : float) : bool := leb zero alpha && leb alpha one.

(** The test of [readFiltered]: [alpha < 0.0f || alpha > 1.0f]. *)
Definition out_of_range (alpha : float) : bool := ltb alpha zero || ltb one alpha.

(** The integer part of a finite float, rounding toward zero. *)
Definition trunc (f : float) : option Z :=
  match f with
  | S754_zero _ => Some 0
  | S754_finite s m e =>
      let a := if 0 <=? e then Z.pos m * 2 ^ e else Z.pos m / 2 ^ (- e) in
      Some (if s then - a else a)
  | S754_infinity _ | S754_nan => None
  end.

(** [static_cast<int>(float)]: truncation; undefined ([None]) for NaN, the
    infinities and values outside the range of [int]. *)
Definition to_int (f : float) : option Z :=
  match trunc f with
  | Some z => if (- 2 ^ 31 <=? z) && (z <? 2 ^ 31) then Some z else None
  | None => None
  end.

#[global] Arguments of_int : simpl never.
#[global] Arguments mul : simpl never.
#[global] Arguments add : simpl never.
#[global] Arguments sub : simpl never.
#[global] Arguments to_int : simpl never.
#[global] Arguments out_of_range : simpl never.

End Float32.

(** ** [AdcHal] ([adc_hal.hpp], [adc_hal.cpp]) *)

Module AdcHal.
Import CInt Esp HalBase.

Inductive Unit := UNIT_1 | UNIT_2.
Inductive Attenuation := DB_0 | DB_2_5 | DB_6 | DB_11.
Inductive BitWidth :=
| WIDTH_9BIT | WIDTH_10BIT | WIDTH_11BIT | WIDTH_12BIT | WIDTH_13BIT | WIDTH_DEFAULT.

Record ChannelConfig := {
  channel : Z;
  attenuation : Attenuation;
  calibration_enable : bool
}.

Record Config := {
  unit : Unit;
  bit_width : BitWidth;
  default_vref : Z          (* uint32_t, millivolts *)
}.

Record ReadResult := {
  raw_value : Z;            (* int *)
  voltage_mv : Z;           (* int *)
  calibrated : bool
}.

(** [adc_channel_t]: [ADC_CHANNEL_0] .. [ADC_CHANNEL_9] are 0 .. 9. *)
Definition ADC_CHANNEL_0 : Z := 0.
Definition ADC_CHANNEL_9 : Z := 9.

(** The calls the class makes into ESP-IDF and FreeRTOS. *)
Inductive Call :=
| adc_oneshot_new_unit (u : Unit)
| adc_oneshot_del_unit (handle : Z)
| adc_oneshot_config_channel (handle ch : Z) (att : Attenuation) (bw : BitWidth)
| adc_oneshot_read (handle ch : Z)
| adc_cali_raw_to_voltage (cali raw : Z)
| adc_cali_create_scheme_curve_fitting (u : Unit) (ch : Z) (att : Attenuation) (bw : BitWidth)
| adc_cali_delete_scheme_curve_fitting (cali : Z)
| vTaskDelay (ticks : Z).

(** The driver below the HAL: the return code of a call and the value it
    stores through its out-parameter, given the calls made before it. *)
Record Driver := {
  ret : list Call -> Call -> esp_err_t;
  out : list Call -> Call -> Z;
  portTICK_PERIOD_MS : Z
}.

(** The fields of [class AdcHal] (with [state_] of [HalBase]); [nullptr] is 0. *)
Record t := mk {
  state_ : State;
  config_ : Config;
  adc_handle_ : Z;
  channels_ : gmap Z ChannelConfig;
  calibration_handles_ : gmap Z Z;
  filter_values_ : gmap Z Float32.float;
  hw_log : list Call
}.

Definition set_state_ (st : t) (s : State) : t :=
  mk s (config_ st) (adc_handle_ st) (channels_ st) (calibration_handles_ st)
     (filter_values_ st) (hw_log st).
Definition set_config_ (st : t) (c : Config) : t :=
  mk (state_ st) c (adc_handle_ st) (channels_ st) (calibration_handles_ st)
     (filter_values_ st) (hw_log st).
Definition set_adc_handle_ (st : t) (h : Z) : t :=
  mk (state_ st) (config_ st) h (channels_ st) (calibration_handles_ st)
     (filter_values_ st) (hw_log st).
Definition set_channels_ (st : t) (m : gmap Z ChannelConfig) : t :=
  mk (state_ st) (config_ st) (adc_handle_ st) m (calibration_handles_ st)
     (filter_values_ st) (hw_log st).
Definition set_calibration_handles_ (st : t) (m : gmap Z Z) : t :=
  mk (state_ st) (config_ st) (adc_handle_ st) (channels_ st) m
     (filter_values_ st) (hw_log st).
Definition set_filter_values_ (st : t) (m : gmap Z Float32.float) : t :=
  mk (state_ st) (config_ st) (adc_handle_ st) (channels_ st) (calibration_handles_ st)
     m (hw_log st).
Definition set_hw_log (st : t) (l : list Call) : t :=
  mk (state_ st) (config_ st) (adc_handle_ st) (channels_ st) (calibration_handles_ st)
     (filter_values_ st) l.

(** [AdcHal::AdcHal(Unit unit)]. *)
Definition create (u : Unit) : t :=
  mk UNINITIALIZED
     {| unit := u; bit_width := WIDTH_DEFAULT; default_vref := 1100 |}
     0 ∅ ∅ ∅ [].

(** The entries of a [std::map] in iteration (ascending key) order. *)
Definition key_le {A} (a b : Z * A) : Prop := a.1 <= b.1.

#[global] Instance key_le_dec {A} : RelDecision (@key_le A).
Proof. intros a b. unfold key_le. apply _. Defined.

Definition in_key_order {A} (m : gmap Z A) : list (Z * A) :=
  merge_sort key_le (map_to_list m).

(** [(raw * config_.default_vref) / 4095]: [int] times [uint32_t] is
    computed on [unsigned int]; the quotient is stored in an [int]. *)
Definition linear_estimate (raw vref : Z) : Z :=
  to_int32 (to_uint32 (to_uint32 raw * vref) / 4095).

(** [it != calibration_handles_.end() && it->second]: the handle stored for
    the channel when there is one and it is not null. *)
Definition find_handle (m : gmap Z Z) (ch : Z) : option Z :=
  match m !! ch with
  | Some h => if decide (h <> 0) then Some h else None
  | None => None
  end.

Section WithDriver.
Variable drv : Driver.

(** One driver call: return code, out-parameter, and the call logged. *)
Definition call (st : t) (c : Call) : esp_err_t * Z * t :=
  (ret drv (hw_log st) c, out drv (hw_log st) c, set_hw_log st (hw_log st ++ [c])).

Definition initialize (st : t) : esp_err_t * t :=
  let st := set_state_ st (setState (state_ st) INITIALIZING) in
  let '(r, handle, st) := call st (adc_oneshot_new_unit (unit (config_ st))) in
  if decide (r <> ESP_OK) then
    (r, set_state_ st (setState (state_ st) ERROR))
  else
    let st := set_adc_handle_ st handle in
    (ESP_OK, set_state_ st (setState (state_ st) INITIALIZED)).

Definition start (st : t) : esp_err_t * t :=
  if negb (isInitialized (state_ st)) then (ESP_ERR_INVALID_STATE, st)
  else (ESP_OK, set_state_ st (setState (state_ st) RUNNING)).

Definition stop (st : t) : esp_err_t * t :=
  (ESP_OK, set_state_ st (setState (state_ st) SUSPENDED)).

Definition reset (st : t) : esp_err_t * t :=
  let st := set_filter_values_ st ∅ in
  (ESP_OK, set_state_ st (setState (state_ st) INITIALIZED)).

Definition setConfig (st : t) (c : Config) : esp_err_t * t :=
  (ESP_OK, set_config_ st c).

Definition isValidChannel (st : t) (ch : Z) : bool :=
  match unit (config_ st) with
  | UNIT_1 => (ADC_CHANNEL_0 <=? ch) && (ch <=? ADC_CHANNEL_9)
  | UNIT_2 => (ADC_CHANNEL_0 <=? ch) && (ch <=? ADC_CHANNEL_9)
  end.

Definition destroyCalibrationHandle (st : t) (ch : Z) : t :=
  match find_handle (calibration_handles_ st) ch with
  | Some h =>
      let '(_, _, st) := call st (adc_cali_delete_scheme_curve_fitting h) in
      set_calibration_handles_ st (delete ch (calibration_handles_ st))
  | None => st
  end.

Definition createCalibrationHandle (st : t) (ch : Z) (att : Attenuation)
  : esp_err_t * t :=
  let st := destroyCalibrationHandle st ch in
  let '(r, handle, st) :=
    call st (adc_cali_create_scheme_curve_fitting
               (unit (config_ st)) ch att (bit_width (config_ st))) in
  if decide (r <> ESP_OK) then (r, st)
  else (ESP_OK, set_calibration_handles_ st (<[ch := handle]> (calibration_handles_ st))).

Definition configureChannel (st : t) (cc : ChannelConfig) : esp_err_t * t :=
  if negb (isInitialized (state_ st)) then (ESP_ERR_INVALID_STATE, st)
  else
    let '(r, _, st) :=
      call st (adc_oneshot_config_channel
                 (adc_handle_ st) (channel cc) (attenuation cc) (bit_width (config_ st))) in
    if decide (r <> ESP_OK) then (r, st)
    else
      let st := set_channels_ st (<[channel cc := cc]> (channels_ st)) in
      let st :=
        if calibration_enable cc
        then snd (createCalibrationHandle st (channel cc) (attenuation cc))
        else st in
      (ESP_OK, st).

(** The loop of [configure] over the channels stored when it starts (the
    body re-stores each entry under its own key). *)
Fixpoint configure_loop (l : list (Z * ChannelConfig)) (st : t) : esp_err_t * t :=
  match l with
  | [] => (ESP_OK, st)
  | (_, cc) :: l' =>
      let '(r, st) := configureChannel st cc in
      if decide (r <> ESP_OK) then (r, st) else configure_loop l' st
  end.

Definition configure (st : t) : esp_err_t * t :=
  if negb (isInitialized (state_ st)) then (ESP_ERR_INVALID_STATE, st)
  else configure_loop (in_key_order (channels_ st)) st.

Definition read (st : t) (ch : Z) (result : ReadResult) : esp_err_t * ReadResult * t :=
  if negb (isRunning (state_ st)) then (ESP_ERR_INVALID_STATE, result, st)
  else
    let '(r, raw, st) := call st (adc_oneshot_read (adc_handle_ st) ch) in
    if decide (r <> ESP_OK) then (r, result, st)
    else
      match find_handle (calibration_handles_ st) ch with
      | Some h =>
          let '(r, v, st) := call st (adc_cali_raw_to_voltage h raw) in
          if decide (r = ESP_OK) then
            (ESP_OK, {| raw_value := raw; voltage_mv := v; calibrated := true |}, st)
          else
            (ESP_OK,
             {| raw_value := raw;
                voltage_mv := linear_estimate raw (default_vref (config_ st));
                calibrated := false |}, st)
      | None =>
          (ESP_OK,
           {| raw_value := raw;
              voltage_mv := linear_estimate raw (default_vref (config_ st));
              calibrated := false |}, st)
      end.

Definition readRaw (st : t) (ch : Z) (raw : Z) : esp_err_t * Z * t :=
  let '(r, result, st) :=
    read st ch {| raw_value := 0; voltage_mv := 0; calibrated := false |} in
  (r, if decide (r = ESP_OK) then raw_value result else raw, st).

Definition readVoltage (st : t) (ch : Z) (mv : Z) : esp_err_t * Z * t :=
  let '(r, result, st) :=
    read st ch {| raw_value := 0; voltage_mv := 0; calibrated := false |} in
  (r, if decide (r = ESP_OK) then voltage_mv result else mv, st).

(** The sampling loop of [readAverage], [n] iterations left. *)
Fixpoint readAverage_loop (n : nat) (st : t) (ch : Z) (raw_values : list Z)
  : esp_err_t * list Z * t :=
  match n with
  | O => (ESP_OK, raw_values, st)
  | S n' =>
      let '(r, raw, st) := call st (adc_oneshot_read (adc_handle_ st) ch) in
      if decide (r <> ESP_OK) then (r, raw_values, st)
      else
        let raw_values := raw_values ++ [raw] in
        let '(_, _, st) := call st (vTaskDelay (1 / portTICK_PERIOD_MS drv)) in
        readAverage_loop n' st ch raw_values
  end.

(** [std::accumulate(first, last, 0)] on [int]. *)
Definition accumulate (l : list Z) : Z :=
  fold_left (fun acc x => to_int32 (acc + x)) l 0.

(** [readAverage]; [samples] is a [size_t].  [None] is undefined behaviour
    (a division by zero). *)
Definition readAverage (st : t) (ch : Z) (samples : Z) (result : ReadResult)
  : option (esp_err_t * ReadResult * t) :=
  if negb (isRunning (state_ st)) then Some (ESP_ERR_INVALID_STATE, result, st)
  else if samples =? 0 then Some (ESP_ERR_INVALID_ARG, result, st)
  else
    let '(r, raw_values, st) := readAverage_loop (Z.to_nat samples) st ch [] in
    if decide (r <> ESP_OK) then Some (r, result, st)
    else
      match udiv32 (accumulate raw_values) samples with
      | None => None
      | Some q =>
          let raw := to_int32 q in
          match find_handle (calibration_handles_ st) ch with
          | Some h =>
              let '(r, v, st) := call st (adc_cali_raw_to_voltage h raw) in
              if decide (r = ESP_OK) then
                Some (ESP_OK,
                      {| raw_value := raw; voltage_mv := v; calibrated := true |}, st)
              else
                Some (ESP_OK,
                      {| raw_value := raw;
                         voltage_mv := linear_estimate raw (default_vref (config_ st));
                         calibrated := false |}, st)
          | None =>
              Some (ESP_OK,
                    {| raw_value := raw;
                       voltage_mv := linear_estimate raw (default_vref (config_ st));
                       calibrated := false |}, st)
          end
      end.

(** [readFiltered]; [None] is undefined behaviour (a [float] that
    [static_cast<int>] cannot represent).  The return code of the second
    [adc_cali_raw_to_voltage] is dropped by the source: on failure
    [result.voltage_mv] keeps the value [read] gave it. *)
Definition readFiltered (st : t) (ch : Z) (alpha : Float32.float) (result : ReadResult)
  : option (esp_err_t * ReadResult * t) :=
  if negb (isRunning (state_ st)) then Some (ESP_ERR_INVALID_STATE, result, st)
  else if Float32.out_of_range alpha then Some (ESP_ERR_INVALID_ARG, result, st)
  else
    let '(r, result, st) := read st ch result in
    if decide (r <> ESP_OK) then Some (r, result, st)
    else
      match filter_values_ st !! ch with
      | Some previous =>
          let filtered :=
            Float32.add (Float32.mul alpha (Float32.of_int (raw_value result)))
                        (Float32.mul (Float32.sub Float32.one alpha) previous) in
          let st := set_filter_values_ st (<[ch := filtered]> (filter_values_ st)) in
          match Float32.to_int filtered with
          | None => None
          | Some code =>
              match find_handle (calibration_handles_ st) ch with
              | Some h =>
                  let '(r, v, st) := call st (adc_cali_raw_to_voltage h code) in
                  Some (ESP_OK,
                        {| raw_value := code;
                           voltage_mv := if decide (r = ESP_OK) then v
                                         else voltage_mv result;
                           calibrated := calibrated result |}, st)
              | None =>
                  Some (ESP_OK,
                        {| raw_value := code;
                           voltage_mv := linear_estimate code (default_vref (config_ st));
                           calibrated := calibrated result |}, st)
              end
          end
      | None =>
          Some (ESP_OK, result,
                set_filter_values_ st
                  (<[ch := Float32.of_int (raw_value result)]> (filter_values_ st)))
      end.

End WithDriver.

(** The range check of ESP-IDF's [adc_oneshot_config_channel] on the target
    (the unit's channels are 0 .. 9): a channel outside the range is
    answered with [ESP_ERR_INVALID_ARG]. *)
Definition rejects_invalid_channels (drv : Driver) (st : t) : Prop :=
  forall hist ch att bw,
    isValidChannel st ch = false ->
    ret drv hist (adc_oneshot_config_channel (adc_handle_ st) ch att bw)
    = ESP_ERR_INVALID_ARG.

(** *** The remaining operations of [AdcHal] *)

Section Calibration.
Variable drv : Driver.

(** [AdcHal::setAttenuation]: the stored entry is updated in place and the
    channel is configured again from it. *)
Definition setAttenuation (st : t) (ch : Z) (att : Attenuation) : esp_err_t * t :=
  match channels_ st !! ch with
  | None => (ESP_ERR_INVALID_ARG, st)
  | Some cc =>
      let cc := {| channel := channel cc; attenuation := att;
                   calibration_enable := calibration_enable cc |} in
      let st := set_channels_ st (<[ch := cc]> (channels_ st)) in
      configureChannel drv st cc
  end.

(** [AdcHal::setBitWidth]. *)
Definition setBitWidth (st : t) (bw : BitWidth) : esp_err_t * t :=
  let c := {| unit := unit (config_ st); bit_width := bw;
              default_vref := default_vref (config_ st) |} in
  configure drv (set_config_ st c).

(** [AdcHal::calibrate]. *)
Definition calibrate (st : t) (ch : Z) : esp_err_t * t :=
  match channels_ st !! ch with
  | None => (ESP_ERR_INVALID_ARG, st)
  | Some cc => createCalibrationHandle drv st ch (attenuation cc)
  end.



(** [AdcHal::convertToVoltage]; [mv] is the caller's [voltage_mv], which a
    failed calibrated conversion leaves as it is. *)
Definition convertToVoltage (st : t) (ch raw mv : Z) : esp_err_t * Z * t :=
  match find_handle (calibration_handles_ st) ch with
  | Some h =>
      let '(r, v, st) := call drv st (adc_cali_raw_to_voltage h raw) in
      (r, if decide (r = ESP_OK) then v else mv, st)
  | None => (ESP_OK, linear_estimate raw (default_vref (config_ st)), st)
  end.

End Calibration.

(** The calls a member function added to the driver log. *)
Definition new_calls (before after : t) : list Call :=
  drop (length (hw_log before)) (hw_log after).

(** Every entry of the channel table is stored under its own channel
    number. *)
Definition keyed_by_channel (m : gmap Z ChannelConfig) : Prop :=
  forall k cc, m !! k = Some cc -> channel cc = k.


(** Whether a call samples the converter. *)
Definition is_sample (c : Call) : bool :=
  match c with adc_oneshot_read _ _ => true | _ => false end.

(** Whether a call configures a channel of the unit. *)
Definition is_channel_config (c : Call) : bool :=
  match c with adc_oneshot_config_channel _ _ _ _ => true | _ => false end.

(** How many calls of a log satisfy a test. *)
Definition count_calls (test : Call -> bool) (log : list Call) : nat :=
  length (List.filter test log).

(** The driver accepts every channel configuration. *)
Definition accepts_channels (drv : Driver) : Prop :=
  forall hist h ch att bw, ret drv hist (adc_oneshot_config_channel h ch att bw) = ESP_OK.

(** The codes the converter hands to [n] consecutive samples of channel
    [ch] taken by [readAverage] (a sample, then the delay) from the history
    [hist] on. *)
Fixpoint samples_from (drv : Driver) (hist : list Call) (h ch : Z) (n : nat) : list Z :=
  match n with
  | O => []
  | S n' =>
      out drv hist (adc_oneshot_read h ch)
      :: samples_from drv
           (hist ++ [adc_oneshot_read h ch; vTaskDelay (1 / portTICK_PERIOD_MS drv)])
           h ch n'
  end.

(** The sum of a list of codes, as an integer. *)
Definition sum_samples (l : list Z) : Z := fold_right Z.add 0 l.

(** Every sample of channel [ch] through handle [h] succeeds, with a code
    between [lo] and [hi]. *)
Definition samples_between (drv : Driver) (h ch lo hi : Z) : Prop :=
  forall hist,
    ret drv hist (adc_oneshot_read h ch) = ESP_OK /\
    lo <= out drv hist (adc_oneshot_read h ch) <= hi.

End AdcHal.

(** ** [I2cHal] ([i2c_hal.hpp], [i2c_hal.cpp]) *)

Module I2cHal.
Import CInt Esp HalBase.

Inductive Mode := MASTER | SLAVE.

Record Config := {
  port : Z;
  mode : Mode;
  sda_pin : Z;
  scl_pin : Z;
  frequency : Z;
  sda_pullup_enable : bool;
  scl_pullup_enable : bool;
  slave_address : Z
}.

Definition GPIO_NUM_NC : Z := -1.
Definition I2C_NUM_0 : Z := 0.
Definition I2C_MASTER_WRITE : Z := 0.
Definition I2C_MASTER_READ : Z := 1.
Definition I2C_MASTER_ACK : Z := 0.
Definition I2C_MASTER_NACK : Z := 1.

(** The primitives queued in a command link ([i2c_cmd_handle_t]).  The
    [bool] of the writes is [ack_en] (the slave's ACK is checked); the [Z]
    of the reads is the [i2c_ack_type_t] the master answers with. *)
Inductive Op :=
| i2c_master_start
| i2c_master_write_byte (b : Z) (ack_en : bool)
| i2c_master_write (data : list Z) (ack_en : bool)
| i2c_master_read (len : nat) (ack : Z)
| i2c_master_read_byte (ack : Z)
| i2c_master_stop.

(** The calls the class makes into ESP-IDF.  [queue op] is the call that
    appends [op] to the link under construction; [i2c_master_cmd_begin]
    executes a whole link on the bus. *)
Inductive Call :=
| i2c_cmd_link_create
| queue (op : Op)
| i2c_master_cmd_begin (port : Z) (link : list Op) (ticks : Z)
| i2c_cmd_link_delete
| i2c_param_config (port : Z) (conf : Config)
| i2c_driver_install (port : Z) (m : Mode)
| i2c_driver_delete (port : Z).

(** The driver below the HAL, given the calls made before: whether
    [i2c_cmd_link_create] returns a handle, the return code of every other
    call, and the bytes an executed link stores in its read buffers. *)
Record Driver := {
  alloc : list Call -> bool;
  ret : list Call -> Call -> esp_err_t;
  received : list Call -> Call -> list Z;
  configTICK_RATE_HZ : Z
}.

(** The fields of [class I2cHal] (with [state_] of [HalBase]). *)
Record t := mk {
  state_ : State;
  config_ : Config;
  driver_installed_ : bool;
  hw_log : list Call
}.

Definition set_state_ (st : t) (s : State) : t :=
  mk s (config_ st) (driver_installed_ st) (hw_log st).
Definition set_config_ (st : t) (c : Config) : t :=
  mk (state_ st) c (driver_installed_ st) (hw_log st).
Definition set_driver_installed_ (st : t) (b : bool) : t :=
  mk (state_ st) (config_ st) b (hw_log st).
Definition set_hw_log (st : t) (l : list Call) : t :=
  mk (state_ st) (config_ st) (driver_installed_ st) l.

(** [I2cHal::I2cHal(i2c_port_t port)]. *)
Definition create (p : Z) : t :=
  mk UNINITIALIZED
     {| port := p; mode := MASTER; sda_pin := GPIO_NUM_NC; scl_pin := GPIO_NUM_NC;
        frequency := 100000; sda_pullup_enable := true; scl_pullup_enable := true;
        slave_address := 0 |}
     false [].

(** [(device_address << 1) | rw], passed as a [uint8_t]. *)
Definition address_byte (device_address rw : Z) : Z :=
  to_uint8 (Z.lor (Z.shiftl device_address 1) rw).

(** [std::vector::resize(n)]: keeps the first [n] bytes, pads with 0. *)
Definition vector_resize (n : nat) (data : list Z) : list Z := resize n 0 data.

(** The buffer after the driver stored the bytes it received. *)
Definition store (bytes data : list Z) : list Z :=
  take (length data) (map to_uint8 bytes ++ drop (length bytes) data).

Section WithDriver.
Variable drv : Driver.

Definition pdMS_TO_TICKS (ms : Z) : Z :=
  to_uint32 (ms * configTICK_RATE_HZ drv / 1000).

(** One driver call: its return code, and the call logged. *)
Definition call (st : t) (c : Call) : esp_err_t * t :=
  (ret drv (hw_log st) c, set_hw_log st (hw_log st ++ [c])).

Definition link_create (st : t) : bool * t :=
  (alloc drv (hw_log st), set_hw_log st (hw_log st ++ [i2c_cmd_link_create])).

(** [ret |= i2c_master_...(cmd, ...)]: the primitive joins the link when the
    call succeeds, and the return codes are or-ed together. *)
Definition queue_op (b : esp_err_t * list Op * t) (op : Op) : esp_err_t * list Op * t :=
  let '(r, link, st) := b in
  let '(r', st) := call st (queue op) in
  (Z.lor r r', if decide (r' = ESP_OK) then link ++ [op] else link, st).

(** [i2c_master_cmd_begin] followed by [i2c_cmd_link_delete]. *)
Definition execute (st : t) (link : list Op) (timeout : Z) : esp_err_t * list Z * t :=
  let c := i2c_master_cmd_begin (port (config_ st)) link timeout in
  let bytes := received drv (hw_log st) c in
  let '(r, st) := call st c in
  let '(_, st) := call st i2c_cmd_link_delete in
  (r, bytes, st).

Definition initialize (st : t) : esp_err_t * t :=
  let st := set_state_ st (setState (state_ st) INITIALIZING) in
  if decide (sda_pin (config_ st) = GPIO_NUM_NC \/ scl_pin (config_ st) = GPIO_NUM_NC) then
    (ESP_ERR_INVALID_ARG, set_state_ st (setState (state_ st) ERROR))
  else
    (ESP_OK, set_state_ st (setState (state_ st) INITIALIZED)).

Definition configure (st : t) : esp_err_t * t :=
  if negb (isInitialized (state_ st)) then (ESP_ERR_INVALID_STATE, st)
  else
    let st :=
      if driver_installed_ st then
        let '(_, st) := call st (i2c_driver_delete (port (config_ st))) in
        set_driver_installed_ st false
      else st in
    let '(r, st) := call st (i2c_param_config (port (config_ st)) (config_ st)) in
    if decide (r <> ESP_OK) then (r, set_state_ st (setState (state_ st) ERROR))
    else
      let '(r, st) := call st (i2c_driver_install (port (config_ st)) (mode (config_ st))) in
      if decide (r <> ESP_OK) then (r, set_state_ st (setState (state_ st) ERROR))
      else (ESP_OK, set_driver_installed_ st true).

Definition start (st : t) : esp_err_t * t :=
  if negb (isInitialized (state_ st)) then (ESP_ERR_INVALID_STATE, st)
  else
    let '(r, st) := if negb (driver_installed_ st) then configure st else (ESP_OK, st) in
    if decide (r <> ESP_OK) then (r, st)
    else (ESP_OK, set_state_ st (setState (state_ st) RUNNING)).

Definition stop (st : t) : esp_err_t * t :=
  (ESP_OK, set_state_ st (setState (state_ st) SUSPENDED)).

Definition reset (st : t) : esp_err_t * t :=
  let st :=
    if driver_installed_ st then
      let '(_, st) := call st (i2c_driver_delete (port (config_ st))) in
      set_driver_installed_ st false
    else st in
  (ESP_OK, set_state_ st (setState (state_ st) INITIALIZED)).

Definition setConfig (st : t) (c : Config) : esp_err_t * t :=
  (ESP_OK, set_config_ st c).

Definition write (st : t) (device_address : Z) (data : list Z) (timeout : Z)
  : esp_err_t * t :=
  if negb (isRunning (state_ st)) then (ESP_ERR_INVALID_STATE, st)
  else if decide (data = []) then (ESP_ERR_INVALID_ARG, st)
  else
    let '(ok, st) := link_create st in
    if negb ok then (ESP_ERR_NO_MEM, st)
    else
      let b := queue_op (ESP_OK, [], st) i2c_master_start in
      let b := queue_op b (i2c_master_write_byte
                             (address_byte device_address I2C_MASTER_WRITE) true) in
      let b := queue_op b (i2c_master_write data true) in
      let '(r, link, st) := queue_op b i2c_master_stop in
      if decide (r <> ESP_OK) then
        let '(_, st) := call st i2c_cmd_link_delete in (r, st)
      else
        let '(r, _, st) := execute st link timeout in
        if decide (r <> ESP_OK) then (r, st) else (ESP_OK, st).

Definition read (st : t) (device_address : Z) (data : list Z) (length : nat) (timeout : Z)
  : esp_err_t * list Z * t :=
  if negb (isRunning (state_ st)) then (ESP_ERR_INVALID_STATE, data, st)
  else if decide (length = 0%nat) then (ESP_ERR_INVALID_ARG, data, st)
  else
    let data := vector_resize length data in
    let '(ok, st) := link_create st in
    if negb ok then (ESP_ERR_NO_MEM, data, st)
    else
      let b := queue_op (ESP_OK, [], st) i2c_master_start in
      let b := queue_op b (i2c_master_write_byte
                             (address_byte device_address I2C_MASTER_READ) true) in
      let b := if decide (1 < length)%nat
               then queue_op b (i2c_master_read (length - 1) I2C_MASTER_ACK) else b in
      let b := queue_op b (i2c_master_read_byte I2C_MASTER_NACK) in
      let '(r, link, st) := queue_op b i2c_master_stop in
      if decide (r <> ESP_OK) then
        let '(_, st) := call st i2c_cmd_link_delete in (r, data, st)
      else
        let '(r, bytes, st) := execute st link timeout in
        if decide (r <> ESP_OK) then (r, [], st)
        else (ESP_OK, store bytes data, st).

Definition writeRegister (st : t) (device_address register_address : Z)
    (data : list Z) (timeout : Z) : esp_err_t * t :=
  if negb (isRunning (state_ st)) then (ESP_ERR_INVALID_STATE, st)
  else
    let '(ok, st) := link_create st in
    if negb ok then (ESP_ERR_NO_MEM, st)
    else
      let b := queue_op (ESP_OK, [], st) i2c_master_start in
      let b := queue_op b (i2c_master_write_byte
                             (address_byte device_address I2C_MASTER_WRITE) true) in
      let b := queue_op b (i2c_master_write_byte register_address true) in
      let b := if decide (data <> [])
               then queue_op b (i2c_master_write data true) else b in
      let '(r, link, st) := queue_op b i2c_master_stop in
      if decide (r <> ESP_OK) then
        let '(_, st) := call st i2c_cmd_link_delete in (r, st)
      else
        let '(r, _, st) := execute st link timeout in
        if decide (r <> ESP_OK) then (r, st) else (ESP_OK, st).

Definition readRegister (st : t) (device_address register_address : Z)
    (data : list Z) (length : nat) (timeout : Z) : esp_err_t * list Z * t :=
  if negb (isRunning (state_ st)) then (ESP_ERR_INVALID_STATE, data, st)
  else if decide (length = 0%nat) then (ESP_ERR_INVALID_ARG, data, st)
  else
    let data := vector_resize length data in
    let '(ok, st) := link_create st in
    if negb ok then (ESP_ERR_NO_MEM, data, st)
    else
      let b := queue_op (ESP_OK, [], st) i2c_master_start in
      let b := queue_op b (i2c_master_write_byte
                             (address_byte device_address I2C_MASTER_WRITE) true) in
      let b := queue_op b (i2c_master_write_byte register_address true) in
      let b := queue_op b i2c_master_start in
      let b := queue_op b (i2c_master_write_byte
                             (address_byte device_address I2C_MASTER_READ) true) in
      let b := if decide (1 < length)%nat
               then queue_op b (i2c_master_read (length - 1) I2C_MASTER_ACK) else b in
      let b := queue_op b (i2c_master_read_byte I2C_MASTER_NACK) in
      let '(r, link, st) := queue_op b i2c_master_stop in
      if decide (r <> ESP_OK) then
        let '(_, st) := call st i2c_cmd_link_delete in (r, data, st)
      else
        let '(r, bytes, st) := execute st link timeout in
        if decide (r <> ESP_OK) then (r, [], st)
        else (ESP_OK, store bytes data, st).

Definition deviceExists (st : t) (device_address : Z) (timeout : Z) : bool * t :=
  if negb (isRunning (state_ st)) then (false, st)
  else
    let '(ok, st) := link_create st in
    if negb ok then (false, st)
    else
      let b := queue_op (ESP_OK, [], st) i2c_master_start in
      let b := queue_op b (i2c_master_write_byte
                             (address_byte device_address I2C_MASTER_WRITE) true) in
      let '(r, link, st) := queue_op b i2c_master_stop in
      if decide (r <> ESP_OK) then
        let '(_, st) := call st i2c_cmd_link_delete in (false, st)
      else
        let '(r, _, st) := execute st link timeout in
        (bool_decide (r = ESP_OK), st).

(** The loop of [scanBus]: [for (uint8_t addr = 0x08; addr <= 0x77; addr++)],
    entered at [addr].  [None]: the loop is still running when [fuel]
    iterations are spent. *)
Fixpoint scanBus_loop (fuel : nat) (st : t) (addr : Z) (found_devices : list Z)
  : option (list Z * t) :=
  match fuel with
  | O => if addr <=? 0x77 then None else Some (found_devices, st)
  | S fuel' =>
      if addr <=? 0x77 then
        let '(present, st) := deviceExists st addr (pdMS_TO_TICKS 100) in
        let found_devices :=
          if present then found_devices ++ [addr] else found_devices in
        scanBus_loop fuel' st (to_uint8 (addr + 1)) found_devices
      else Some (found_devices, st)
  end.

(** [scanBus]; the loop variable is a [uint8_t], so 256 iterations bound
    any run that leaves the loop. *)
Definition scanBus (st : t) (found_devices : list Z) : option (esp_err_t * list Z * t) :=
  if negb (isRunning (state_ st)) then Some (ESP_ERR_INVALID_STATE, found_devices, st)
  else
    match scanBus_loop 256 st 0x08 [] with
    | Some (found_devices, st) => Some (ESP_OK, found_devices, st)
    | None => None
    end.

End WithDriver.

(** What a link puts on the wire, one signal per bus event. *)
Inductive Signal :=
| START
| SEND (b : Z)              (* a byte sent by the master *)
| RECV_ACK                  (* a byte received and acknowledged *)
| RECV_NACK                 (* a byte received and not acknowledged *)
| STOP.

Definition recv (ack : Z) : Signal :=
  if decide (ack = I2C_MASTER_ACK) then RECV_ACK else RECV_NACK.

Definition wire_op (op : Op) : list Signal :=
  match op with
  | i2c_master_start => [START]
  | i2c_master_write_byte b _ => [SEND b]
  | i2c_master_write data _ => map SEND data
  | i2c_master_read len ack => replicate len (recv ack)
  | i2c_master_read_byte ack => [recv ack]
  | i2c_master_stop => [STOP]
  end.

Definition wire (link : list Op) : list Signal := concat (map wire_op link).

(** Each call of a log with the return code the driver gave it. *)
Fixpoint replay (drv : Driver) (hist calls : list Call) : list (Call * esp_err_t) :=
  match calls with
  | [] => []
  | c :: calls' => (c, ret drv hist c) :: replay drv (hist ++ [c]) calls'
  end.

(** The links executed on the bus among [calls], in order, each with its
    port, timeout and return code. *)
Definition transactions (drv : Driver) (hist calls : list Call)
  : list (Z * list Op * Z * esp_err_t) :=
  omap (fun cr : Call * esp_err_t =>
          match cr.1 with
          | i2c_master_cmd_begin p link ticks => Some (p, link, ticks, cr.2)
          | _ => None
          end)
       (replay drv hist calls).

(** The calls a member function added to the log. *)
Definition new_calls (before after : t) : list Call :=
  drop (length (hw_log before)) (hw_log after).

(** The link of the presence probe of [deviceExists]. *)
Definition probe_link (device_address : Z) : list Op :=
  [i2c_master_start;
   i2c_master_write_byte (address_byte device_address I2C_MASTER_WRITE) true;
   i2c_master_stop].

(** The calls of one presence probe, in order. *)
Definition probe_calls (p device_address ticks : Z) : list Call :=
  [i2c_cmd_link_create;
   queue i2c_master_start;
   queue (i2c_master_write_byte (address_byte device_address I2C_MASTER_WRITE) true);
   queue i2c_master_stop;
   i2c_master_cmd_begin p (probe_link device_address) ticks;
   i2c_cmd_link_delete].

(** The bus transaction of a presence probe with its return code. *)
Definition probe (p ticks : Z) (device_address : Z) (r : esp_err_t)
  : Z * list Op * Z * esp_err_t :=
  (p, probe_link device_address, ticks, r).

(** The link of [readRegister]. *)
Definition register_read_link (device_address register_address : Z) (length : nat)
  : list Op :=
  [i2c_master_start;
   i2c_master_write_byte (address_byte device_address I2C_MASTER_WRITE) true;
   i2c_master_write_byte register_address true;
   i2c_master_start;
   i2c_master_write_byte (address_byte device_address I2C_MASTER_READ) true]
  ++ (if decide (1 < length)%nat then [i2c_master_read (length - 1) I2C_MASTER_ACK] else [])
  ++ [i2c_master_read_byte I2C_MASTER_NACK; i2c_master_stop].

(** The driver can always build a command link: [i2c_cmd_link_create]
    returns a handle and every primitive is queued. *)
Definition builds_links (drv : Driver) : Prop :=
  (forall hist, alloc drv hist = true) /\
  (forall hist op, ret drv hist (queue op) = ESP_OK).

(** [n] consecutive addresses from [addr] on. *)
Fixpoint addresses_from (addr : Z) (n : nat) : list Z :=
  match n with
  | O => []
  | S n' => addr :: addresses_from (addr + 1) n'
  end.

(** The addresses [0x08 .. 0x77]. *)
Definition scan_range : list Z := addresses_from 0x08 112.

(** [deviceExists] over a list of addresses, collecting those present. *)
Fixpoint scan_list (drv : Driver) (addrs : list Z) (st : t) (found_devices : list Z)
  : list Z * t :=
  match addrs with
  | [] => (found_devices, st)
  | addr :: addrs' =>
      let '(present, st) := deviceExists drv st addr (pdMS_TO_TICKS drv 100) in
      scan_list drv addrs' st (if present then found_devices ++ [addr] else found_devices)
  end.

(** The addresses among [addrs] whose probe got the return code [ESP_OK]. *)
Definition acknowledged (addrs : list Z) (results : list esp_err_t) : list Z :=
  map fst (List.filter (fun ar : Z * esp_err_t => bool_decide (ar.2 = ESP_OK))
                       (zip addrs results)).

(** *** The register helpers of [I2cHal] *)

Definition to_uint16 (z : Z) : Z := z mod 2 ^ 16.

(** The two bytes [writeRegister16] sends for a [uint16_t], in the order
    sent. *)
Definition bytes16 (value : Z) (big_endian : bool) : list Z :=
  if big_endian
  then [Z.land (Z.shiftr value 8) 0xFF; Z.land value 0xFF]
  else [Z.land value 0xFF; Z.land (Z.shiftr value 8) 0xFF].

(** [(static_cast<uint16_t>(hi) << 8) | lo], stored in a [uint16_t]. *)
Definition word16 (hi lo : Z) : Z := to_uint16 (Z.lor (Z.shiftl hi 8) lo).

Section Registers.
Variable drv : Driver.

Definition writeRegister8 (st : t) (device_address register_address value timeout : Z)
  : esp_err_t * t :=
  writeRegister drv st device_address register_address [value] timeout.

(** [value] is the caller's variable, assigned only on success. *)
Definition readRegister8 (st : t) (device_address register_address value timeout : Z)
  : esp_err_t * Z * t :=
  let '(r, data, st) :=
    readRegister drv st device_address register_address [] 1 timeout in
  (r,
   match data with
   | d0 :: _ => if decide (r = ESP_OK) then d0 else value
   | [] => value
   end, st).

Definition writeRegister16 (st : t) (device_address register_address value : Z)
    (big_endian : bool) (timeout : Z) : esp_err_t * t :=
  writeRegister drv st device_address register_address (bytes16 value big_endian) timeout.

Definition readRegister16 (st : t) (device_address register_address value : Z)
    (big_endian : bool) (timeout : Z) : esp_err_t * Z * t :=
  let '(r, data, st) :=
    readRegister drv st device_address register_address [] 2 timeout in
  (r,
   match data with
   | d0 :: d1 :: _ =>
       if decide (r = ESP_OK)
       then (if big_endian then word16 d0 d1 else word16 d1 d0)
       else value
   | _ => value
   end, st).

End Registers.

(** The link of [read]. *)
Definition read_link (device_address : Z) (length : nat) : list Op :=
  [i2c_master_start;
   i2c_master_write_byte (address_byte device_address I2C_MASTER_READ) true]
  ++ (if decide (1 < length)%nat then [i2c_master_read (length - 1) I2C_MASTER_ACK] else [])
  ++ [i2c_master_read_byte I2C_MASTER_NACK; i2c_master_stop].

(** The link of [writeRegister]. *)
Definition register_write_link (device_address register_address : Z) (data : list Z)
  : list Op :=
  [i2c_master_start;
   i2c_master_write_byte (address_byte device_address I2C_MASTER_WRITE) true;
   i2c_master_write_byte register_address true]
  ++ (if decide (data <> []) then [i2c_master_write data true] else [])
  ++ [i2c_master_stop].

(** The calls that build a link: the allocation, then one call per
    primitive. *)
Definition build_calls (link : list Op) : list Call :=
  i2c_cmd_link_create :: map queue link.

(** The object after a member function built [link], executed it with
    [timeout] and deleted it. *)
Definition after_transaction (st : t) (link : list Op) (timeout : Z) : t :=
  set_hw_log st
    (hw_log st ++ build_calls link
       ++ [i2c_master_cmd_begin (port (config_ st)) link timeout; i2c_cmd_link_delete]).

(** The return code the driver gives the execution of [link] by a member
    function entered in [st], and the bytes it receives. *)
Definition transaction_ret (drv : Driver) (st : t) (link : list Op) (timeout : Z)
  : esp_err_t :=
  ret drv (hw_log st ++ build_calls link)
      (i2c_master_cmd_begin (port (config_ st)) link timeout).

Definition transaction_received (drv : Driver) (st : t) (link : list Op) (timeout : Z)
  : list Z :=
  received drv (hw_log st ++ build_calls link)
           (i2c_master_cmd_begin (port (config_ st)) link timeout).

(** [st'] differs from [st] by driver calls only: the fields of the class
    are the same and the log has grown. *)
Definition only_calls (st st' : t) : Prop :=
  state_ st' = state_ st /\ config_ st' = config_ st /\
  driver_installed_ st' = driver_installed_ st /\
  exists calls, hw_log st' = hw_log st ++ calls.

(** A running object has its driver installed. *)
Definition installed_when_running (st : t) : Prop :=
  isRunning (state_ st) = true -> driver_installed_ st = true.

(** The link of [write]. *)
Definition write_link (device_address : Z) (data : list Z) : list Op :=
  [i2c_master_start;
   i2c_master_write_byte (address_byte device_address I2C_MASTER_WRITE) true;
   i2c_master_write data true;
   i2c_master_stop].

(** Whether a call leaves the installed drivers alone. *)
Definition keeps_drivers (c : Call) : bool :=
  match c with
  | i2c_driver_install _ _ | i2c_driver_delete _ => false
  | _ => true
  end.

(** Whether a driver is installed on port [p] after the calls of [log],
    each with its return code; [installed] tells whether one was before.  A
    successful [i2c_driver_install] on [p] installs one, an
    [i2c_driver_delete] of [p] removes it. *)
Fixpoint installed_after (p : Z) (installed : bool) (log : list (Call * esp_err_t))
  : bool :=
  match log with
  | [] => installed
  | (i2c_driver_install q _, r) :: log' =>
      installed_after p
        (if decide (q = p /\ r = ESP_OK) then true else installed) log'
  | (i2c_driver_delete q, _) :: log' =>
      installed_after p (if decide (q = p) then false else installed) log'
  | _ :: log' => installed_after p installed log'
  end.

(** Whether the calls the object has made leave a driver installed on the
    port of its configuration. *)
Definition serves_port (drv : Driver) (st : t) : bool :=
  installed_after (port (config_ st)) false (replay drv [] (hw_log st)).

(** A running object has the installation flag set, and a set flag stands
    for a driver installed on the configured port. *)
Definition driver_ready (drv : Driver) (st : t) : Prop :=
  installed_when_running st /\
  (driver_installed_ st = true -> serves_port drv st = true).

(** [st'] differs from [st] by driver calls that install and remove no
    driver. *)
Definition traffic_only (st st' : t) : Prop :=
  state_ st' = state_ st /\ config_ st' = config_ st /\
  driver_installed_ st' = driver_installed_ st /\
  exists calls, hw_log st' = hw_log st ++ calls /\ forallb keeps_drivers calls = true.

End I2cHal.

(** ** [InterruptHal] ([interrupt_hal.hpp], [interrupt_hal.cpp]) *)

Module InterruptHal.
Import CInt Esp HalBase.

Inductive Priority := LEVEL_1 | LEVEL_2 | LEVEL_3 | LEVEL_4 | LEVEL_5 | LEVEL_NMI.

Record TimerConfig := {
  period_us : Z;
  auto_reload : bool;
  timer_priority : Priority;
  run_in_isr : bool
}.

Record SourceConfig := {
  source : Z;
  priority : Priority;
  flags : Z
}.

Record Statistics := {
  total_count : Z;          (* uint64_t *)
  missed_count : Z;
  max_latency_us : Z;
  avg_latency_us : Z
}.

(** [stats = {}]. *)
Definition no_statistics : Statistics :=
  {| total_count := 0; missed_count := 0; max_latency_us := 0; avg_latency_us := 0 |}.

(** [stats.total_count++] on [uint64_t]. *)
Definition count_one (s : Statistics) : Statistics :=
  {| total_count := (total_count s + 1) mod 2 ^ 64;
     missed_count := missed_count s;
     max_latency_us := max_latency_us s;
     avg_latency_us := avg_latency_us s |}.

(** A [std::function<void(void)>]: empty, or a callable known by a name. *)
Definition Callback := option nat.

Module TimerInfo.
Record t := {
  handle : Z;
  config : TimerConfig;
  callback : Callback;
  stats : Statistics
}.
End TimerInfo.

Module InterruptInfo.
Record t := {
  handle : Z;
  config : SourceConfig;
  handler : Callback;
  stats : Statistics
}.
End InterruptInfo.

(** The calls the class makes into ESP-IDF; [arg] is the [void*] handed
    back to the trampoline. *)
Inductive Call :=
| esp_timer_create (arg : Z)
| esp_timer_stop (handle : Z)
| esp_timer_delete (handle : Z)
| esp_intr_alloc (source flags arg : Z)
| esp_intr_free (handle : Z).

Record Driver := {
  ret : list Call -> Call -> esp_err_t;
  out : list Call -> Call -> Z
}.

(** The fields of [class InterruptHal] (with [state_] of [HalBase]). *)
Record t := mk {
  state_ : State;
  timers_ : gmap Z TimerInfo.t;
  interrupts_ : gmap Z InterruptInfo.t;
  hw_log : list Call
}.

Definition set_state_ (st : t) (s : State) : t :=
  mk s (timers_ st) (interrupts_ st) (hw_log st).
Definition set_timers_ (st : t) (m : gmap Z TimerInfo.t) : t :=
  mk (state_ st) m (interrupts_ st) (hw_log st).
Definition set_interrupts_ (st : t) (m : gmap Z InterruptInfo.t) : t :=
  mk (state_ st) (timers_ st) m (hw_log st).
Definition set_hw_log (st : t) (l : list Call) : t :=
  mk (state_ st) (timers_ st) (interrupts_ st) l.

(** [InterruptHal::InterruptHal()]. *)
Definition create : t := mk UNINITIALIZED ∅ ∅ [].

Section WithDriver.
Variable drv : Driver.

Definition call (st : t) (c : Call) : esp_err_t * Z * t :=
  (ret drv (hw_log st) c, out drv (hw_log st) c, set_hw_log st (hw_log st ++ [c])).

Definition initialize (st : t) : esp_err_t * t :=
  let st := set_state_ st (setState (state_ st) INITIALIZING) in
  (ESP_OK, set_state_ st (setState (state_ st) INITIALIZED)).

Definition configure (st : t) : esp_err_t * t :=
  if negb (isInitialized (state_ st)) then (ESP_ERR_INVALID_STATE, st)
  else (ESP_OK, st).

Definition start (st : t) : esp_err_t * t :=
  if negb (isInitialized (state_ st)) then (ESP_ERR_INVALID_STATE, st)
  else (ESP_OK, set_state_ st (setState (state_ st) RUNNING)).

Definition createHighResTimer (st : t) (timer_id : Z) (config : TimerConfig)
    (callback : Callback) : esp_err_t * t :=
  if negb (isRunning (state_ st)) then (ESP_ERR_INVALID_STATE, st)
  else
    match timers_ st !! timer_id with
    | Some _ => (ESP_ERR_INVALID_ARG, st)
    | None =>
        let '(r, handle, st) := call st (esp_timer_create timer_id) in
        if decide (r <> ESP_OK) then (r, st)
        else
          let timer_info :=
            {| TimerInfo.handle := handle; TimerInfo.config := config;
               TimerInfo.callback := callback; TimerInfo.stats := no_statistics |} in
          (ESP_OK, set_timers_ st (<[timer_id := timer_info]> (timers_ st)))
    end.

Definition deleteTimer (st : t) (timer_id : Z) : esp_err_t * t :=
  match timers_ st !! timer_id with
  | None => (ESP_ERR_NOT_FOUND, st)
  | Some info =>
      let '(_, _, st) := call st (esp_timer_stop (TimerInfo.handle info)) in
      let '(r, _, st) := call st (esp_timer_delete (TimerInfo.handle info)) in
      if decide (r <> ESP_OK) then (r, st)
      else (ESP_OK, set_timers_ st (delete timer_id (timers_ st)))
  end.

Definition registerInterrupt (st : t) (interrupt_id : Z) (config : SourceConfig)
    (handler : Callback) : esp_err_t * t :=
  if negb (isRunning (state_ st)) then (ESP_ERR_INVALID_STATE, st)
  else
    match interrupts_ st !! interrupt_id with
    | Some _ => (ESP_ERR_INVALID_ARG, st)
    | None =>
        let '(r, handle, st) :=
          call st (esp_intr_alloc (source config) (flags config) interrupt_id) in
        if decide (r <> ESP_OK) then (r, st)
        else
          let interrupt_info :=
            {| InterruptInfo.handle := handle; InterruptInfo.config := config;
               InterruptInfo.handler := handler;
               InterruptInfo.stats := no_statistics |} in
          (ESP_OK, set_interrupts_ st (<[interrupt_id := interrupt_info]> (interrupts_ st)))
    end.

Definition unregisterInterrupt (st : t) (interrupt_id : Z) : esp_err_t * t :=
  match interrupts_ st !! interrupt_id with
  | None => (ESP_ERR_NOT_FOUND, st)
  | Some info =>
      let '(r, _, st) := call st (esp_intr_free (InterruptInfo.handle info)) in
      if decide (r <> ESP_OK) then (r, st)
      else (ESP_OK, set_interrupts_ st (delete interrupt_id (interrupts_ st)))
  end.

Definition getStatistics (st : t) (interrupt_id : Z) (stats : Statistics)
  : esp_err_t * Statistics :=
  match timers_ st !! interrupt_id with
  | Some info => (ESP_OK, TimerInfo.stats info)
  | None =>
      match interrupts_ st !! interrupt_id with
      | Some info => (ESP_OK, InterruptInfo.stats info)
      | None => (ESP_ERR_NOT_FOUND, stats)
      end
  end.

End WithDriver.

(** The part of the program the trampolines see: the [InterruptHal]
    objects alive, by address, and (ghost) the callables run so far. *)
Record World := {
  objects : gmap Z t;
  invoked : list nat
}.

Definition run (w : World) (f : Callback) : World :=
  match f with
  | Some name => {| objects := objects w; invoked := invoked w ++ [name] |}
  | None => w
  end.

(** The body of [espTimerCallback] for a given value of its function-local
    [static InterruptHal* instance]. *)
Definition timer_dispatch (instance : Z) (w : World) (arg : Z) : World :=
  let timer_id := to_uint32 arg in
  if decide (instance = 0) then w
  else
    match objects w !! instance with
    | None => w
    | Some obj =>
        match timers_ obj !! timer_id with
        | Some info =>
            let info :=
              {| TimerInfo.handle := TimerInfo.handle info;
                 TimerInfo.config := TimerInfo.config info;
                 TimerInfo.callback := TimerInfo.callback info;
                 TimerInfo.stats := count_one (TimerInfo.stats info) |} in
            let obj := set_timers_ obj (<[timer_id := info]> (timers_ obj)) in
            run {| objects := <[instance := obj]> (objects w); invoked := invoked w |}
                (TimerInfo.callback info)
        | None => w
        end
    end.

(** The body of [interruptHandlerWrapper], likewise. *)
Definition interrupt_dispatch (instance : Z) (w : World) (arg : Z) : World :=
  let interrupt_id := to_uint32 arg in
  if decide (instance = 0) then w
  else
    match objects w !! instance with
    | None => w
    | Some obj =>
        match interrupts_ obj !! interrupt_id with
        | Some info =>
            let info :=
              {| InterruptInfo.handle := InterruptInfo.handle info;
                 InterruptInfo.config := InterruptInfo.config info;
                 InterruptInfo.handler := InterruptInfo.handler info;
                 InterruptInfo.stats := count_one (InterruptInfo.stats info) |} in
            let obj := set_interrupts_ obj (<[interrupt_id := info]> (interrupts_ obj)) in
            run {| objects := <[instance := obj]> (objects w); invoked := invoked w |}
                (InterruptInfo.handler info)
        | None => w
        end
    end.

(** [static InterruptHal* instance = nullptr;] in both trampolines: the
    initialiser is the only place that gives the variable a value. *)
Definition instance : Z := 0.

Definition espTimerCallback (w : World) (arg : Z) : World :=
  timer_dispatch instance w arg.

Definition interruptHandlerWrapper (w : World) (arg : Z) : World :=
  interrupt_dispatch instance w arg.

(** The statistics the world holds for a timer or interrupt id of the
    object at [p]. *)
Definition total_of (w : World) (p id : Z) : option Z :=
  match objects w !! p with
  | Some obj =>
      match timers_ obj !! id with
      | Some info => Some (total_count (TimerInfo.stats info))
      | None =>
          match interrupts_ obj !! id with
          | Some info => Some (total_count (InterruptInfo.stats info))
          | None => None
          end
      end
  | None => None
  end.

(** *** Stopping, resetting and destroying an [InterruptHal] *)

Section Housekeeping.
Variable drv : Driver.

(** One driver call per entry of a table, in iteration order, the return
    codes dropped. *)
Fixpoint call_each {A} (c : A -> Call) (l : list (Z * A)) (st : t) : t :=
  match l with
  | [] => st
  | (_, x) :: l' => let '(_, _, st) := call drv st (c x) in call_each c l' st
  end.

(** [InterruptHal::stop]. *)
Definition stop (st : t) : esp_err_t * t :=
  let st :=
    call_each (fun info => esp_timer_stop (TimerInfo.handle info))
              (AdcHal.in_key_order (timers_ st)) st in
  (ESP_OK, set_state_ st (setState (state_ st) SUSPENDED)).

(** [pair.second.stats = {}]. *)
Definition clear_timer_stats (info : TimerInfo.t) : TimerInfo.t :=
  {| TimerInfo.handle := TimerInfo.handle info;
     TimerInfo.config := TimerInfo.config info;
     TimerInfo.callback := TimerInfo.callback info;
     TimerInfo.stats := no_statistics |}.

Definition clear_interrupt_stats (info : InterruptInfo.t) : InterruptInfo.t :=
  {| InterruptInfo.handle := InterruptInfo.handle info;
     InterruptInfo.config := InterruptInfo.config info;
     InterruptInfo.handler := InterruptInfo.handler info;
     InterruptInfo.stats := no_statistics |}.

(** [InterruptHal::reset]. *)
Definition reset (st : t) : esp_err_t * t :=
  let st := set_timers_ st (clear_timer_stats <$> timers_ st) in
  let st := set_interrupts_ st (clear_interrupt_stats <$> interrupts_ st) in
  (ESP_OK, set_state_ st (setState (state_ st) INITIALIZED)).

(** [InterruptHal::stopTimer]. *)
Definition stopTimer (st : t) (timer_id : Z) : esp_err_t * t :=
  match timers_ st !! timer_id with
  | None => (ESP_ERR_NOT_FOUND, st)
  | Some info =>
      let '(r, _, st) := call drv st (esp_timer_stop (TimerInfo.handle info)) in
      if decide (r <> ESP_OK) then (r, st) else (ESP_OK, st)
  end.

(** [InterruptHal::resetStatistics]. *)
Definition resetStatistics (st : t) (interrupt_id : Z) : esp_err_t * t :=
  match timers_ st !! interrupt_id with
  | Some info =>
      (ESP_OK, set_timers_ st (<[interrupt_id := clear_timer_stats info]> (timers_ st)))
  | None =>
      match interrupts_ st !! interrupt_id with
      | Some info =>
          (ESP_OK,
           set_interrupts_ st
             (<[interrupt_id := clear_interrupt_stats info]> (interrupts_ st)))
      | None => (ESP_ERR_NOT_FOUND, st)
      end
  end.

(** [InterruptHal::~InterruptHal]: the object as the destructor leaves
    it. *)
Definition destroy (st : t) : t :=
  let st :=
    call_each (fun info => esp_timer_delete (TimerInfo.handle info))
              (AdcHal.in_key_order (timers_ st)) st in
  let st := set_timers_ st ∅ in
  let st :=
    call_each (fun info => esp_intr_free (InterruptInfo.handle info))
              (AdcHal.in_key_order (interrupts_ st)) st in
  set_interrupts_ st ∅.

End Housekeeping.

(** The calls a member function added to the driver log. *)
Definition new_calls (before after : t) : list Call :=
  drop (length (hw_log before)) (hw_log after).

Definition is_timer_stop (c : Call) : bool :=
  match c with esp_timer_stop _ => true | _ => false end.

End InterruptHal.

(** ** [GpioHal] ([gpio_hal.hpp], [gpio_hal.cpp]): the interrupt binding *)

Module GpioHal.
Import CInt Esp HalBase.

Inductive Direction := INPUT | OUTPUT | INPUT_OUTPUT.
Inductive Pull := NONE | PULLUP | PULLDOWN | PULLUP_PULLDOWN.
Inductive InterruptType :=
| DISABLE | POSEDGE | NEGEDGE | ANYEDGE | LOW_LEVEL | HIGH_LEVEL.

Record Config := {
  pin : Z;
  direction : Direction;
  pull : Pull;
  interrupt : InterruptType;
  invert : bool
}.

Definition set_interrupt (c : Config) (ty : InterruptType) : Config :=
  {| pin := pin c; direction := direction c; pull := pull c;
     interrupt := ty; invert := invert c |}.

(** A [std::function<void(gpio_num_t, bool)>], known by a name. *)
Definition InterruptCallback := nat.

Inductive Call :=
| gpio_install_isr_service
| gpio_set_intr_type (pin : Z) (ty : InterruptType)
| gpio_isr_handler_add (pin : Z) (arg : Z)
| gpio_isr_handler_remove (pin : Z)
| gpio_get_level (pin : Z).

(** The driver below the HAL: return codes, pin levels, and the macro
    [gpio_is_valid_gpio] of the target. *)
Record Driver := {
  ret : list Call -> Call -> esp_err_t;
  level : list Call -> Z -> Z;
  gpio_is_valid_gpio : Z -> bool
}.

(** The static members of [class GpioHal], and the driver log. *)
Record Statics := {
  pin_map_ : gmap Z Z;             (* pin to the address of its GpioHal *)
  isr_service_installed_ : bool;
  hw_log : list Call
}.

(** The fields of one [GpioHal] object (with [state_] of [HalBase]). *)
Record t := mk {
  state_ : State;
  pin_configs_ : gmap Z Config;
  callbacks_ : gmap Z InterruptCallback
}.

Definition statics_init : Statics :=
  {| pin_map_ := ∅; isr_service_installed_ := false; hw_log := [] |}.

(** [GpioHal::GpioHal()]. *)
Definition create : t := mk UNINITIALIZED ∅ ∅.

Section WithDriver.
Variable drv : Driver.

Definition call (g : Statics) (c : Call) : esp_err_t * Statics :=
  (ret drv (hw_log g) c,
   {| pin_map_ := pin_map_ g; isr_service_installed_ := isr_service_installed_ g;
      hw_log := hw_log g ++ [c] |}).

Definition isValidPin (p : Z) : bool := gpio_is_valid_gpio drv p.

Definition installIsrService (g : Statics) : esp_err_t * Statics :=
  if isr_service_installed_ g then (ESP_OK, g)
  else
    let '(r, g) := call g gpio_install_isr_service in
    if decide (r <> ESP_OK) then (r, g)
    else (ESP_OK, {| pin_map_ := pin_map_ g; isr_service_installed_ := true;
                     hw_log := hw_log g |}).

Definition setInterrupt (g : Statics) (this : Z) (self : t) (p : Z)
    (ty : InterruptType) (callback : InterruptCallback) : esp_err_t * Statics * t :=
  if negb (isValidPin p) then (ESP_ERR_INVALID_ARG, g, self)
  else
    let '(r, g) :=
      if negb (isr_service_installed_ g) then installIsrService g else (ESP_OK, g) in
    if decide (r <> ESP_OK) then (r, g, self)
    else
      let '(r, g) := call g (gpio_set_intr_type p ty) in
      if decide (r <> ESP_OK) then (r, g, self)
      else
        let self := mk (state_ self) (pin_configs_ self) (<[p := callback]> (callbacks_ self)) in
        let g := {| pin_map_ := <[p := this]> (pin_map_ g);
                    isr_service_installed_ := isr_service_installed_ g;
                    hw_log := hw_log g |} in
        let '(r, g) := call g (gpio_isr_handler_add p p) in
        if decide (r <> ESP_OK) then
          (r, g, mk (state_ self) (pin_configs_ self) (delete p (callbacks_ self)))
        else
          let self :=
            match pin_configs_ self !! p with
            | Some c => mk (state_ self) (<[p := set_interrupt c ty]> (pin_configs_ self))
                           (callbacks_ self)
            | None => self
            end in
          (ESP_OK, g, self).

Definition disableInterrupt (g : Statics) (self : t) (p : Z) : esp_err_t * Statics * t :=
  let '(_, g) := call g (gpio_isr_handler_remove p) in
  let '(_, g) := call g (gpio_set_intr_type p DISABLE) in
  let self := mk (state_ self) (pin_configs_ self) (delete p (callbacks_ self)) in
  let self :=
    match pin_configs_ self !! p with
    | Some c => mk (state_ self) (<[p := set_interrupt c DISABLE]> (pin_configs_ self))
                   (callbacks_ self)
    | None => self
    end in
  (ESP_OK, g, self).

(** [gpioIsrHandler]: the callable it runs, with its arguments, if any. *)
Definition gpioIsrHandler (g : Statics) (objects : gmap Z t) (arg : Z)
  : option (InterruptCallback * Z * bool) :=
  let p := arg in
  match pin_map_ g !! p with
  | None => None
  | Some this =>
      match objects !! this with
      | None => None
      | Some obj =>
          match callbacks_ obj !! p with
          | None => None
          | Some callback =>
              let lvl := negb (level drv (hw_log g) p =? 0) in
              let lvl :=
                match pin_configs_ obj !! p with
                | Some c => if invert c then negb lvl else lvl
                | None => lvl
                end in
              Some (callback, p, lvl)
          end
      end
  end.

End WithDriver.

(** *** Reading a pin, and the lifecycle of a [GpioHal] *)

Section Teardown.
Variable drv : Driver.

(** [GpioHal::digitalRead]; [lvl] is the caller's variable. *)
Definition digitalRead (g : Statics) (self : t) (p : Z) (lvl : bool)
  : esp_err_t * bool * Statics :=
  match pin_configs_ self !! p with
  | None => (ESP_ERR_INVALID_ARG, lvl, g)
  | Some c =>
      let gpio_level := level drv (hw_log g) p in
      let '(_, g) := call drv g (gpio_get_level p) in
      (ESP_OK, if invert c then gpio_level =? 0 else negb (gpio_level =? 0), g)
  end.

(** [GpioHal::initialize]. *)
Definition initialize (g : Statics) (self : t) : esp_err_t * Statics * t :=
  let self := mk (setState (state_ self) INITIALIZING) (pin_configs_ self)
                 (callbacks_ self) in
  let '(r, g) := installIsrService drv g in
  if decide (r <> ESP_OK) then
    (r, g, mk (setState (state_ self) ERROR) (pin_configs_ self) (callbacks_ self))
  else
    (ESP_OK, g,
     mk (setState (state_ self) INITIALIZED) (pin_configs_ self) (callbacks_ self)).

(** [GpioHal::start]. *)
Definition start (self : t) : esp_err_t * t :=
  if negb (isInitialized (state_ self)) then (ESP_ERR_INVALID_STATE, self)
  else (ESP_OK, mk (setState (state_ self) RUNNING) (pin_configs_ self) (callbacks_ self)).

(** [for (const auto& pair : pin_configs_) disableInterrupt(pair.first);]
    over the pins configured when the loop starts ([disableInterrupt] adds
    and removes none). *)
Fixpoint disable_all (l : list (Z * Config)) (g : Statics) (self : t) : Statics * t :=
  match l with
  | [] => (g, self)
  | (p, _) :: l' =>
      let '(_, g, self) := disableInterrupt drv g self p in
      disable_all l' g self
  end.

(** [GpioHal::stop]. *)
Definition stop (g : Statics) (self : t) : esp_err_t * Statics * t :=
  let self := mk (setState (state_ self) SUSPENDED) (pin_configs_ self)
                 (callbacks_ self) in
  let '(g, self) := disable_all (AdcHal.in_key_order (pin_configs_ self)) g self in
  (ESP_OK, g, self).

(** [GpioHal::~GpioHal] of the object at [this]: the static members as the
    destructor leaves them. *)
Definition destroy (g : Statics) (this : Z) (self : t) : Statics :=
  let '(g, _) := disable_all (AdcHal.in_key_order (pin_configs_ self)) g self in
  {| pin_map_ := filter (fun kv : Z * Z => kv.2 <> this) (pin_map_ g);
     isr_service_installed_ := isr_service_installed_ g;
     hw_log := hw_log g |}.

End Teardown.

(** The calls [disableInterrupt] makes for a pin. *)
Definition disable_calls (p : Z) : list Call :=
  [gpio_isr_handler_remove p; gpio_set_intr_type p DISABLE].

End GpioHal.

(** ** Scenarios: concrete drivers and objects *)

Module Scenario.
Import Esp HalBase.

(** An ADC whose every call succeeds and whose converter reads 2048. *)
Definition adc_driver : AdcHal.Driver :=
  {| AdcHal.ret := fun _ _ => ESP_OK;
     AdcHal.out := fun _ c =>
       match c with
       | AdcHal.adc_oneshot_new_unit _ => 1
       | AdcHal.adc_oneshot_read _ _ => 2048
       | _ => 0
       end;
     AdcHal.portTICK_PERIOD_MS := 1 |}.

(** An ADC driver that accepts channels 0 .. 9 only, as ESP-IDF's
    [adc_oneshot_config_channel] does on the target. *)
Definition adc_checking_driver : AdcHal.Driver :=
  {| AdcHal.ret := fun _ c =>
       match c with
       | AdcHal.adc_oneshot_config_channel _ ch _ _ =>
           if (0 <=? ch) && (ch <=? 9) then ESP_OK else ESP_ERR_INVALID_ARG
       | _ => ESP_OK
       end;
     AdcHal.out := AdcHal.out adc_driver;
     AdcHal.portTICK_PERIOD_MS := 1 |}.

(** An ADC on a chip without calibration data: the calibration scheme
    cannot be created, every other call succeeds, the converter reads 2048. *)
Definition adc_uncalibrated_driver : AdcHal.Driver :=
  {| AdcHal.ret := fun _ c =>
       match c with
       | AdcHal.adc_cali_create_scheme_curve_fitting _ _ _ _ => 0x106
       | _ => ESP_OK
       end;
     AdcHal.out := AdcHal.out adc_driver;
     AdcHal.portTICK_PERIOD_MS := 1 |}.

Definition channel_4_calibrated : AdcHal.ChannelConfig :=
  {| AdcHal.channel := 4; AdcHal.attenuation := AdcHal.DB_6;
     AdcHal.calibration_enable := true |}.


(** An ADC whose converter reads 2000 and 2030 in turn, from the first
    sample taken on. *)
Definition adc_ripple_driver : AdcHal.Driver :=
  {| AdcHal.ret := fun _ _ => ESP_OK;
     AdcHal.out := fun hist c =>
       match c with
       | AdcHal.adc_oneshot_new_unit _ => 1
       | AdcHal.adc_oneshot_read _ _ =>
           2000 + 30 * (Z.of_nat (AdcHal.count_calls AdcHal.is_sample hist) mod 2)
       | _ => 0
       end;
     AdcHal.portTICK_PERIOD_MS := 1 |}.


(** An ADC whose unit cannot be created. *)
Definition adc_broken_driver : AdcHal.Driver :=
  {| AdcHal.ret := fun _ _ => ESP_FAIL;
     AdcHal.out := fun _ _ => 0;
     AdcHal.portTICK_PERIOD_MS := 1 |}.

Definition no_result : AdcHal.ReadResult :=
  {| AdcHal.raw_value := 0; AdcHal.voltage_mv := 0; AdcHal.calibrated := false |}.

Definition channel_3 : AdcHal.ChannelConfig :=
  {| AdcHal.channel := 3; AdcHal.attenuation := AdcHal.DB_11;
     AdcHal.calibration_enable := false |}.

(** Unit 1, default reference 1100 mV, initialised and started, channel 3
    configured without calibration. *)
Definition adc_running : AdcHal.t :=
  let st := AdcHal.create AdcHal.UNIT_1 in
  let st := snd (AdcHal.initialize adc_driver st) in
  let st := snd (AdcHal.start st) in
  snd (AdcHal.configureChannel adc_driver st channel_3).

Definition channel_6 : AdcHal.ChannelConfig :=
  {| AdcHal.channel := 6; AdcHal.attenuation := AdcHal.DB_6;
     AdcHal.calibration_enable := false |}.

(** [adc_running] with channel 6 configured as well, after channel 3. *)
Definition adc_two_channels : AdcHal.t :=
  snd (AdcHal.configureChannel adc_driver adc_running channel_6).

(** The [float] 0.5. *)
Definition one_half : Float32.float := S754_finite false 8388608 (-24).

(** [adc_running] after a first [readFiltered] of channel 3. *)
Definition adc_seeded : AdcHal.t :=
  match AdcHal.readFiltered adc_driver adc_running 3 one_half no_result with
  | Some (_, _, st) => st
  | None => adc_running
  end.

(** Unit 1 after a failed [initialize]. *)
Definition adc_failed : AdcHal.t :=
  snd (AdcHal.initialize adc_broken_driver (AdcHal.create AdcHal.UNIT_1)).

(** A mock I2C bus on which only the devices at 0x23 and 0x68 acknowledge
    their address; a device that is addressed answers reads with 0xAB. *)
Definition i2c_driver : I2cHal.Driver :=
  {| I2cHal.alloc := fun _ => true;
     I2cHal.ret := fun _ c =>
       match c with
       | I2cHal.i2c_master_cmd_begin _
           (I2cHal.i2c_master_start :: I2cHal.i2c_master_write_byte b _ :: _) _ =>
           if (b / 2 =? 0x23) || (b / 2 =? 0x68) then ESP_OK else ESP_FAIL
       | _ => ESP_OK
       end;
     I2cHal.received := fun _ c =>
       match c with
       | I2cHal.i2c_master_cmd_begin _ link _ =>
           replicate (length (I2cHal.wire link)) 0xAB
       | _ => []
       end;
     I2cHal.configTICK_RATE_HZ := 1000 |}.

Definition i2c_config : I2cHal.Config :=
  {| I2cHal.port := 0; I2cHal.mode := I2cHal.MASTER;
     I2cHal.sda_pin := 13; I2cHal.scl_pin := 15; I2cHal.frequency := 400000;
     I2cHal.sda_pullup_enable := true; I2cHal.scl_pullup_enable := true;
     I2cHal.slave_address := 0 |}.

(** The same configuration on port 1. *)
Definition i2c_config_port_1 : I2cHal.Config :=
  {| I2cHal.port := 1; I2cHal.mode := I2cHal.MASTER;
     I2cHal.sda_pin := 13; I2cHal.scl_pin := 15; I2cHal.frequency := 400000;
     I2cHal.sda_pullup_enable := true; I2cHal.scl_pullup_enable := true;
     I2cHal.slave_address := 0 |}.

(** Port 0 with its pins set, initialised and started. *)
Definition i2c_running : I2cHal.t :=
  let st := I2cHal.create I2cHal.I2C_NUM_0 in
  let st := snd (I2cHal.setConfig st i2c_config) in
  let st := snd (I2cHal.initialize st) in
  snd (I2cHal.start i2c_driver st).

(** Port 0 after [initialize] without pins. *)
Definition i2c_failed : I2cHal.t :=
  snd (I2cHal.initialize (I2cHal.create I2cHal.I2C_NUM_0)).

(** An interrupt allocator whose calls all succeed; handles are 0x40 + id. *)
Definition intr_driver : InterruptHal.Driver :=
  {| InterruptHal.ret := fun _ _ => ESP_OK;
     InterruptHal.out := fun _ c =>
       match c with
       | InterruptHal.esp_timer_create arg => 0x40 + arg
       | InterruptHal.esp_intr_alloc _ _ arg => 0x40 + arg
       | _ => 0
       end |}.

Definition timer_1ms : InterruptHal.TimerConfig :=
  {| InterruptHal.period_us := 1000; InterruptHal.auto_reload := true;
     InterruptHal.timer_priority := InterruptHal.LEVEL_1;
     InterruptHal.run_in_isr := false |}.

Definition source_5 : InterruptHal.SourceConfig :=
  {| InterruptHal.source := 5; InterruptHal.priority := InterruptHal.LEVEL_1;
     InterruptHal.flags := 0 |}.

(** A started [InterruptHal] with timer 1 (callback 7) and interrupt 2
    (handler 9) registered. *)
Definition interrupts_running : InterruptHal.t :=
  let st := InterruptHal.create in
  let st := snd (InterruptHal.initialize st) in
  let st := snd (InterruptHal.start st) in
  let st := snd (InterruptHal.createHighResTimer intr_driver st 1 timer_1ms (Some 7%nat)) in
  snd (InterruptHal.registerInterrupt intr_driver st 2 source_5 (Some 9%nat)).

(** The address of that object, and the world that holds it. *)
Definition interrupts_address : Z := 0x3FC90000.

Definition interrupts_world : InterruptHal.World :=
  {| InterruptHal.objects := {[ interrupts_address := interrupts_running ]};
     InterruptHal.invoked := [] |}.

(** A GPIO driver whose calls all succeed, on a target with pins 0 .. 48. *)
Definition gpio_driver : GpioHal.Driver :=
  {| GpioHal.ret := fun _ _ => ESP_OK;
     GpioHal.level := fun _ _ => 1;
     GpioHal.gpio_is_valid_gpio := fun p => (0 <=? p) && (p <=? 48) |}.

Definition gpio_address : Z := 0x3FC90100.

(** Pin 5 bound to callback 1 by a first [setInterrupt]. *)
Definition gpio_bound_once : Esp.esp_err_t * GpioHal.Statics * GpioHal.t :=
  GpioHal.setInterrupt gpio_driver GpioHal.statics_init gpio_address GpioHal.create
    5 GpioHal.POSEDGE 1%nat.

(** Pin 5 bound again, to callback 2, with no [disableInterrupt] between. *)
Definition gpio_bound_twice : Esp.esp_err_t * GpioHal.Statics * GpioHal.t :=
  GpioHal.setInterrupt gpio_driver gpio_bound_once.1.2 gpio_address gpio_bound_once.2
    5 GpioHal.NEGEDGE 2%nat.

(** Pin 5 registered as an inverted input of the object at [gpio_address]
    and bound to callback 1. *)
Definition gpio_pin_5 : GpioHal.Config :=
  {| GpioHal.pin := 5; GpioHal.direction := GpioHal.INPUT; GpioHal.pull := GpioHal.PULLUP;
     GpioHal.interrupt := GpioHal.NEGEDGE; GpioHal.invert := true |}.

Definition gpio_inverted : GpioHal.t :=
  GpioHal.mk RUNNING {[ 5 := gpio_pin_5 ]} {[ 5 := 1%nat ]}.

Definition gpio_statics : GpioHal.Statics :=
  {| GpioHal.pin_map_ := {[ 5 := gpio_address ]};
     GpioHal.isr_service_installed_ := true;
     GpioHal.hw_log := [] |}.

(** A GPIO driver that cannot add an ISR handler. *)
Definition gpio_no_handler_driver : GpioHal.Driver :=
  {| GpioHal.ret := fun _ c =>
       match c with
       | GpioHal.gpio_isr_handler_add _ _ => ESP_ERR_NO_MEM
       | _ => ESP_OK
       end;
     GpioHal.level := fun _ _ => 1;
     GpioHal.gpio_is_valid_gpio := fun p => (0 <=? p) && (p <=? 48) |}.

End Scenario.

(** * Theorems *)

(** ** Machine arithmetic *)

Section CIntFacts.
Import CInt.

Lemma to_uint32_small (z : Z) : 0 <= z < 2 ^ 32 -> to_uint32 z = z.
Proof. intros H. unfold to_uint32. apply Z.mod_small. exact H. Qed.

Lemma to_int32_small (z : Z) : - 2 ^ 31 <= z < 2 ^ 31 -> to_int32 z = z.
Proof. intros H. unfold to_int32. rewrite Z.mod_small; lia. Qed.

Lemma to_uint8_small (z : Z) : 0 <= z < 256 -> to_uint8 z = z.
Proof. intros H. unfold to_uint8. apply Z.mod_small. change (2 ^ 8) with 256. exact H. Qed.

End CIntFacts.

(** ** The lifecycle guards *)

Section LifecycleFacts.
Import HalBase.

Lemma setState_eq (s s' : State) : setState s s' = s'.
Proof. unfold setState. destruct (decide (s <> s')) as [|H]; [reflexivity|].
  destruct (decide (s = s')); [assumption | contradiction]. Qed.

Lemma isRunning_true (s : State) : isRunning s = true <-> s = RUNNING.
Proof. unfold isRunning. apply bool_decide_eq_true. Qed.

Lemma isRunning_isInitialized (s : State) : isRunning s = true -> isInitialized s = true.
Proof. destruct s; cbv; congruence. Qed.

Lemma guards_closed_in_error : isInitialized ERROR = false /\ isRunning ERROR = false.
Proof. split; reflexivity. Qed.

End LifecycleFacts.

(** ** ADC: conversion, averaging, filtering *)

Section AdcFacts.
Import CInt Esp HalBase AdcHal.

Lemma linear_estimate_exact (raw vref : Z) :
  0 <= raw -> 0 <= vref -> raw * vref < 2 ^ 32 ->
  linear_estimate raw vref = raw * vref / 4095.
Proof.
  intros Hraw Hvref Hprod. unfold linear_estimate.
  destruct (Z.eq_dec vref 0) as [->|Hne].
  - rewrite !Z.mul_0_r. reflexivity.
  - assert (raw < 2 ^ 32) by nia.
    rewrite (to_uint32_small raw) by lia.
    rewrite to_uint32_small by nia.
    apply to_int32_small.
    assert (0 <= raw * vref / 4095) by (apply Z.div_pos; nia).
    assert (raw * vref / 4095 < 2 ^ 31); [|lia].
    apply Z.div_lt_upper_bound; lia.
Qed.

Lemma find_handle_None_cases (m : gmap Z Z) (ch : Z) :
  find_handle m ch = None <-> m !! ch = None \/ m !! ch = Some 0.
Proof.
  unfold find_handle. destruct (m !! ch) as [h|]; [|tauto].
  destruct (decide (h <> 0)) as [Hh|Hh].
  - split; [discriminate|]. intros [?|[= ->]]; [discriminate | contradiction].
  - apply dec_stable in Hh. subst h. tauto.
Qed.

(** C1.  With no calibration context for the channel (no map entry, or a
    null handle), every successful [read] reports [calibrated = false] and a
    voltage equal to the source's [raw_value * default_vref / 4095], which is
    the exact integer quotient whenever the product fits the [unsigned int]
    it is computed on; and [read] does succeed, with the sampled code as
    [raw_value], when the driver is running and the sample is taken. *)
Theorem read_without_calibration_is_linear
    (drv : Driver) (st : t) (ch : Z) (result : ReadResult) :
  find_handle (calibration_handles_ st) ch = None ->
  let vref := default_vref (config_ st) in
  (forall res st', read drv st ch result = (ESP_OK, res, st') ->
     calibrated res = false /\
     voltage_mv res = linear_estimate (raw_value res) vref /\
     (0 <= raw_value res -> 0 <= vref -> raw_value res * vref < 2 ^ 32 ->
      voltage_mv res = raw_value res * vref / 4095)) /\
  (isRunning (state_ st) = true ->
   ret drv (hw_log st) (adc_oneshot_read (adc_handle_ st) ch) = ESP_OK ->
   exists res st', read drv st ch result = (ESP_OK, res, st') /\
     raw_value res = out drv (hw_log st) (adc_oneshot_read (adc_handle_ st) ch)).
Proof.
  intros Hnone vref. unfold read, call. split.
  - intros res st'.
    destruct (isRunning (state_ st)); simpl; [|discriminate].
    destruct (decide (ret drv (hw_log st) (adc_oneshot_read (adc_handle_ st) ch) <> ESP_OK))
      as [Hr|Hr]; [congruence|].
    rewrite Hnone. intros [= <- <-]. simpl. fold vref.
    split; [reflexivity|]. split; [reflexivity|].
    apply linear_estimate_exact.
  - intros Hrun Hret. rewrite Hrun, Hret. simpl. rewrite Hnone.
    eexists _, _. split; reflexivity.
Qed.

(** The scenario of the specification: unit 1, reference 1100 mV, channel 3
    without calibration, raw code 2048: 550 mV. *)
Lemma read_without_calibration_is_linear_witness :
  exists res st',
    read Scenario.adc_driver Scenario.adc_running 3 Scenario.no_result = (ESP_OK, res, st') /\
    raw_value res = 2048 /\ voltage_mv res = 550 /\ calibrated res = false.
Proof.
  destruct (read_without_calibration_is_linear
              Scenario.adc_driver Scenario.adc_running 3 Scenario.no_result)
    as [Hok Hex]; [vm_compute; reflexivity|].
  destruct Hex as (res & st' & Hread & Hraw); [vm_compute; reflexivity ..|].
  exists res, st'. destruct (Hok res st' Hread) as (Hcal & _ & Hexact).
  split; [exact Hread|]. split; [exact Hraw|]. split; [|exact Hcal].
  rewrite Hexact; rewrite ?Hraw; vm_compute; congruence.
Defined.

(** What [configureChannel] does with a channel id outside the unit's
    range when the driver's own channel configuration rejects such ids with
    [ESP_ERR_INVALID_ARG], as ESP-IDF does: it fails (with [InvalidArgument]
    once the object is initialised, with [InvalidState] before) and stores
    nothing.  The rejection is the driver's, not the function's. *)
Lemma configureChannel_rejects_invalid_channel
    (drv : Driver) (st : t) (cc : ChannelConfig) :
  rejects_invalid_channels drv st ->
  isValidChannel st (channel cc) = false ->
  exists st',
    configureChannel drv st cc =
      (if isInitialized (state_ st) then ESP_ERR_INVALID_ARG else ESP_ERR_INVALID_STATE, st') /\
    channels_ st' = channels_ st /\
    calibration_handles_ st' = calibration_handles_ st /\
    state_ st' = state_ st.
Proof.
  intros Hdrv Hbad. unfold configureChannel, call.
  destruct (isInitialized (state_ st)); simpl.
  - rewrite (Hdrv _ _ _ _ Hbad).
    destruct (decide (ESP_ERR_INVALID_ARG <> ESP_OK)) as [_|Hne].
    + eexists. split; [reflexivity|]. simpl. auto.
    + exfalso. apply Hne. discriminate.
  - exists st. auto.
Qed.

Lemma configureChannel_rejects_invalid_channel_witness :
  exists st',
    configureChannel Scenario.adc_checking_driver Scenario.adc_running
      {| channel := 10; attenuation := DB_11; calibration_enable := true |}
    = (ESP_ERR_INVALID_ARG, st') /\
    channels_ st' = channels_ Scenario.adc_running.
Proof.
  destruct (configureChannel_rejects_invalid_channel
              Scenario.adc_checking_driver Scenario.adc_running
              {| channel := 10; attenuation := DB_11; calibration_enable := true |})
    as (st' & Hcfg & Hch & _).
  - intros hist ch att bw Hbad.
    assert (Hv : isValidChannel Scenario.adc_running ch = (0 <=? ch) && (ch <=? 9))
      by reflexivity.
    rewrite Hv in Hbad. simpl. rewrite Hbad. reflexivity.
  - reflexivity.
  - exists st'. split; [exact Hcfg | exact Hch].
Defined.


Lemma readAverage_loop_result (drv : Driver) (n : nat) (st : t) (ch : Z) (acc : list Z) :
  exists r raws st', readAverage_loop drv n st ch acc = (r, raws, st').
Proof. destruct (readAverage_loop drv n st ch acc) as [[r raws] st']. eauto. Qed.

(** C10.  [readAverage] with [samples = 0] returns [InvalidArgument] on a
    running driver ([InvalidState] otherwise) with the object, and so the
    log of driver calls, unchanged: no sample is taken.  For no sample count
    at all does the function reach a division by zero. *)
Theorem readAverage_zero_samples_rejected
    (drv : Driver) (st : t) (ch : Z) (result : ReadResult) :
  readAverage drv st ch 0 result =
    Some (if isRunning (state_ st) then ESP_ERR_INVALID_ARG else ESP_ERR_INVALID_STATE,
          result, st) /\
  forall samples, readAverage drv st ch samples result <> None.
Proof.
  split.
  - unfold readAverage. destruct (isRunning (state_ st)); reflexivity.
  - intros samples. unfold readAverage, udiv32.
    destruct (isRunning (state_ st)); simpl; [|discriminate].
    destruct (samples =? 0) eqn:E; [discriminate|].
    destruct (readAverage_loop_result drv (Z.to_nat samples) st ch []) as (r & raws & st' & ->).
    destruct (decide (r <> ESP_OK)); [discriminate|].
    destruct (find_handle (calibration_handles_ st') ch); [|discriminate].
    unfold call. destruct (decide (_ = ESP_OK)); discriminate.
Qed.

End AdcFacts.

(** ** ADC: the exponential moving average of [readFiltered] *)

Section FilterFacts.
Import CInt Esp HalBase AdcHal.

Lemma SFcompare_swap (a b : spec_float) :
  SFcompare b a = option_map CompOpp (SFcompare a b).
Proof.
  destruct a as [sa|sa| |sa ma ea], b as [sb|sb| |sb mb eb]; simpl;
    try reflexivity; try (destruct sa; reflexivity); try (destruct sb; reflexivity);
    try (destruct sa, sb; reflexivity).
  destruct sa, sb; simpl; try reflexivity;
    rewrite (Z.compare_antisym ea eb); destruct (ea ?= eb)%Z; simpl; try reflexivity;
    rewrite !Pos.compare_cont_spec; simpl; rewrite (Pos.compare_antisym ma mb);
    destruct (ma ?= mb)%positive; reflexivity.
Qed.

Lemma SFcompare_not_nan (a b : spec_float) :
  a <> S754_nan -> b <> S754_nan -> exists c, SFcompare a b = Some c.
Proof.
  intros Ha Hb.
  destruct a as [sa|sa| |sa ma ea], b as [sb|sb| |sb mb eb]; simpl; try congruence; eauto.
Qed.

(** The test of [readFiltered] rejects nothing inside the interval. *)
Lemma out_of_range_sound (alpha : Float32.float) :
  Float32.out_of_range alpha = true -> Float32.in_unit_interval alpha = false.
Proof.
  unfold Float32.out_of_range, Float32.in_unit_interval, Float32.ltb, Float32.leb,
    SFltb, SFleb.
  intros H. apply orb_true_iff in H. apply andb_false_iff. destruct H as [H|H].
  - left. rewrite (SFcompare_swap alpha Float32.zero).
    destruct (SFcompare alpha Float32.zero) as [[]|]; simpl in *; congruence.
  - right. rewrite (SFcompare_swap Float32.one alpha).
    destruct (SFcompare Float32.one alpha) as [[]|]; simpl in *; congruence.
Qed.

(** It rejects every number outside the interval: NaN, which is no number,
    is the one value outside the interval that it lets through. *)
Lemma out_of_range_complete (alpha : Float32.float) :
  alpha <> Float32.nan ->
  Float32.in_unit_interval alpha = false -> Float32.out_of_range alpha = true.
Proof.
  unfold Float32.out_of_range, Float32.in_unit_interval, Float32.ltb, Float32.leb,
    SFltb, SFleb.
  intros Hnan H. apply andb_false_iff in H. apply orb_true_iff. destruct H as [H|H].
  - left. rewrite (SFcompare_swap Float32.zero alpha).
    destruct (SFcompare_not_nan Float32.zero alpha) as [c Hc]; [discriminate|exact Hnan|].
    rewrite Hc in *. destruct c; simpl in *; congruence.
  - right. rewrite (SFcompare_swap alpha Float32.one).
    destruct (SFcompare_not_nan alpha Float32.one) as [c Hc]; [exact Hnan|discriminate|].
    rewrite Hc in *. destruct c; simpl in *; congruence.
Qed.

Lemma nan_passes_the_range_test :
  Float32.out_of_range Float32.nan = false /\ Float32.in_unit_interval Float32.nan = false.
Proof. split; reflexivity. Qed.

Lemma read_frame (drv : Driver) (st : t) (ch : Z) (result res : ReadResult)
    (r : esp_err_t) (st' : t) :
  read drv st ch result = (r, res, st') ->
  state_ st' = state_ st /\ config_ st' = config_ st /\
  channels_ st' = channels_ st /\
  calibration_handles_ st' = calibration_handles_ st /\
  filter_values_ st' = filter_values_ st.
Proof.
  unfold read, call. destruct (isRunning (state_ st)); simpl.
  - destruct (decide (_ <> ESP_OK)).
    + intros [= _ _ <-]. simpl. auto.
    + destruct (find_handle (calibration_handles_ st) ch).
      * destruct (decide (_ = ESP_OK)); intros [= _ _ <-]; simpl; auto.
      * intros [= _ _ <-]. simpl. auto.
  - intros [= _ _ <-]. auto.
Qed.

(** [readFiltered] on a running driver: an [alpha] below 0 or above 1 is
    refused before any sample is taken. *)
Lemma readFiltered_rejects_out_of_range
    (drv : Driver) (st : t) (ch : Z) (alpha : Float32.float) (result : ReadResult) :
  isRunning (state_ st) = true ->
  Float32.out_of_range alpha = true ->
  readFiltered drv st ch alpha result = Some (ESP_ERR_INVALID_ARG, result, st).
Proof. intros Hrun Hout. unfold readFiltered. rewrite Hrun, Hout. reflexivity. Qed.

(** X2.  The first filtered read of a channel returns the result of [read]
    as it is and seeds the filter with the raw code. *)
Theorem readFiltered_first_call_seeds
    (drv : Driver) (st : t) (ch : Z) (alpha : Float32.float) (result res : ReadResult)
    (st1 : t) :
  isRunning (state_ st) = true ->
  Float32.out_of_range alpha = false ->
  read drv st ch result = (ESP_OK, res, st1) ->
  filter_values_ st !! ch = None ->
  readFiltered drv st ch alpha result =
    Some (ESP_OK, res,
          set_filter_values_ st1
            (<[ch := Float32.of_int (raw_value res)]> (filter_values_ st))).
Proof.
  intros Hrun Hin Hread Hnone. unfold readFiltered. rewrite Hrun, Hin, Hread. simpl.
  destruct (read_frame _ _ _ _ _ _ _ Hread) as (_ & _ & _ & _ & Hf).
  destruct (decide (ESP_OK <> ESP_OK)) as [Hne|_]; [contradiction|].
  rewrite Hf, Hnone. reflexivity.
Qed.

(** X3.  Every later filtered read computes
    [filtered = alpha * raw + (1 - alpha) * previous] on [float], stores it as
    the channel's filter state, returns its truncation as [raw_value], and
    converts that code with the calibration handle when there is one (keeping
    the voltage of [read] when that conversion fails) and by the linear
    estimate otherwise. *)
Theorem readFiltered_update
    (drv : Driver) (st : t) (ch : Z) (alpha previous : Float32.float)
    (result res : ReadResult) (st1 : t) (code : Z) :
  isRunning (state_ st) = true ->
  Float32.out_of_range alpha = false ->
  read drv st ch result = (ESP_OK, res, st1) ->
  filter_values_ st !! ch = Some previous ->
  let filtered :=
    Float32.add (Float32.mul alpha (Float32.of_int (raw_value res)))
                (Float32.mul (Float32.sub Float32.one alpha) previous) in
  Float32.to_int filtered = Some code ->
  exists res' st',
    readFiltered drv st ch alpha result = Some (ESP_OK, res', st') /\
    filter_values_ st' = <[ch := filtered]> (filter_values_ st) /\
    raw_value res' = code /\
    calibrated res' = calibrated res /\
    voltage_mv res' =
      match find_handle (calibration_handles_ st) ch with
      | None => linear_estimate code (default_vref (config_ st))
      | Some h =>
          if decide (ret drv (hw_log st1) (adc_cali_raw_to_voltage h code) = ESP_OK)
          then out drv (hw_log st1) (adc_cali_raw_to_voltage h code)
          else voltage_mv res
      end.
Proof.
  intros Hrun Hin Hread Hprev filtered Hcode.
  unfold readFiltered. rewrite Hrun, Hin, Hread. simpl.
  destruct (read_frame _ _ _ _ _ _ _ Hread) as (_ & Hc & _ & Hh & Hf).
  destruct (decide (ESP_OK <> ESP_OK)) as [Hne|_]; [contradiction|].
  rewrite Hf, Hprev. subst filtered. cbv zeta. rewrite Hcode. simpl. rewrite Hh.
  destruct (find_handle (calibration_handles_ st) ch) as [h|].
  - unfold call. simpl. eexists _, _. split; [reflexivity|]. simpl. auto.
  - eexists _, _. split; [reflexivity|]. simpl. rewrite Hc. auto.
Qed.

(** X1.  On a running driver every number outside [[0, 1]], the infinities
    included, is answered with [InvalidArgument], and no sample is taken. *)
Theorem readFiltered_rejects_numbers_outside_unit_interval
    (drv : Driver) (st : t) (ch : Z) (alpha : Float32.float) (result : ReadResult) :
  isRunning (state_ st) = true ->
  alpha <> Float32.nan ->
  Float32.in_unit_interval alpha = false ->
  readFiltered drv st ch alpha result = Some (ESP_ERR_INVALID_ARG, result, st).
Proof.
  intros Hrun Hnan Hout. unfold readFiltered.
  rewrite Hrun, (out_of_range_complete alpha Hnan Hout). reflexivity.
Qed.

Lemma readFiltered_rejects_numbers_outside_unit_interval_witness :
  readFiltered Scenario.adc_driver Scenario.adc_running 3 (Float32.of_int 2)
    Scenario.no_result
  = Some (ESP_ERR_INVALID_ARG, Scenario.no_result, Scenario.adc_running).
Proof.
  apply readFiltered_rejects_numbers_outside_unit_interval;
    [reflexivity | discriminate | reflexivity].
Defined.

Lemma readFiltered_first_call_seeds_witness :
  exists st',
    readFiltered Scenario.adc_driver Scenario.adc_running 3 Scenario.one_half
      Scenario.no_result
    = Some (ESP_OK, {| raw_value := 2048; voltage_mv := 550; calibrated := false |}, st') /\
    filter_values_ st' !! 3 = Some (Float32.of_int 2048).
Proof.
  destruct (read Scenario.adc_driver Scenario.adc_running 3 Scenario.no_result)
    as [[r res] st1] eqn:Hread.
  vm_compute in Hread. injection Hread as <- <- <-.
  eexists. split.
  - apply readFiltered_first_call_seeds; reflexivity.
  - reflexivity.
Defined.

Lemma readFiltered_update_witness :
  exists res' st',
    readFiltered Scenario.adc_driver Scenario.adc_seeded 3 Scenario.one_half
      Scenario.no_result = Some (ESP_OK, res', st') /\
    filter_values_ st' !! 3 = Some (Float32.of_int 2048) /\
    raw_value res' = 2048 /\ voltage_mv res' = 550.
Proof.
  destruct (read Scenario.adc_driver Scenario.adc_seeded 3 Scenario.no_result)
    as [[r res] st1] eqn:Hread.
  vm_compute in Hread. injection Hread as <- <- <-.
  edestruct (readFiltered_update Scenario.adc_driver Scenario.adc_seeded 3
               Scenario.one_half (Float32.of_int 2048) Scenario.no_result)
    as (res' & st' & Hf & Hstate & Hraw & _ & Hmv);
    [reflexivity | reflexivity | reflexivity | reflexivity | reflexivity |].
  exists res', st'. split; [exact Hf|]. split; [rewrite Hstate; reflexivity|].
  split; [exact Hraw | exact Hmv].
Defined.

(** C2 (the code does not meet it).  NaN lies outside [[0, 1]], yet
    [readFiltered] does not answer it with [InvalidArgument]: on the running
    driver of the scenario the call succeeds and seeds the filter of channel 3,
    and the next call with NaN computes a NaN filter value whose conversion to
    [int] is undefined. *)
Theorem readFiltered_accepts_nan_alpha :
  Float32.in_unit_interval Float32.nan = false /\
  match readFiltered Scenario.adc_driver Scenario.adc_running 3 Float32.nan
          Scenario.no_result with
  | Some (r, res, st') =>
      r = ESP_OK /\
      res = {| raw_value := 2048; voltage_mv := 550; calibrated := false |} /\
      filter_values_ st' !! 3 = Some (Float32.of_int 2048) /\
      readFiltered Scenario.adc_driver st' 3 Float32.nan Scenario.no_result = None
  | None => False
  end.
Proof. vm_compute. repeat split; reflexivity. Qed.

End FilterFacts.

(** ** I2C: command links and bus transactions *)

Section I2cFacts.
Import CInt Esp HalBase I2cHal.

Lemma address_byte_7bit (a rw : Z) :
  0 <= a < 128 -> 0 <= rw <= 1 -> address_byte a rw = 2 * a + rw.
Proof.
  intros Ha Hrw. unfold address_byte.
  assert (Hlor : Z.lor (Z.shiftl a 1) rw = 2 * a + rw).
  { destruct a as [|p|p]; [destruct Hrw; rewrite Z.shiftl_0_l; apply Z.lor_0_l | | lia].
    rewrite Z.shiftl_mul_pow2 by lia.
    replace (Z.pos p * 2 ^ 1) with (Z.pos p~0) by lia.
    assert (rw = 0 \/ rw = 1) as [->| ->] by lia.
    - rewrite Z.lor_0_r. lia.
    - change (Z.lor (Z.pos p~0) 1) with (Z.pos p~1). lia. }
  rewrite Hlor. apply to_uint8_small. lia.
Qed.

Lemma queue_op_log (drv : Driver) (b : esp_err_t * list Op * t) (op : Op) :
  hw_log (queue_op drv b op).2 = hw_log b.2 ++ [queue op] /\
  state_ (queue_op drv b op).2 = state_ b.2 /\
  config_ (queue_op drv b op).2 = config_ b.2.
Proof. destruct b as [[r link] st]. simpl. auto. Qed.

Lemma queue_op_ok (drv : Driver) (link : list Op) (st : t) (op : Op) :
  builds_links drv ->
  queue_op drv (ESP_OK, link, st) op =
    (ESP_OK, link ++ [op], set_hw_log st (hw_log st ++ [queue op])).
Proof.
  intros [_ Hq]. unfold queue_op, call. rewrite Hq.
  destruct (decide (ESP_OK = ESP_OK)); [reflexivity | contradiction].
Qed.

Lemma replay_app (drv : Driver) (hist a b : list Call) :
  replay drv hist (a ++ b) = replay drv hist a ++ replay drv (hist ++ a) b.
Proof.
  revert hist. induction a as [|c a IH]; intros hist; simpl.
  - rewrite app_nil_r. reflexivity.
  - rewrite IH, <- app_assoc. reflexivity.
Qed.

Lemma transactions_app (drv : Driver) (hist a b : list Call) :
  transactions drv hist (a ++ b) =
    transactions drv hist a ++ transactions drv (hist ++ a) b.
Proof. unfold transactions. rewrite replay_app, omap_app. reflexivity. Qed.

Lemma deviceExists_probe (drv : Driver) (st : t) (a ticks : Z) :
  isRunning (state_ st) = true ->
  builds_links drv ->
  deviceExists drv st a ticks =
    (bool_decide
       (ret drv (hw_log st ++ take 4 (probe_calls (port (config_ st)) a ticks))
            (i2c_master_cmd_begin (port (config_ st)) (probe_link a) ticks) = ESP_OK),
     set_hw_log st (hw_log st ++ probe_calls (port (config_ st)) a ticks)).
Proof.
  intros Hrun Hdrv. unfold deviceExists, link_create.
  rewrite Hrun, (proj1 Hdrv). cbv beta iota zeta delta [negb].
  rewrite !queue_op_ok by assumption. cbv beta iota zeta.
  destruct (decide (ESP_OK <> ESP_OK)) as [Hne|_]; [contradiction|].
  unfold execute, call, set_hw_log. simpl.
  repeat rewrite <- app_assoc. reflexivity.
Qed.

Lemma transactions_probe_calls (drv : Driver) (hist : list Call) (p a ticks : Z) :
  transactions drv hist (probe_calls p a ticks) =
    [probe p ticks a
       (ret drv (hist ++ take 4 (probe_calls p a ticks))
            (i2c_master_cmd_begin p (probe_link a) ticks))].
Proof.
  unfold transactions, probe_calls, probe. simpl.
  repeat rewrite <- app_assoc. reflexivity.
Qed.

Lemma acknowledged_cons (a : Z) (r : esp_err_t) (addrs : list Z) (results : list esp_err_t) :
  acknowledged (a :: addrs) (r :: results) =
    (if bool_decide (r = ESP_OK) then [a] else []) ++ acknowledged addrs results.
Proof. unfold acknowledged. simpl. destruct (bool_decide (r = ESP_OK)); reflexivity. Qed.

(** Scanning a list of addresses on a running driver: one probe per
    address, in the order of the list, and the addresses collected are those
    whose probe returned [ESP_OK]. *)
Lemma scan_list_spec (drv : Driver) :
  builds_links drv ->
  forall (addrs : list Z) (st : t) (found : list Z),
    isRunning (state_ st) = true ->
    exists (results : list esp_err_t) (calls : list Call) (st' : t),
      scan_list drv addrs st found = (found ++ acknowledged addrs results, st') /\
      hw_log st' = hw_log st ++ calls /\
      state_ st' = state_ st /\ config_ st' = config_ st /\
      transactions drv (hw_log st) calls =
        zip_with (probe (port (config_ st)) (pdMS_TO_TICKS drv 100)) addrs results /\
      Forall2 (fun a r => exists hist,
                 r = ret drv hist (i2c_master_cmd_begin (port (config_ st)) (probe_link a)
                                     (pdMS_TO_TICKS drv 100)))
              addrs results.
Proof.
  intros Hdrv. induction addrs as [|a addrs IH]; intros st found Hrun.
  - exists [], [], st. simpl. rewrite !app_nil_r. repeat split; constructor.
  - simpl. rewrite deviceExists_probe by assumption.
    set (ticks := pdMS_TO_TICKS drv 100).
    set (r := ret drv (hw_log st ++ take 4 (probe_calls (port (config_ st)) a ticks))
                  (i2c_master_cmd_begin (port (config_ st)) (probe_link a) ticks)).
    set (st1 := set_hw_log st (hw_log st ++ probe_calls (port (config_ st)) a ticks)).
    destruct (IH st1 (if bool_decide (r = ESP_OK) then found ++ [a] else found) Hrun)
      as (results & calls & st' & Hscan & Hlog & Hst & Hcfg & Htx & Hall).
    exists (r :: results), (probe_calls (port (config_ st)) a ticks ++ calls), st'.
    split; [|split; [|split; [|split; [|split]]]].
    + rewrite Hscan, acknowledged_cons.
      destruct (bool_decide (r = ESP_OK)); simpl; rewrite <- ?app_assoc; reflexivity.
    + rewrite Hlog. simpl. rewrite <- app_assoc. reflexivity.
    + rewrite Hst. reflexivity.
    + rewrite Hcfg. reflexivity.
    + rewrite transactions_app, transactions_probe_calls. simpl. f_equal. exact Htx.
    + constructor; [eexists; reflexivity | exact Hall].
Qed.

Lemma addresses_from_range (addr : Z) (n : nat) (a : Z) :
  In a (addresses_from addr n) <-> addr <= a < addr + Z.of_nat n.
Proof.
  revert addr. induction n as [|n IH]; intros addr; simpl.
  - lia.
  - rewrite IH. lia.
Qed.

(** [scan_range] is the interval [0x08 .. 0x77], in ascending order. *)
Lemma scan_range_spec :
  (forall a, In a scan_range <-> 0x08 <= a <= 0x77) /\
  StronglySorted Z.lt scan_range /\ length scan_range = 112%nat.
Proof.
  split; [|split].
  - intros a. unfold scan_range. rewrite addresses_from_range. lia.
  - unfold scan_range. generalize 112%nat, 0x08. intros n. induction n as [|n IH]; intros a.
    + constructor.
    + simpl. constructor; [apply IH|].
      apply Forall_forall. intros x Hx.
      apply list_elem_of_In, addresses_from_range in Hx. lia.
  - reflexivity.
Qed.

(** The loop of [scanBus] leaves at 0x78, well before its fuel runs out,
    having called [deviceExists] on each address from [addr] to 0x77. *)
Lemma scanBus_loop_unroll (drv : Driver) (n : nat) :
  forall (fuel : nat) (st : t) (addr : Z) (found : list Z),
    0 <= addr -> addr + Z.of_nat n = 0x78 -> (n <= fuel)%nat ->
    scanBus_loop drv fuel st addr found =
      Some (scan_list drv (addresses_from addr n) st found).
Proof.
  induction n as [|n IH]; intros fuel st addr found Hlo Hhi Hfuel.
  - assert (addr = 0x78) as -> by lia. destruct fuel; reflexivity.
  - destruct fuel as [|fuel]; [lia|]. simpl.
    destruct (Z.leb_spec addr 119) as [_|Hgt]; [|lia].
    destruct (deviceExists drv st addr (pdMS_TO_TICKS drv 100)) as [present st1].
    rewrite to_uint8_small by lia. apply IH; lia.
Qed.

Lemma acknowledged_filter (P : Z -> esp_err_t -> Prop) (good : Z -> bool)
    (addrs : list Z) (results : list esp_err_t) :
  Forall2 P addrs results ->
  (forall a r, In a addrs -> P a r -> (r = ESP_OK <-> good a = true)) ->
  acknowledged addrs results = List.filter good addrs.
Proof.
  induction 1 as [|a r addrs results Har Hrest IH]; intros Hgood; [reflexivity|].
  rewrite acknowledged_cons. simpl.
  rewrite IH by (intros; apply Hgood; [right|]; assumption).
  destruct (Hgood a r (or_introl eq_refl) Har) as [H1 H2].
  destruct (good a) eqn:Hg.
  - rewrite bool_decide_eq_true_2 by auto. reflexivity.
  - rewrite bool_decide_eq_false_2; [reflexivity|]. intros Hr. apply H1 in Hr. discriminate.
Qed.

(** C8.  On a running driver [scanBus] succeeds; the transactions it puts
    on the bus are the presence probes (START, address+WRITE, STOP) of the
    addresses [0x08 .. 0x77], one each, in ascending order; and the list it
    returns holds exactly the addresses whose probe was acknowledged, in that
    order.  On a bus where only 0x23 and 0x68 acknowledge, the list is
    [[0x23; 0x68]]. *)
Theorem scanBus_probes_range_and_collects_acks
    (drv : Driver) (st : t) (found_devices : list Z) :
  isRunning (state_ st) = true ->
  builds_links drv ->
  exists (results : list esp_err_t) (st' : t),
    scanBus drv st found_devices = Some (ESP_OK, acknowledged scan_range results, st') /\
    length results = length scan_range /\
    transactions drv (hw_log st) (new_calls st st') =
      zip_with (probe (port (config_ st)) (pdMS_TO_TICKS drv 100)) scan_range results /\
    ((forall hist a ticks, 0 <= a < 128 ->
        (ret drv hist (i2c_master_cmd_begin (port (config_ st)) (probe_link a) ticks)
         = ESP_OK <-> a = 0x23 \/ a = 0x68)) ->
     acknowledged scan_range results = [0x23; 0x68]).
Proof.
  intros Hrun Hdrv.
  destruct (scan_list_spec drv Hdrv scan_range st [] Hrun)
    as (results & calls & st' & Hscan & Hlog & _ & _ & Htx & Hall).
  exists results, st'. split; [|split; [|split]].
  - unfold scanBus. rewrite Hrun. cbv beta iota delta [negb].
    rewrite (scanBus_loop_unroll drv 112 256 st 0x08 []) by (try reflexivity; lia).
    fold scan_range. rewrite Hscan. reflexivity.
  - symmetry. eapply Forall2_length. exact Hall.
  - unfold new_calls. rewrite Hlog, drop_app_length. exact Htx.
  - intros Hbus.
    rewrite (acknowledged_filter _ (fun a => (a =? 0x23) || (a =? 0x68)) _ _ Hall).
    + reflexivity.
    + intros a r Hin [hist ->]. apply scan_range_spec in Hin.
      rewrite Hbus by lia. rewrite orb_true_iff, !Z.eqb_eq. reflexivity.
Qed.

Lemma mock_bus_acknowledges (hist : list Call) (p a ticks : Z) :
  0 <= a < 128 ->
  ret Scenario.i2c_driver hist (i2c_master_cmd_begin p (probe_link a) ticks) = ESP_OK
  <-> a = 0x23 \/ a = 0x68.
Proof.
  intros Ha. unfold probe_link. simpl.
  rewrite address_byte_7bit by (unfold I2C_MASTER_WRITE; lia).
  unfold I2C_MASTER_WRITE.
  replace ((2 * a + 0) / 2) with a by (rewrite Z.add_0_r, Z.mul_comm, Z.div_mul; lia).
  destruct (Z.eqb_spec a 0x23) as [->|H1]; [simpl; split; auto|].
  destruct (Z.eqb_spec a 0x68) as [->|H2]; [simpl; split; auto|].
  simpl. split; [discriminate | intros [?|?]; contradiction].
Qed.

(** The scenario of the specification, on the mock bus of [Scenario]. *)
Lemma scanBus_probes_range_and_collects_acks_witness :
  exists st', scanBus Scenario.i2c_driver Scenario.i2c_running [] =
                Some (ESP_OK, [0x23; 0x68], st').
Proof.
  destruct (scanBus_probes_range_and_collects_acks
              Scenario.i2c_driver Scenario.i2c_running [])
    as (results & st' & Hscan & _ & _ & Hbus).
  - reflexivity.
  - split; intros; reflexivity.
  - exists st'. rewrite Hscan, Hbus; [reflexivity|].
    intros hist a ticks. apply mock_bus_acknowledges.
Defined.

Lemma wire_register_read_link (dev reg : Z) (length : nat) :
  length <> 0%nat ->
  wire (register_read_link dev reg length) =
    [START; SEND (address_byte dev I2C_MASTER_WRITE); SEND reg;
     START; SEND (address_byte dev I2C_MASTER_READ)]
    ++ replicate (length - 1) RECV_ACK ++ [RECV_NACK; STOP].
Proof.
  intros Hlen. unfold register_read_link, wire.
  destruct (decide (1 < length)%nat) as [Hgt|Hle].
  - reflexivity.
  - assert (length = 1%nat) as -> by lia. reflexivity.
Qed.

Ltac log_step := cbn [set_hw_log hw_log state_ config_ driver_installed_].

Ltac build_link := repeat (rewrite queue_op_ok by assumption; log_step).

Ltac flatten_log :=
  unfold new_calls; log_step; repeat rewrite <- app_assoc; cbn [app];
  rewrite ?drop_app_length, ?drop_all.

(** C5.  [readRegister] with [length = 0] fails with [InvalidArgument] on
    a running driver ([InvalidState] otherwise) and leaves the object and the
    driver log as they were: no bus activity.  With [length >= 1] on a running
    driver it executes exactly one bus transaction, whose link puts on the wire
    START, address+WRITE, the register byte, a repeated START, address+READ,
    [length - 1] bytes answered with ACK, a last byte answered with NACK, and
    one STOP at the very end; its return code is the function's.  For a 7-bit
    address [a] the two address bytes are [2a] and [2a + 1]. *)
Theorem readRegister_is_one_transaction
    (drv : Driver) (st : t) (dev reg : Z) (data : list Z) (length : nat) (timeout : Z) :
  readRegister drv st dev reg data 0 timeout =
    (if isRunning (state_ st) then ESP_ERR_INVALID_ARG else ESP_ERR_INVALID_STATE,
     data, st) /\
  (isRunning (state_ st) = true -> builds_links drv -> length <> 0%nat ->
   exists r data' st',
     readRegister drv st dev reg data length timeout = (r, data', st') /\
     transactions drv (hw_log st) (new_calls st st') =
       [(port (config_ st), register_read_link dev reg length, timeout, r)] /\
     wire (register_read_link dev reg length) =
       [START; SEND (address_byte dev I2C_MASTER_WRITE); SEND reg;
        START; SEND (address_byte dev I2C_MASTER_READ)]
       ++ replicate (length - 1) RECV_ACK ++ [RECV_NACK; STOP]) /\
  (0 <= dev < 128 ->
   address_byte dev I2C_MASTER_WRITE = 2 * dev /\
   address_byte dev I2C_MASTER_READ = 2 * dev + 1).
Proof.
  split; [|split].
  - unfold readRegister. destruct (isRunning (state_ st)); reflexivity.
  - intros Hrun Hdrv Hlen.
    assert (Hwire := wire_register_read_link dev reg length Hlen).
    unfold readRegister, link_create.
    rewrite Hrun, (proj1 Hdrv). cbv beta iota zeta delta [negb].
    destruct (decide (length = 0%nat)) as [|_]; [contradiction|].
    unfold register_read_link in *.
    destruct (decide (1 < length)%nat) as [Hgt|Hle];
      build_link; cbv beta iota zeta;
      (destruct (decide (ESP_OK <> ESP_OK)) as [Hne|_]; [contradiction|]);
      unfold execute, call; log_step; cbv beta iota zeta;
      repeat rewrite <- app_assoc; cbn [app];
      match goal with
      | |- context [decide (?r <> ESP_OK)] =>
          destruct (decide (r <> ESP_OK)) as [HR|HR];
          [ exists r | exists ESP_OK; apply dec_stable in HR ]
      end;
      eexists _, _; (split; [reflexivity|]); (split; [|exact Hwire]);
      flatten_log; unfold transactions; cbn [replay omap fst snd];
      repeat rewrite <- app_assoc; cbn [app];
      rewrite ?HR; reflexivity.
  - intros Hdev. unfold I2C_MASTER_WRITE, I2C_MASTER_READ.
    rewrite !address_byte_7bit by lia. lia.
Qed.

Lemma readRegister_is_one_transaction_witness :
  exists st',
    readRegister Scenario.i2c_driver Scenario.i2c_running 0x68 0x75 [] 2 1000 =
      (ESP_OK, [0xAB; 0xAB], st') /\
    transactions Scenario.i2c_driver (hw_log Scenario.i2c_running)
                 (new_calls Scenario.i2c_running st') =
      [(0, [i2c_master_start; i2c_master_write_byte 0xD0 true;
            i2c_master_write_byte 0x75 true;
            i2c_master_start; i2c_master_write_byte 0xD1 true;
            i2c_master_read 1 I2C_MASTER_ACK; i2c_master_read_byte I2C_MASTER_NACK;
            i2c_master_stop], 1000, ESP_OK)].
Proof.
  destruct (proj1 (proj2 (readRegister_is_one_transaction
                            Scenario.i2c_driver Scenario.i2c_running 0x68 0x75 [] 2 1000)))
    as (r & data' & st' & Hread & Htx & _).
  - reflexivity.
  - split; intros; reflexivity.
  - discriminate.
  - exists st'. vm_compute in Hread. injection Hread as <- <- <-.
    split; [reflexivity|]. vm_compute. reflexivity.
Defined.

Lemma queue_op_hw_log (drv : Driver) (b : esp_err_t * list Op * t) (op : Op) :
  hw_log (queue_op drv b op).2 = hw_log b.2 ++ [queue op].
Proof. apply queue_op_log. Qed.

(** The end of [read] and [readRegister], from the built link on: either
    the link is deleted unexecuted, or it is executed and an error empties
    the vector. *)
Lemma finish_read_clears_on_error (drv : Driver) (st : t) (b : esp_err_t * list Op * t)
    (built : list Call) (data : list Z) (timeout : Z)
    (r : esp_err_t) (data' : list Z) (st' : t) :
  hw_log b.2 = hw_log st ++ built ->
  transactions drv (hw_log st) (built ++ [i2c_cmd_link_delete]) = [] ->
  (let '(r, link, st) := b in
   if decide (r <> ESP_OK) then
     let '(_, st) := call drv st i2c_cmd_link_delete in (r, data, st)
   else
     let '(r, bytes, st) := execute drv st link timeout in
     if decide (r <> ESP_OK) then (r, [], st) else (ESP_OK, store bytes data, st))
  = (r, data', st') ->
  transactions drv (hw_log st) (new_calls st st') <> [] ->
  r <> ESP_OK -> data' = [].
Proof.
  destruct b as [[r0 link] st2]. simpl. intros Hlog Hnone.
  destruct (decide (r0 <> ESP_OK)).
  - unfold call. intros [= <- <- <-]. unfold new_calls. log_step.
    rewrite Hlog, <- app_assoc, drop_app_length. intros H. contradiction.
  - unfold execute, call. cbv beta iota zeta.
    destruct (decide (_ <> ESP_OK)); intros [= <- <- <-] _ Hr; [reflexivity|contradiction].
Qed.

Ltac built_log Hlog :=
  match goal with
  | |- context [queue_op ?drv ?x i2c_master_stop] =>
      let b := fresh "b" in
      let Hb := fresh "Hb" in
      remember (queue_op drv x i2c_master_stop) as b eqn:Hb;
      assert (Hlog := f_equal (fun b : esp_err_t * list Op * t => hw_log b.2) Hb);
      cbv beta in Hlog; rewrite !queue_op_hw_log in Hlog;
      cbn [set_hw_log hw_log snd] in Hlog;
      repeat rewrite <- app_assoc in Hlog; cbn [app] in Hlog;
      clear Hb
  end.

(** C9.  When [read] or [readRegister] has executed its link on the bus
    and returns an error, the caller's vector comes back empty. *)
Theorem failed_read_returns_empty_vector
    (drv : Driver) (st : t) (dev reg : Z) (data : list Z) (length : nat) (timeout : Z) :
  (forall r data' st',
     read drv st dev data length timeout = (r, data', st') ->
     transactions drv (hw_log st) (new_calls st st') <> [] ->
     r <> ESP_OK -> data' = []) /\
  (forall r data' st',
     readRegister drv st dev reg data length timeout = (r, data', st') ->
     transactions drv (hw_log st) (new_calls st st') <> [] ->
     r <> ESP_OK -> data' = []).
Proof.
  split; intros r data' st'.
  - unfold read, link_create.
    destruct (isRunning (state_ st)); cbv beta iota zeta delta [negb];
      [|intros [= <- <- <-]; flatten_log; intros H; contradiction].
    destruct (decide (length = 0%nat));
      [intros [= <- <- <-]; flatten_log; intros H; contradiction|].
    destruct (alloc drv (hw_log st));
      [|intros [= <- <- <-]; flatten_log; intros H; contradiction].
    destruct (decide (1 < length)%nat); built_log Hlog;
      eapply finish_read_clears_on_error; try exact Hlog; reflexivity.
  - unfold readRegister, link_create.
    destruct (isRunning (state_ st)); cbv beta iota zeta delta [negb];
      [|intros [= <- <- <-]; flatten_log; intros H; contradiction].
    destruct (decide (length = 0%nat));
      [intros [= <- <- <-]; flatten_log; intros H; contradiction|].
    destruct (alloc drv (hw_log st));
      [|intros [= <- <- <-]; flatten_log; intros H; contradiction].
    destruct (decide (1 < length)%nat); built_log Hlog;
      eapply finish_read_clears_on_error; try exact Hlog; reflexivity.
Qed.

(** A read from 0x50, which does not answer on the mock bus. *)
Lemma failed_read_returns_empty_vector_witness :
  exists r st',
    read Scenario.i2c_driver Scenario.i2c_running 0x50 [1; 2; 3] 2 1000 = (r, [], st') /\
    r <> ESP_OK.
Proof.
  destruct (read Scenario.i2c_driver Scenario.i2c_running 0x50 [1; 2; 3] 2 1000)
    as [[r data'] st'] eqn:Hread.
  assert (Hr : r <> ESP_OK) by (vm_compute in Hread; injection Hread as <- _ _; discriminate).
  assert (Htx : transactions Scenario.i2c_driver (hw_log Scenario.i2c_running)
                  (new_calls Scenario.i2c_running st') <> [])
    by (vm_compute in Hread; injection Hread as _ _ <-; vm_compute; discriminate).
  exists r, st'.
  rewrite (proj1 (failed_read_returns_empty_vector
                    Scenario.i2c_driver Scenario.i2c_running 0x50 0 [1; 2; 3] 2 1000)
             r data' st' Hread Htx Hr).
  split; [reflexivity | exact Hr].
Defined.

(** X4.  [write] with a payload, on a running driver, executes exactly one
    bus transaction: START, address+WRITE, the payload bytes, STOP. *)
Theorem write_is_one_transaction
    (drv : Driver) (st : t) (dev : Z) (data : list Z) (timeout : Z) :
  isRunning (state_ st) = true -> builds_links drv -> data <> [] ->
  let link := [i2c_master_start;
               i2c_master_write_byte (address_byte dev I2C_MASTER_WRITE) true;
               i2c_master_write data true;
               i2c_master_stop] in
  exists r st',
    write drv st dev data timeout = (r, st') /\
    transactions drv (hw_log st) (new_calls st st') =
      [(port (config_ st), link, timeout, r)] /\
    wire link =
      [START; SEND (address_byte dev I2C_MASTER_WRITE)] ++ map SEND data ++ [STOP].
Proof.
  intros Hrun Hdrv Hdata link. unfold write, link_create.
  rewrite Hrun, (proj1 Hdrv). cbv beta iota zeta delta [negb].
  destruct (decide (data = [])) as [|_]; [contradiction|].
  build_link. cbv beta iota zeta.
  destruct (decide (ESP_OK <> ESP_OK)) as [Hne|_]; [contradiction|].
  unfold execute, call. log_step. cbv beta iota zeta.
  repeat rewrite <- app_assoc. cbn [app].
  match goal with
  | |- context [decide (?r <> ESP_OK)] =>
      destruct (decide (r <> ESP_OK)) as [HR|HR];
      [ exists r | exists ESP_OK; apply dec_stable in HR ]
  end;
  eexists; (split; [reflexivity|]);
  (split; [|unfold link, wire; simpl; rewrite ?app_nil_r; reflexivity]);
  flatten_log; unfold transactions; cbn [replay omap fst snd];
  repeat rewrite <- app_assoc; cbn [app];
  rewrite ?HR; reflexivity.
Qed.

(** The frame of the specification: writing [[0x00; 0xAE]] to the device at
    0x3C puts START, 0x78, 0x00, 0xAE, STOP on the wire. *)
Lemma write_is_one_transaction_witness :
  exists r st',
    write Scenario.i2c_driver Scenario.i2c_running 0x3C [0x00; 0xAE] 1000 = (r, st') /\
    (transactions Scenario.i2c_driver (hw_log Scenario.i2c_running)
       (new_calls Scenario.i2c_running st')).*1.*1.*2 =
      [[i2c_master_start; i2c_master_write_byte 0x78 true;
        i2c_master_write [0x00; 0xAE] true; i2c_master_stop]] /\
    wire [i2c_master_start; i2c_master_write_byte 0x78 true;
          i2c_master_write [0x00; 0xAE] true; i2c_master_stop] =
      [START; SEND 0x78; SEND 0x00; SEND 0xAE; STOP].
Proof.
  destruct (write_is_one_transaction Scenario.i2c_driver Scenario.i2c_running
              0x3C [0x00; 0xAE] 1000)
    as (r & st' & Hw & Htx & _);
    [reflexivity | split; intros; reflexivity | discriminate |].
  exists r, st'. split; [exact Hw|]. split; [rewrite Htx|]; reflexivity.
Defined.

End I2cFacts.

(** ** The lifecycle guards of the ADC and I2C drivers *)

Section GuardFacts.
Import Esp HalBase.

(** C3, counterexample.  After a failed [initialize] the ADC and I2C
    objects are in [ERROR]; [stop] nevertheless returns [ESP_OK] and moves
    them to [SUSPENDED], and [reset] returns [ESP_OK] and moves them to
    [INITIALIZED]. *)
Lemma stop_and_reset_leave_error_state :
  (AdcHal.state_ Scenario.adc_failed = ERROR /\
   AdcHal.stop Scenario.adc_failed =
     (ESP_OK, AdcHal.set_state_ Scenario.adc_failed SUSPENDED) /\
   (AdcHal.reset Scenario.adc_failed).1 = ESP_OK /\
   AdcHal.state_ (AdcHal.reset Scenario.adc_failed).2 = INITIALIZED) /\
  (I2cHal.state_ Scenario.i2c_failed = ERROR /\
   I2cHal.stop Scenario.i2c_failed =
     (ESP_OK, I2cHal.set_state_ Scenario.i2c_failed SUSPENDED) /\
   (I2cHal.reset Scenario.i2c_driver Scenario.i2c_failed).1 = ESP_OK /\
   I2cHal.state_ (I2cHal.reset Scenario.i2c_driver Scenario.i2c_failed).2 = INITIALIZED).
Proof. repeat split. Qed.

(** C3, amended.  The two guards are closed in [ERROR].  Every operation
    of [AdcHal] and [I2cHal] that tests a guard fails with [InvalidState] when
    the guard is closed, in [ERROR] as in any other state outside the required
    one, and returns the object (lifecycle state, tables, driver log) and its
    output argument unchanged.  [stop] and [reset] test no guard: in every
    state they return [ESP_OK] and move to [SUSPENDED] and [INITIALIZED]. *)
Theorem guarded_operations_reject_closed_state :
  (isInitialized ERROR = false /\ isRunning ERROR = false) /\
  (forall (drv : AdcHal.Driver) (st : AdcHal.t),
     isInitialized (AdcHal.state_ st) = false ->
     AdcHal.configure drv st = (ESP_ERR_INVALID_STATE, st) /\
     AdcHal.start st = (ESP_ERR_INVALID_STATE, st) /\
     forall cc, AdcHal.configureChannel drv st cc = (ESP_ERR_INVALID_STATE, st)) /\
  (forall (drv : AdcHal.Driver) (st : AdcHal.t),
     isRunning (AdcHal.state_ st) = false ->
     forall ch samples alpha result,
       AdcHal.read drv st ch result = (ESP_ERR_INVALID_STATE, result, st) /\
       AdcHal.readAverage drv st ch samples result =
         Some (ESP_ERR_INVALID_STATE, result, st) /\
       AdcHal.readFiltered drv st ch alpha result =
         Some (ESP_ERR_INVALID_STATE, result, st)) /\
  (forall (drv : I2cHal.Driver) (st : I2cHal.t),
     isInitialized (I2cHal.state_ st) = false ->
     I2cHal.configure drv st = (ESP_ERR_INVALID_STATE, st) /\
     I2cHal.start drv st = (ESP_ERR_INVALID_STATE, st)) /\
  (forall (drv : I2cHal.Driver) (st : I2cHal.t),
     isRunning (I2cHal.state_ st) = false ->
     forall dev reg data length timeout,
       I2cHal.write drv st dev data timeout = (ESP_ERR_INVALID_STATE, st) /\
       I2cHal.read drv st dev data length timeout = (ESP_ERR_INVALID_STATE, data, st) /\
       I2cHal.writeRegister drv st dev reg data timeout = (ESP_ERR_INVALID_STATE, st) /\
       I2cHal.readRegister drv st dev reg data length timeout =
         (ESP_ERR_INVALID_STATE, data, st) /\
       I2cHal.scanBus drv st data = Some (ESP_ERR_INVALID_STATE, data, st)) /\
  (forall st : AdcHal.t,
     AdcHal.stop st = (ESP_OK, AdcHal.set_state_ st SUSPENDED) /\
     AdcHal.reset st =
       (ESP_OK, AdcHal.set_state_ (AdcHal.set_filter_values_ st ∅) INITIALIZED)) /\
  (forall (drv : I2cHal.Driver) (st : I2cHal.t),
     I2cHal.stop st = (ESP_OK, I2cHal.set_state_ st SUSPENDED) /\
     (I2cHal.reset drv st).1 = ESP_OK /\
     I2cHal.state_ (I2cHal.reset drv st).2 = INITIALIZED).
Proof.
  split; [exact guards_closed_in_error|].
  split; [|split; [|split; [|split; [|split]]]].
  - intros drv st H. unfold AdcHal.configure, AdcHal.start, AdcHal.configureChannel.
    rewrite H. auto.
  - intros drv st H ch samples alpha result.
    unfold AdcHal.read, AdcHal.readAverage, AdcHal.readFiltered. rewrite H. auto.
  - intros drv st H. unfold I2cHal.configure, I2cHal.start. rewrite H. auto.
  - intros drv st H dev reg data length timeout.
    unfold I2cHal.write, I2cHal.read, I2cHal.writeRegister, I2cHal.readRegister,
      I2cHal.scanBus. rewrite H. auto.
  - intros st. unfold AdcHal.stop, AdcHal.reset. simpl. rewrite !setState_eq. auto.
  - intros drv st. unfold I2cHal.stop, I2cHal.reset, I2cHal.call. rewrite setState_eq.
    destruct (I2cHal.driver_installed_ st); simpl; rewrite setState_eq; auto.
Qed.

(** The guarded operations on the two objects left in [ERROR] by a failed
    [initialize]. *)
Lemma guarded_operations_reject_closed_state_witness :
  AdcHal.read Scenario.adc_driver Scenario.adc_failed 3 Scenario.no_result =
    (ESP_ERR_INVALID_STATE, Scenario.no_result, Scenario.adc_failed) /\
  AdcHal.start Scenario.adc_failed = (ESP_ERR_INVALID_STATE, Scenario.adc_failed) /\
  I2cHal.readRegister Scenario.i2c_driver Scenario.i2c_failed 0x68 0x75 [] 2 1000 =
    (ESP_ERR_INVALID_STATE, [], Scenario.i2c_failed) /\
  I2cHal.start Scenario.i2c_driver Scenario.i2c_failed =
    (ESP_ERR_INVALID_STATE, Scenario.i2c_failed).
Proof.
  destruct guarded_operations_reject_closed_state
    as (_ & Hadc_i & Hadc_r & Hi2c_i & Hi2c_r & _).
  split; [|split; [|split]].
  - apply (Hadc_r Scenario.adc_driver Scenario.adc_failed eq_refl 3 0 Float32.zero).
  - apply (Hadc_i Scenario.adc_driver Scenario.adc_failed eq_refl).
  - apply (Hi2c_r Scenario.i2c_driver Scenario.i2c_failed eq_refl 0x68 0x75 [] 2%nat 1000).
  - apply (Hi2c_i Scenario.i2c_driver Scenario.i2c_failed eq_refl).
Defined.

End GuardFacts.

(** ** Binding timers, interrupts and pins *)

Section BindingFacts.
Import Esp HalBase.

(** C4, counterexample.  Pin 5 is bound to callback 1; a second
    [setInterrupt] on pin 5, with no [disableInterrupt] in between, returns
    [ESP_OK] and the pin is now bound to callback 2. *)
Lemma gpio_rebinding_succeeds :
  Scenario.gpio_bound_once.1.1 = ESP_OK /\
  GpioHal.callbacks_ Scenario.gpio_bound_once.2 !! 5 = Some 1%nat /\
  Scenario.gpio_bound_twice.1.1 = ESP_OK /\
  GpioHal.callbacks_ Scenario.gpio_bound_twice.2 !! 5 = Some 2%nat /\
  GpioHal.gpioIsrHandler Scenario.gpio_driver Scenario.gpio_bound_twice.1.2
    {[ Scenario.gpio_address := Scenario.gpio_bound_twice.2 ]} 5 = Some (2%nat, 5, true).
Proof. vm_compute. repeat split; reflexivity. Qed.

(** C4, amended.  In [InterruptHal], registering an interrupt id or
    creating a timer under an id that is in the table fails with
    [ESP_ERR_INVALID_ARG] and leaves the object as it was; once
    [unregisterInterrupt] or [deleteTimer] has succeeded, the id can be
    registered again, and is whenever the driver allocates the interrupt or
    timer.  In [GpioHal], [setInterrupt] makes no such test: on a valid pin
    whose driver calls succeed it returns [ESP_OK] and binds the new callback,
    whatever was bound before; [disableInterrupt] removes the binding. *)
Theorem rebinding_registered_ids :
  (forall (drv : InterruptHal.Driver) (st : InterruptHal.t) id config handler,
     isRunning (InterruptHal.state_ st) = true ->
     is_Some (InterruptHal.interrupts_ st !! id) ->
     InterruptHal.registerInterrupt drv st id config handler = (ESP_ERR_INVALID_ARG, st)) /\
  (forall (drv : InterruptHal.Driver) (st : InterruptHal.t) id config callback,
     isRunning (InterruptHal.state_ st) = true ->
     is_Some (InterruptHal.timers_ st !! id) ->
     InterruptHal.createHighResTimer drv st id config callback = (ESP_ERR_INVALID_ARG, st)) /\
  (forall (drv : InterruptHal.Driver) (st st1 : InterruptHal.t) id config handler,
     isRunning (InterruptHal.state_ st) = true ->
     InterruptHal.unregisterInterrupt drv st id = (ESP_OK, st1) ->
     let c := InterruptHal.esp_intr_alloc
                (InterruptHal.source config) (InterruptHal.flags config) id in
     InterruptHal.ret drv (InterruptHal.hw_log st1) c = ESP_OK ->
     exists st2,
       InterruptHal.registerInterrupt drv st1 id config handler = (ESP_OK, st2) /\
       InterruptHal.interrupts_ st2 !! id =
         Some {| InterruptHal.InterruptInfo.handle :=
                   InterruptHal.out drv (InterruptHal.hw_log st1) c;
                 InterruptHal.InterruptInfo.config := config;
                 InterruptHal.InterruptInfo.handler := handler;
                 InterruptHal.InterruptInfo.stats := InterruptHal.no_statistics |}) /\
  (forall (drv : InterruptHal.Driver) (st st1 : InterruptHal.t) id config callback,
     isRunning (InterruptHal.state_ st) = true ->
     InterruptHal.deleteTimer drv st id = (ESP_OK, st1) ->
     let c := InterruptHal.esp_timer_create id in
     InterruptHal.ret drv (InterruptHal.hw_log st1) c = ESP_OK ->
     exists st2,
       InterruptHal.createHighResTimer drv st1 id config callback = (ESP_OK, st2) /\
       InterruptHal.timers_ st2 !! id =
         Some {| InterruptHal.TimerInfo.handle :=
                   InterruptHal.out drv (InterruptHal.hw_log st1) c;
                 InterruptHal.TimerInfo.config := config;
                 InterruptHal.TimerInfo.callback := callback;
                 InterruptHal.TimerInfo.stats := InterruptHal.no_statistics |}) /\
  (forall (drv : GpioHal.Driver) (g : GpioHal.Statics) (this : Z) (self : GpioHal.t)
          p ty callback,
     GpioHal.isValidPin drv p = true ->
     GpioHal.isr_service_installed_ g = true ->
     GpioHal.ret drv (GpioHal.hw_log g) (GpioHal.gpio_set_intr_type p ty) = ESP_OK ->
     GpioHal.ret drv (GpioHal.hw_log g ++ [GpioHal.gpio_set_intr_type p ty])
                 (GpioHal.gpio_isr_handler_add p p) = ESP_OK ->
     exists g' self',
       GpioHal.setInterrupt drv g this self p ty callback = (ESP_OK, g', self') /\
       GpioHal.callbacks_ self' !! p = Some callback /\
       GpioHal.pin_map_ g' !! p = Some this) /\
  (forall (drv : GpioHal.Driver) (g : GpioHal.Statics) (self : GpioHal.t) p,
     exists g' self',
       GpioHal.disableInterrupt drv g self p = (ESP_OK, g', self') /\
       GpioHal.callbacks_ self' !! p = None).
Proof.
  split; [|split; [|split; [|split; [|split]]]].
  - intros drv st id config handler Hrun [info Hinfo].
    unfold InterruptHal.registerInterrupt. rewrite Hrun, Hinfo. reflexivity.
  - intros drv st id config callback Hrun [info Hinfo].
    unfold InterruptHal.createHighResTimer. rewrite Hrun, Hinfo. reflexivity.
  - intros drv st st1 id config handler Hrun Hun c Hret.
    unfold InterruptHal.unregisterInterrupt, InterruptHal.call in Hun.
    destruct (InterruptHal.interrupts_ st !! id) as [info|]; [|discriminate].
    destruct (decide (_ <> ESP_OK)); [congruence|]. injection Hun as <-.
    unfold InterruptHal.registerInterrupt, InterruptHal.call. simpl.
    rewrite Hrun. simpl. rewrite lookup_delete_eq. fold c. simpl in Hret. rewrite Hret.
    destruct (decide (ESP_OK <> ESP_OK)) as [Hne|_]; [contradiction|].
    eexists. split; [reflexivity|]. simpl. apply lookup_insert_eq.
  - intros drv st st1 id config callback Hrun Hdel c Hret.
    unfold InterruptHal.deleteTimer, InterruptHal.call in Hdel.
    destruct (InterruptHal.timers_ st !! id) as [info|]; [|discriminate].
    simpl in Hdel. destruct (decide (_ <> ESP_OK)); [congruence|]. injection Hdel as <-.
    unfold InterruptHal.createHighResTimer, InterruptHal.call. simpl.
    rewrite Hrun. simpl. rewrite lookup_delete_eq. fold c. simpl in Hret. rewrite Hret.
    destruct (decide (ESP_OK <> ESP_OK)) as [Hne|_]; [contradiction|].
    eexists. split; [reflexivity|]. simpl. apply lookup_insert_eq.
  - intros drv g this self p ty callback Hvalid Hisr Hset Hadd.
    unfold GpioHal.setInterrupt, GpioHal.call. rewrite Hvalid, Hisr. simpl.
    destruct (decide (ESP_OK <> ESP_OK)) as [Hne|_]; [contradiction|].
    rewrite Hset. destruct (decide (ESP_OK <> ESP_OK)) as [Hne|_]; [contradiction|].
    rewrite Hadd. destruct (decide (ESP_OK <> ESP_OK)) as [Hne|_]; [contradiction|].
    eexists _, _. split; [reflexivity|]. split.
    + destruct (GpioHal.pin_configs_ self !! p); simpl; apply lookup_insert_eq.
    + simpl. apply lookup_insert_eq.
  - intros drv g self p. unfold GpioHal.disableInterrupt, GpioHal.call. simpl.
    eexists _, _. split; [reflexivity|].
    destruct (GpioHal.pin_configs_ self !! p); simpl; apply lookup_delete_eq.
Qed.

(** Interrupt 2 of the scenario: registering it again is refused; after
    [unregisterInterrupt] it is accepted. *)
Lemma rebinding_registered_ids_witness :
  InterruptHal.registerInterrupt Scenario.intr_driver Scenario.interrupts_running
    2 Scenario.source_5 (Some 3%nat) = (ESP_ERR_INVALID_ARG, Scenario.interrupts_running) /\
  exists st2,
    InterruptHal.registerInterrupt Scenario.intr_driver
      (InterruptHal.unregisterInterrupt Scenario.intr_driver Scenario.interrupts_running 2).2
      2 Scenario.source_5 (Some 3%nat) = (ESP_OK, st2).
Proof.
  destruct rebinding_registered_ids as (Hdup & _ & Hagain & _).
  split.
  - apply Hdup; [reflexivity|]. vm_compute. eauto.
  - destruct (Hagain Scenario.intr_driver Scenario.interrupts_running
                (InterruptHal.unregisterInterrupt Scenario.intr_driver
                   Scenario.interrupts_running 2).2
                2 Scenario.source_5 (Some 3%nat)) as (st2 & Hreg & _);
      [reflexivity | vm_compute; reflexivity | reflexivity |].
    exists st2. exact Hreg.
Defined.

End BindingFacts.

(** ** Dispatch through the trampolines *)

Section DispatchFacts.
Import CInt Esp HalBase InterruptHal.

(** What the trampoline of a timer would do with its [instance] pointing at
    the object that owns the timer: count one dispatch and run the callback. *)
Lemma timer_dispatch_counts_and_runs (p : Z) (w : World) (obj : t) (id : Z)
    (info : TimerInfo.t) :
  p <> 0 -> 0 <= id < 2 ^ 32 ->
  objects w !! p = Some obj -> timers_ obj !! id = Some info ->
  total_of (timer_dispatch p w id) p id =
    Some ((total_count (TimerInfo.stats info) + 1) mod 2 ^ 64) /\
  invoked (timer_dispatch p w id) =
    invoked w ++ match TimerInfo.callback info with Some f => [f] | None => [] end.
Proof.
  intros Hp Hid Hobj Hinfo. unfold timer_dispatch.
  rewrite to_uint32_small by exact Hid.
  destruct (decide (p = 0)); [contradiction|]. rewrite Hobj, Hinfo. simpl.
  unfold run, total_of.
  destruct (TimerInfo.callback info); simpl;
    rewrite ?lookup_insert_eq; simpl; rewrite ?lookup_insert_eq; simpl;
    rewrite ?app_nil_r; auto.
Qed.

(** C6 (the code does not meet it).  The [instance] pointer of both
    trampolines is null at every call, so a dispatch returns at once: the
    world, and with it every [total_count] and the list of callables run, is
    unchanged, for every id, registered or not. *)
Theorem trampolines_drop_every_dispatch (w : World) (arg : Z) :
  espTimerCallback w arg = w /\ interruptHandlerWrapper w arg = w.
Proof. split; reflexivity. Qed.

(** Timer 1 (callback 7) and interrupt 2 (handler 9) of the scenario are
    registered with a zero count; after a dispatch of each the counts are
    still zero and nothing has run. *)
Lemma registered_ids_are_not_counted :
  let w := interruptHandlerWrapper (espTimerCallback Scenario.interrupts_world 1) 2 in
  total_of Scenario.interrupts_world Scenario.interrupts_address 1 = Some 0 /\
  total_of Scenario.interrupts_world Scenario.interrupts_address 2 = Some 0 /\
  total_of w Scenario.interrupts_address 1 = Some 0 /\
  total_of w Scenario.interrupts_address 2 = Some 0 /\
  invoked w = [].
Proof. vm_compute. repeat split; reflexivity. Qed.

End DispatchFacts.

(** ** ADC: channel table, calibration handles, averaging *)

Section AdcTableFacts.
Import CInt Esp HalBase AdcHal.

Lemma destroyCalibrationHandle_frame (drv : Driver) (st : t) (ch : Z) :
  let st' := destroyCalibrationHandle drv st ch in
  state_ st' = state_ st /\ config_ st' = config_ st /\ adc_handle_ st' = adc_handle_ st /\
  channels_ st' = channels_ st /\ filter_values_ st' = filter_values_ st /\
  find_handle (calibration_handles_ st') ch = None /\
  (forall ch', ch' <> ch ->
     calibration_handles_ st' !! ch' = calibration_handles_ st !! ch').
Proof.
  unfold destroyCalibrationHandle, call.
  destruct (find_handle (calibration_handles_ st) ch) as [h|] eqn:Hf; simpl.
  - repeat split; try reflexivity.
    + unfold find_handle. rewrite lookup_delete_eq. reflexivity.
    + intros ch' Hne. apply lookup_delete_ne. congruence.
  - repeat split; try reflexivity. exact Hf.
Qed.

(** X5.  [createCalibrationHandle] destroys the channel's handle before it
    asks for a new one: the calls it makes are the deletion of the usable
    handle the channel had, if any, followed by one creation request for the
    channel with the given attenuation and the unit and bit width of the
    configuration.  Its return code is the driver's answer to that request.
    When the driver accepts, the handle the driver handed out is what the
    table stores for the channel; when it refuses, the channel is left with no
    usable handle, whatever it had before.  Either way the handles of the other
    channels, the channel table, the filter bank, the configuration and the
    lifecycle state are untouched. *)
Theorem createCalibrationHandle_replaces_handle
    (drv : Driver) (st : t) (ch : Z) (att : Attenuation) :
  let deleted :=
    match find_handle (calibration_handles_ st) ch with
    | Some h => [adc_cali_delete_scheme_curve_fitting h]
    | None => []
    end in
  let kept :=
    match find_handle (calibration_handles_ st) ch with
    | Some _ => delete ch (calibration_handles_ st)
    | None => calibration_handles_ st
    end in
  let c := adc_cali_create_scheme_curve_fitting
             (unit (config_ st)) ch att (bit_width (config_ st)) in
  let r := ret drv (hw_log st ++ deleted) c in
  exists st',
    createCalibrationHandle drv st ch att = (r, st') /\
    new_calls st st' = deleted ++ [c] /\
    calibration_handles_ st' =
      (if decide (r = ESP_OK) then <[ch := out drv (hw_log st ++ deleted) c]> kept
       else kept) /\
    (r <> ESP_OK -> find_handle (calibration_handles_ st') ch = None) /\
    (r = ESP_OK -> is_Some (calibration_handles_ st' !! ch)) /\
    (forall ch', ch' <> ch ->
       calibration_handles_ st' !! ch' = calibration_handles_ st !! ch') /\
    channels_ st' = channels_ st /\ filter_values_ st' = filter_values_ st /\
    state_ st' = state_ st /\ config_ st' = config_ st /\
    adc_handle_ st' = adc_handle_ st.
Proof.
  intros deleted kept c r.
  assert (Hst0 : destroyCalibrationHandle drv st ch =
                 set_calibration_handles_ (set_hw_log st (hw_log st ++ deleted)) kept).
  { unfold destroyCalibrationHandle, call, deleted, kept.
    destruct (find_handle (calibration_handles_ st) ch); [reflexivity|].
    rewrite app_nil_r. destruct st; reflexivity. }
  assert (Hkept : find_handle kept ch = None /\
                  forall ch', ch' <> ch -> kept !! ch' = calibration_handles_ st !! ch').
  { unfold kept. destruct (find_handle (calibration_handles_ st) ch) eqn:Hf.
    - split; [unfold find_handle; rewrite lookup_delete_eq; reflexivity|].
      intros ch' Hne. apply lookup_delete_ne. congruence.
    - split; [exact Hf|reflexivity]. }
  destruct Hkept as [Hnone Hother].
  unfold createCalibrationHandle. rewrite Hst0. unfold call.
  cbn [hw_log set_hw_log set_calibration_handles_ config_ calibration_handles_].
  fold c. fold r. cbv beta iota zeta.
  destruct (decide (r <> ESP_OK)) as [Hr|Hr].
  - eexists. split; [reflexivity|].
    destruct (decide (r = ESP_OK)) as [E|_]; [contradiction|]. cbn.
    split; [unfold new_calls; cbn; rewrite <- app_assoc, drop_app_length; reflexivity|].
    split; [reflexivity|]. split; [intros _; exact Hnone|].
    split; [intros E; contradiction|]. split; [exact Hother|]. repeat split.
  - apply dec_stable in Hr. eexists. split; [rewrite Hr; reflexivity|].
    destruct (decide (r = ESP_OK)) as [_|E]; [|contradiction]. cbn.
    split; [unfold new_calls; cbn; rewrite <- app_assoc, drop_app_length; reflexivity|].
    split; [reflexivity|]. split; [intros E; contradiction|].
    split; [intros _; rewrite lookup_insert_eq; eauto|].
    split; [|repeat split].
    intros ch' Hne. rewrite lookup_insert_ne by congruence. apply Hother, Hne.
Qed.

Lemma createCalibrationHandle_frame (drv : Driver) (st : t) (ch : Z) (att : Attenuation) :
  let st' := (createCalibrationHandle drv st ch att).2 in
  channels_ st' = channels_ st /\ filter_values_ st' = filter_values_ st /\
  state_ st' = state_ st /\ config_ st' = config_ st /\ adc_handle_ st' = adc_handle_ st.
Proof.
  unfold createCalibrationHandle.
  destruct (destroyCalibrationHandle_frame drv st ch)
    as (Hs & Hc & Hh & Hch & Hf & _ & _).
  set (st0 := destroyCalibrationHandle drv st ch) in *.
  unfold call. cbv beta iota zeta.
  destruct (decide (_ <> ESP_OK)); simpl; auto.
Qed.

(** X6.  On an initialised object whose driver accepts the channel,
    [configureChannel] returns [ESP_OK] and stores the configuration under its
    channel number, whether or not a requested calibration could be set up;
    the other entries, the driver configuration and the lifecycle state stay
    as they were, and without a calibration request so do the calibration
    handles. *)
Theorem configureChannel_stores_config
    (drv : Driver) (st : t) (cc : ChannelConfig) :
  isInitialized (state_ st) = true ->
  ret drv (hw_log st)
      (adc_oneshot_config_channel (adc_handle_ st) (channel cc) (attenuation cc)
         (bit_width (config_ st))) = ESP_OK ->
  exists st',
    configureChannel drv st cc = (ESP_OK, st') /\
    channels_ st' = <[channel cc := cc]> (channels_ st) /\
    state_ st' = state_ st /\ config_ st' = config_ st /\
    (calibration_enable cc = false ->
     calibration_handles_ st' = calibration_handles_ st).
Proof.
  intros Hinit Hret. unfold configureChannel, call. rewrite Hinit, Hret. simpl.
  destruct (decide (ESP_OK <> ESP_OK)) as [Hne|_]; [contradiction|].
  eexists. split; [reflexivity|].
  destruct (calibration_enable cc).
  - match goal with
    | |- context [createCalibrationHandle drv ?s ?c ?a] =>
        destruct (createCalibrationHandle_frame drv s c a) as (H1 & _ & H3 & H4 & _)
    end.
    rewrite H1, H3, H4. simpl. repeat split. discriminate.
  - simpl. auto.
Qed.

(** Channel 4 with calibration requested, on a chip without calibration
    support. *)
Lemma configureChannel_stores_config_witness :
  exists st',
    configureChannel Scenario.adc_uncalibrated_driver Scenario.adc_running
      Scenario.channel_4_calibrated = (ESP_OK, st') /\
    channels_ st' !! 4 = Some Scenario.channel_4_calibrated /\
    channels_ st' !! 3 = Some Scenario.channel_3 /\
    find_handle (calibration_handles_ st') 4 = None.
Proof.
  destruct (configureChannel_stores_config
              Scenario.adc_uncalibrated_driver Scenario.adc_running
              Scenario.channel_4_calibrated)
    as (st' & Hcfg & Hch & _); [reflexivity | reflexivity |].
  exists st'. split; [exact Hcfg|]. rewrite Hch.
  split; [apply lookup_insert_eq|]. split; [reflexivity|].
  vm_compute in Hcfg. injection Hcfg as <-. reflexivity.
Defined.

Lemma count_calls_app (test : Call -> bool) (a b : list Call) :
  count_calls test (a ++ b) = (count_calls test a + count_calls test b)%nat.
Proof. unfold count_calls. rewrite List.filter_app, length_app. reflexivity. Qed.

Lemma destroyCalibrationHandle_log (drv : Driver) (st : t) (ch : Z) :
  exists calls, hw_log (destroyCalibrationHandle drv st ch) = hw_log st ++ calls /\
    count_calls is_channel_config calls = 0%nat /\
    count_calls is_sample calls = 0%nat.
Proof.
  unfold destroyCalibrationHandle, call.
  destruct (find_handle (calibration_handles_ st) ch); simpl.
  - eexists [_]. split; [reflexivity|]. split; reflexivity.
  - exists []. rewrite app_nil_r. repeat split.
Qed.

Lemma createCalibrationHandle_log (drv : Driver) (st : t) (ch : Z) (att : Attenuation) :
  exists calls,
    hw_log (createCalibrationHandle drv st ch att).2 = hw_log st ++ calls /\
    count_calls is_channel_config calls = 0%nat /\
    count_calls is_sample calls = 0%nat.
Proof.
  unfold createCalibrationHandle.
  destruct (destroyCalibrationHandle_log drv st ch) as (calls & Hlog & Hc & Hs).
  set (st0 := destroyCalibrationHandle drv st ch) in *.
  unfold call. cbv beta iota zeta.
  exists (calls ++ [adc_cali_create_scheme_curve_fitting
                      (unit (config_ st0)) ch att (bit_width (config_ st0))]).
  rewrite !count_calls_app, Hc, Hs.
  destruct (decide (_ <> ESP_OK)); simpl; rewrite Hlog, <- app_assoc; repeat split.
Qed.

(** What [configureChannel] does to the channel table: nothing, or one
    store under the channel's own number. *)
Lemma configureChannel_channels (drv : Driver) (st : t) (cc : ChannelConfig) :
  let st' := (configureChannel drv st cc).2 in
  (channels_ st' = channels_ st \/ channels_ st' = <[channel cc := cc]> (channels_ st)) /\
  state_ st' = state_ st /\ config_ st' = config_ st /\ adc_handle_ st' = adc_handle_ st.
Proof.
  unfold configureChannel, call.
  destruct (isInitialized (state_ st)); simpl; [|auto].
  destruct (decide (_ <> ESP_OK)); simpl; [auto|].
  destruct (calibration_enable cc); simpl; [|auto].
  match goal with
  | |- context [createCalibrationHandle drv ?s ?c ?a] =>
      destruct (createCalibrationHandle_frame drv s c a) as (H1 & _ & H3 & H4 & H5)
  end.
  rewrite H1, H3, H4, H5. simpl. auto.
Qed.

Lemma keyed_by_channel_insert (m : gmap Z ChannelConfig) (cc : ChannelConfig) :
  keyed_by_channel m -> keyed_by_channel (<[channel cc := cc]> m).
Proof.
  intros Hm k c. rewrite lookup_insert. destruct (decide (channel cc = k)) as [<-|Hne].
  - intros [= <-]. reflexivity.
  - apply Hm.
Qed.

Lemma configure_loop_keeps_table (drv : Driver) (l : list (Z * ChannelConfig)) :
  forall st : t,
    (forall k cc, In (k, cc) l -> channels_ st !! channel cc = Some cc) ->
    let st' := (configure_loop drv l st).2 in
    channels_ st' = channels_ st /\ state_ st' = state_ st /\ config_ st' = config_ st.
Proof.
  induction l as [|[k cc] l IH]; intros st Hl; simpl; [auto|].
  destruct (configureChannel_channels drv st cc) as (Hch & Hs & Hc & _).
  assert (Hsame : channels_ (configureChannel drv st cc).2 = channels_ st).
  { destruct Hch as [H|H]; [exact H|]. rewrite H. apply insert_id. apply (Hl k). left. reflexivity. }
  destruct (configureChannel drv st cc) as [r st1]. simpl in *.
  destruct (decide (r <> ESP_OK)); simpl; [auto|].
  destruct (IH st1) as (H1 & H2 & H3).
  - intros k' cc' Hin. rewrite Hsame. apply (Hl k'). right. exact Hin.
  - rewrite H1, H2, H3. auto.
Qed.

Lemma in_key_order_lookup {A} (m : gmap Z A) (k : Z) (x : A) :
  In (k, x) (in_key_order m) <-> m !! k = Some x.
Proof.
  unfold in_key_order. rewrite <- list_elem_of_In.
  rewrite (merge_sort_Permutation key_le (map_to_list m)).
  apply elem_of_map_to_list.
Qed.

Lemma in_key_order_length {A} (m : gmap Z A) : length (in_key_order m) = size m.
Proof.
  unfold in_key_order.
  rewrite (Permutation_length (merge_sort_Permutation key_le (map_to_list m))).
  apply length_map_to_list.
Qed.

(** X7.  The channel table is keyed by channel number, and stays so:
    [configureChannel], [setAttenuation] and [configure] only ever store a
    configuration under its own channel, starting from the empty table of a
    new object. *)
Theorem channel_table_keyed_by_channel
    (drv : Driver) (st : t) (cc : ChannelConfig) (ch : Z) (att : Attenuation) :
  keyed_by_channel (channels_ st) ->
  keyed_by_channel (channels_ (configureChannel drv st cc).2) /\
  keyed_by_channel (channels_ (setAttenuation drv st ch att).2) /\
  keyed_by_channel (channels_ (configure drv st).2) /\
  forall u, keyed_by_channel (channels_ (create u)).
Proof.
  intros Hk.
  assert (Hcfg : forall s c, keyed_by_channel (channels_ s) ->
                   keyed_by_channel (channels_ (configureChannel drv s c).2)).
  { intros s c Hs. destruct (configureChannel_channels drv s c) as ([H|H] & _);
      rewrite H; [exact Hs | apply keyed_by_channel_insert, Hs]. }
  split; [apply Hcfg, Hk|]. split; [|split].
  - unfold setAttenuation. destruct (channels_ st !! ch) as [c0|] eqn:Hc0; [|exact Hk].
    apply Hcfg. simpl. rewrite <- (Hk _ _ Hc0) at 1.
    apply (keyed_by_channel_insert _
             {| channel := channel c0; attenuation := att;
                calibration_enable := calibration_enable c0 |}), Hk.
  - unfold configure. destruct (isInitialized (state_ st)); simpl; [|exact Hk].
    destruct (configure_loop_keeps_table drv (in_key_order (channels_ st)) st) as (H & _).
    + intros k c Hin. apply in_key_order_lookup in Hin.
      rewrite (Hk _ _ Hin). exact Hin.
    + rewrite H. exact Hk.
  - intros u k c. simpl. rewrite lookup_empty. discriminate.
Qed.

Lemma channel_table_keyed_by_channel_witness :
  keyed_by_channel
    (channels_ (setAttenuation Scenario.adc_driver Scenario.adc_running 3 DB_0).2) /\
  channels_ (setAttenuation Scenario.adc_driver Scenario.adc_running 3 DB_0).2 !! 3 =
    Some {| channel := 3; attenuation := DB_0; calibration_enable := false |}.
Proof.
  split; [|reflexivity].
  apply (channel_table_keyed_by_channel Scenario.adc_driver Scenario.adc_running
           Scenario.channel_3 3 DB_0).
  intros k c. change (channels_ Scenario.adc_running) with
    (<[3 := Scenario.channel_3]> (∅ : gmap Z ChannelConfig)).
  rewrite lookup_insert. destruct (decide (3 = k)) as [<-|Hne].
  - intros [= <-]. reflexivity.
  - rewrite lookup_empty. discriminate.
Defined.

Lemma no_channel_config (calls : list Call) :
  count_calls is_channel_config calls = 0%nat -> List.filter is_channel_config calls = [].
Proof. unfold count_calls. apply nil_length_inv. Qed.

(** The channel configuration request [configureChannel] makes for an
    entry. *)
Lemma configureChannel_request (drv : Driver) (st : t) (cc : ChannelConfig) :
  isInitialized (state_ st) = true -> accepts_channels drv ->
  exists st' calls,
    configureChannel drv st cc = (ESP_OK, st') /\
    hw_log st' = hw_log st ++ calls /\
    List.filter is_channel_config calls =
      [adc_oneshot_config_channel (adc_handle_ st) (channel cc) (attenuation cc)
         (bit_width (config_ st))].
Proof.
  intros Hinit Hacc. unfold configureChannel, call. rewrite Hinit, Hacc. simpl.
  destruct (decide (ESP_OK <> ESP_OK)) as [Hne|_]; [contradiction|].
  destruct (calibration_enable cc).
  - match goal with
    | |- context [createCalibrationHandle drv ?s ?c ?a] =>
        destruct (createCalibrationHandle_log drv s c a) as (calls & Hlog & Hc & _)
    end.
    eexists _, (_ :: calls). split; [reflexivity|]. simpl in Hlog.
    split; [rewrite Hlog, <- app_assoc; reflexivity|].
    cbn [List.filter is_channel_config]. rewrite (no_channel_config _ Hc). reflexivity.
  - eexists _, [_]. split; [reflexivity|]. split; reflexivity.
Qed.

Lemma configure_loop_requests (drv : Driver) (l : list (Z * ChannelConfig)) :
  forall st : t,
    isInitialized (state_ st) = true -> accepts_channels drv ->
    exists st' calls,
      configure_loop drv l st = (ESP_OK, st') /\
      hw_log st' = hw_log st ++ calls /\
      List.filter is_channel_config calls =
        map (fun kv : Z * ChannelConfig =>
               adc_oneshot_config_channel (adc_handle_ st) (channel kv.2)
                 (attenuation kv.2) (bit_width (config_ st))) l.
Proof.
  induction l as [|[k cc] l IH]; intros st Hinit Hacc; cbn [configure_loop map].
  - exists st, []. rewrite app_nil_r. auto.
  - destruct (configureChannel_request drv st cc Hinit Hacc)
      as (st1 & calls1 & Hcfg & Hlog1 & Hreq1).
    destruct (configureChannel_channels drv st cc) as (_ & Hs & Hc & Hh).
    rewrite Hcfg in *. cbn [snd] in Hs, Hc, Hh.
    destruct (decide (ESP_OK <> ESP_OK)) as [Hne|_]; [contradiction|].
    destruct (IH st1) as (st' & calls & Hloop & Hlog & Hreq);
      [rewrite Hs; exact Hinit | exact Hacc |].
    exists st', (calls1 ++ calls). split; [exact Hloop|].
    split; [rewrite Hlog, Hlog1, app_assoc; reflexivity|].
    rewrite List.filter_app, Hreq1, Hreq, Hh, Hc. reflexivity.
Qed.

(** X8.  [configure] goes through the stored channel configurations and
    leaves the table exactly as it was, whether it succeeds or stops at a
    channel the driver refuses.  On an initialised object whose driver accepts
    every channel it returns [ESP_OK], and the channel configuration requests
    it made are exactly one per stored channel, in ascending channel order,
    each for that channel with its stored attenuation and the bit width of the
    configuration. *)
Theorem configure_replays_every_channel (drv : Driver) (st : t) :
  keyed_by_channel (channels_ st) ->
  (channels_ (configure drv st).2 = channels_ st /\
   state_ (configure drv st).2 = state_ st) /\
  (isInitialized (state_ st) = true -> accepts_channels drv ->
   exists st',
     configure drv st = (ESP_OK, st') /\
     List.filter is_channel_config (new_calls st st') =
       map (fun kv : Z * ChannelConfig =>
              adc_oneshot_config_channel (adc_handle_ st) kv.1 (attenuation kv.2)
                (bit_width (config_ st)))
           (in_key_order (channels_ st)) /\
     count_calls is_channel_config (hw_log st') =
       (count_calls is_channel_config (hw_log st) + size (channels_ st))%nat).
Proof.
  intros Hk. split.
  - unfold configure. destruct (isInitialized (state_ st)); simpl; [|auto].
    destruct (configure_loop_keeps_table drv (in_key_order (channels_ st)) st)
      as (H1 & H2 & _); [|auto].
    intros k c Hin. apply in_key_order_lookup in Hin. rewrite (Hk _ _ Hin). exact Hin.
  - intros Hinit Hacc. unfold configure. rewrite Hinit. simpl.
    destruct (configure_loop_requests drv (in_key_order (channels_ st)) st Hinit Hacc)
      as (st' & calls & Hloop & Hlog & Hreq).
    assert (Hkeys : map (fun kv : Z * ChannelConfig =>
                           adc_oneshot_config_channel (adc_handle_ st) (channel kv.2)
                             (attenuation kv.2) (bit_width (config_ st)))
                        (in_key_order (channels_ st)) =
                    map (fun kv : Z * ChannelConfig =>
                           adc_oneshot_config_channel (adc_handle_ st) kv.1
                             (attenuation kv.2) (bit_width (config_ st)))
                        (in_key_order (channels_ st))).
    { apply map_ext_in. intros [k c] Hin. apply in_key_order_lookup in Hin.
      cbn [fst snd]. rewrite (Hk _ _ Hin). reflexivity. }
    exists st'. split; [exact Hloop|]. split.
    + unfold new_calls. rewrite Hlog, drop_app_length, Hreq. exact Hkeys.
    + rewrite Hlog, count_calls_app. f_equal. unfold count_calls.
      rewrite Hreq, length_map. apply in_key_order_length.
Qed.

Lemma configure_replays_every_channel_witness :
  exists st',
    configure Scenario.adc_driver Scenario.adc_two_channels = (ESP_OK, st') /\
    channels_ st' = channels_ Scenario.adc_two_channels /\
    new_calls Scenario.adc_two_channels st' =
      [adc_oneshot_config_channel 1 3 DB_11 WIDTH_DEFAULT;
       adc_oneshot_config_channel 1 6 DB_6 WIDTH_DEFAULT].
Proof.
  assert (Hk : keyed_by_channel (channels_ Scenario.adc_two_channels)).
  { intros k c. change (channels_ Scenario.adc_two_channels) with
      (<[6 := Scenario.channel_6]>
         (<[3 := Scenario.channel_3]> (∅ : gmap Z ChannelConfig))).
    rewrite lookup_insert. destruct (decide (6 = k)) as [<-|Hne6];
      [intros [= <-]; reflexivity|].
    rewrite lookup_insert. destruct (decide (3 = k)) as [<-|Hne3];
      [intros [= <-]; reflexivity|].
    rewrite lookup_empty. discriminate. }
  destruct (configure_replays_every_channel Scenario.adc_driver
              Scenario.adc_two_channels Hk) as ((Hch & _) & Hok).
  destruct Hok as (st' & Hcfg & _ & _); [reflexivity | intros ? ? ? ? ?; reflexivity |].
  exists st'. rewrite Hcfg in Hch. split; [exact Hcfg|]. split; [exact Hch|].
  vm_compute in Hcfg. injection Hcfg as <-. vm_compute. reflexivity.
Defined.





End AdcTableFacts.

(** ** ADC: averaging *)

Section AdcAverageFacts.
Import CInt Esp HalBase AdcHal.

Lemma accumulate_from_bounds (lo hi : Z) (l : list Z) :
  forall a,
    0 <= lo -> 0 <= a -> a + Z.of_nat (length l) * hi < 2 ^ 31 ->
    Forall (fun v => lo <= v <= hi) l ->
    a + Z.of_nat (length l) * lo
      <= fold_left (fun acc x => to_int32 (acc + x)) l a
      <= a + Z.of_nat (length l) * hi.
Proof.
  induction l as [|x l IH]; intros a Hlo Ha Hmax Hall.
  - simpl. lia.
  - inversion Hall as [|? ? Hx Hl]; subst.
    cbn [fold_left]. rewrite length_cons, Nat2Z.inj_succ in *.
    assert (Hhi : 0 <= hi) by lia.
    assert (Hlen : 0 <= Z.of_nat (length l) * hi) by nia.
    rewrite to_int32_small by lia.
    specialize (IH (a + x) Hlo ltac:(lia) ltac:(nia) Hl). nia.
Qed.

Lemma accumulate_bounds (lo hi : Z) (l : list Z) :
  0 <= lo -> Z.of_nat (length l) * hi < 2 ^ 31 ->
  Forall (fun v => lo <= v <= hi) l ->
  Z.of_nat (length l) * lo <= accumulate l <= Z.of_nat (length l) * hi.
Proof.
  intros Hlo Hmax Hall. unfold accumulate.
  pose proof (accumulate_from_bounds lo hi l 0 Hlo ltac:(lia) ltac:(lia) Hall). lia.
Qed.

Lemma readAverage_loop_spec (drv : Driver) (n : nat) :
  forall (st : t) (ch : Z) (acc : list Z),
    exists (r : esp_err_t) (raws : list Z) (calls : list Call) (st' : t),
      readAverage_loop drv n st ch acc = (r, acc ++ raws, st') /\
      hw_log st' = hw_log st ++ calls /\
      (state_ st' = state_ st /\ config_ st' = config_ st /\
       adc_handle_ st' = adc_handle_ st /\ channels_ st' = channels_ st /\
       calibration_handles_ st' = calibration_handles_ st /\
       filter_values_ st' = filter_values_ st) /\
      Forall (fun v => exists hist,
                ret drv hist (adc_oneshot_read (adc_handle_ st) ch) = ESP_OK /\
                v = out drv hist (adc_oneshot_read (adc_handle_ st) ch)) raws /\
      (r = ESP_OK ->
       length raws = n /\ count_calls is_sample calls = n) /\
      (r <> ESP_OK ->
       (length raws < n)%nat /\ count_calls is_sample calls = S (length raws) /\
       exists hist, r = ret drv hist (adc_oneshot_read (adc_handle_ st) ch)).
Proof.
  induction n as [|n IH]; intros st ch acc.
  - exists ESP_OK, [], [], st. cbn [readAverage_loop]. rewrite !app_nil_r.
    repeat split; auto; congruence.
  - cbn [readAverage_loop]. unfold call. cbv beta iota zeta.
    destruct (decide (ret drv (hw_log st) (adc_oneshot_read (adc_handle_ st) ch) <> ESP_OK))
      as [Hr|Hr].
    + eexists _, [], [adc_oneshot_read (adc_handle_ st) ch], _.
      rewrite app_nil_r. split; [reflexivity|]. cbn.
      repeat split; auto; try contradiction; try lia. eexists; reflexivity.
    + apply dec_stable in Hr.
      match goal with
      | |- context [readAverage_loop drv n ?s ch ?a] =>
          destruct (IH s ch a) as (r & raws & calls & st' & Hloop & Hlog & Hframe & Hall & Hok & Herr)
      end.
      cbn in Hlog, Hframe, Hall, Herr.
      exists r, (out drv (hw_log st) (adc_oneshot_read (adc_handle_ st) ch) :: raws),
        ([adc_oneshot_read (adc_handle_ st) ch; vTaskDelay (1 / portTICK_PERIOD_MS drv)]
           ++ calls), st'.
      split; [rewrite Hloop, <- app_assoc; reflexivity|].
      split; [rewrite Hlog, <- !app_assoc; reflexivity|].
      split; [exact Hframe|].
      split; [constructor; [exists (hw_log st); split; [exact Hr|reflexivity] | exact Hall]|].
      rewrite count_calls_app.
      change (count_calls is_sample [_; _]) with 1%nat. cbn [length].
      split.
      * intros Hrok. destruct (Hok Hrok) as [H1 H2]. rewrite H1, H2. split; reflexivity.
      * intros Hrne. destruct (Herr Hrne) as (H1 & H2 & H3). rewrite H2.
        split; [lia|]. split; [reflexivity|exact H3].
Qed.

Lemma accumulate_from_sum (lo hi : Z) (l : list Z) :
  forall a,
    0 <= lo -> 0 <= a -> a + Z.of_nat (length l) * hi < 2 ^ 31 ->
    Forall (fun v => lo <= v <= hi) l ->
    fold_left (fun acc x => to_int32 (acc + x)) l a = a + sum_samples l.
Proof.
  induction l as [|x l IH]; intros a Hlo Ha Hmax Hall.
  - simpl. lia.
  - inversion Hall as [|? ? Hx Hl]; subst.
    cbn [fold_left sum_samples fold_right]. rewrite length_cons, Nat2Z.inj_succ in *.
    assert (Hhi : 0 <= hi) by lia.
    assert (Hlen : 0 <= Z.of_nat (length l) * hi) by nia.
    rewrite to_int32_small by lia.
    rewrite (IH (a + x) Hlo ltac:(lia) ltac:(nia) Hl). unfold sum_samples. lia.
Qed.

Lemma readAverage_loop_samples (drv : Driver) (n : nat) :
  forall (st : t) (ch : Z) (acc : list Z),
    (forall hist, ret drv hist (adc_oneshot_read (adc_handle_ st) ch) = ESP_OK) ->
    (readAverage_loop drv n st ch acc).1 =
      (ESP_OK, acc ++ samples_from drv (hw_log st) (adc_handle_ st) ch n).
Proof.
  induction n as [|n IH]; intros st ch acc Hok; cbn [readAverage_loop samples_from].
  - rewrite app_nil_r. reflexivity.
  - unfold call. cbv beta iota zeta. rewrite Hok.
    destruct (decide (ESP_OK <> ESP_OK)) as [Hne|_]; [contradiction|].
    rewrite IH by exact Hok.
    cbn [hw_log set_hw_log adc_handle_]. rewrite <- !app_assoc. reflexivity.
Qed.

(** X10.  On a running driver whose converter answers every sample of the
    channel with a code between [lo] and [hi], [readAverage] takes exactly
    [samples] samples and returns [ESP_OK] with the mean of the codes the
    converter handed to those samples: their sum divided by [samples],
    rounded towards zero, as long as the sum fits an [int]
    ([samples * hi < 2^31]).  The mean lies between [lo] and [hi], and the
    filter state is not touched. *)
Theorem readAverage_mean_within_sample_bounds
    (drv : Driver) (st : t) (ch samples lo hi : Z) (result : ReadResult) :
  isRunning (state_ st) = true ->
  0 < samples -> 0 <= lo -> samples * hi < 2 ^ 31 ->
  samples_between drv (adc_handle_ st) ch lo hi ->
  exists res st',
    readAverage drv st ch samples result = Some (ESP_OK, res, st') /\
    raw_value res =
      sum_samples (samples_from drv (hw_log st) (adc_handle_ st) ch (Z.to_nat samples))
      / samples /\
    lo <= raw_value res <= hi /\
    count_calls is_sample (new_calls st st') = Z.to_nat samples /\
    filter_values_ st' = filter_values_ st.
Proof.
  intros Hrun Hpos Hlo Hmax Hbetween.
  unfold readAverage. rewrite Hrun. cbn [negb].
  destruct (Z.eqb_spec samples 0) as [->|_]; [lia|].
  destruct (readAverage_loop_spec drv (Z.to_nat samples) st ch [])
    as (r & raws & calls & st1 & Hloop & Hlog & Hframe & Hall & Hok & Herr).
  pose proof (readAverage_loop_samples drv (Z.to_nat samples) st ch []
                (fun hist => proj1 (Hbetween hist))) as Hsamples.
  rewrite Hloop in Hsamples. cbn [fst app] in Hsamples.
  injection Hsamples as Hr Hraws. subst r.
  rewrite Hloop. cbn [app].
  destruct Hframe as (_ & Hcfg & _ & _ & Hcal & Hfil).
  destruct (decide (ESP_OK <> ESP_OK)) as [Hne|_]; [contradiction|].
  destruct (Hok eq_refl) as [Hlen Hcount].
  assert (Hbounds : Forall (fun v => lo <= v <= hi) raws).
  { eapply Forall_impl; [exact Hall|]. cbv beta.
    intros v (hist & _ & ->). apply Hbetween. }
  assert (HlenZ : Z.of_nat (length raws) = samples) by (rewrite Hlen; lia).
  pose proof (accumulate_bounds lo hi raws Hlo ltac:(rewrite HlenZ; exact Hmax) Hbounds)
    as Hacc.
  assert (Hsum : accumulate raws = sum_samples raws).
  { unfold accumulate.
    rewrite (accumulate_from_sum lo hi raws 0 Hlo ltac:(lia)
               ltac:(rewrite HlenZ; lia) Hbounds). lia. }
  rewrite HlenZ in Hacc.
  assert (Hhi : lo <= hi) by (destruct (Hbetween []) as [_ ?]; lia).
  unfold udiv32. destruct (Z.eqb_spec samples 0) as [->|_]; [lia|].
  rewrite (to_uint32_small (accumulate raws)) by nia.
  assert (Hq : lo <= accumulate raws / samples <= hi).
  { split; [apply Z.div_le_lower_bound | apply Z.div_le_upper_bound]; lia. }
  rewrite (to_int32_small (accumulate raws / samples)) by nia.
  assert (Hmean : accumulate raws / samples =
                  sum_samples (samples_from drv (hw_log st) (adc_handle_ st) ch
                                 (Z.to_nat samples)) / samples)
    by (rewrite Hsum, Hraws; reflexivity).
  assert (Hnew : forall extra (s : t),
             hw_log s = hw_log st1 ++ extra -> count_calls is_sample extra = 0%nat ->
             count_calls is_sample (new_calls st s) = Z.to_nat samples).
  { intros extra s Hs Hextra. unfold new_calls.
    rewrite Hs, Hlog, <- app_assoc, drop_app_length, count_calls_app, Hcount, Hextra.
    lia. }
  destruct (find_handle (calibration_handles_ st1) ch) as [h|].
  - unfold call. cbv beta iota zeta.
    destruct (decide (ret drv (hw_log st1) (adc_cali_raw_to_voltage h (accumulate raws / samples)) = ESP_OK));
      eexists _, _; (split; [reflexivity|]); cbn;
      (split; [exact Hmean|]); (split; [exact Hq|]); (split; [|exact Hfil]);
      apply (Hnew [adc_cali_raw_to_voltage h (accumulate raws / samples)]); reflexivity.
  - eexists _, _. split; [reflexivity|]. cbn. split; [exact Hmean|].
    split; [exact Hq|]. split; [|exact Hfil].
    apply (Hnew []); [rewrite app_nil_r|]; reflexivity.
Qed.

(** Four samples of a rippling signal: 2000, 2030, 2000 and 2030 average
    to 2015, which none of the samples is. *)
Lemma readAverage_mean_within_sample_bounds_witness :
  exists res st',
    readAverage Scenario.adc_ripple_driver Scenario.adc_running 3 4 Scenario.no_result
      = Some (ESP_OK, res, st') /\
    samples_from Scenario.adc_ripple_driver (hw_log Scenario.adc_running)
      (adc_handle_ Scenario.adc_running) 3 4 = [2000; 2030; 2000; 2030] /\
    raw_value res = 2015 /\
    count_calls is_sample (new_calls Scenario.adc_running st') = 4%nat.
Proof.
  destruct (readAverage_mean_within_sample_bounds
              Scenario.adc_ripple_driver Scenario.adc_running 3 4 2000 2030
              Scenario.no_result)
    as (res & st' & Hread & Hraw & _ & Hcount & _).
  - reflexivity.
  - lia.
  - lia.
  - reflexivity.
  - intros hist. split; [reflexivity|]. cbn [Scenario.adc_ripple_driver out].
    pose proof (Z.mod_pos_bound (Z.of_nat (count_calls is_sample hist)) 2 ltac:(lia)).
    lia.
  - exists res, st'. split; [exact Hread|]. split; [vm_compute; reflexivity|].
    split; [rewrite Hraw; vm_compute; reflexivity | exact Hcount].
Defined.



End AdcAverageFacts.

(** ** ADC: attenuation, calibration, conversion, restart *)

Section AdcOperationFacts.
Import CInt Esp HalBase AdcHal.

(** X12.  [setAttenuation] of a channel that was never configured fails
    with [InvalidArgument] and does nothing.  For a configured channel it
    writes the new attenuation into the table before it configures the
    hardware: the table holds the new value whatever the call returns, also
    when the object is not initialised ([InvalidState]) or the driver refuses
    the channel (the driver's code is returned). *)
Theorem setAttenuation_stores_before_configuring
    (drv : Driver) (st : t) (ch : Z) (att : Attenuation) :
  keyed_by_channel (channels_ st) ->
  (channels_ st !! ch = None ->
   setAttenuation drv st ch att = (ESP_ERR_INVALID_ARG, st)) /\
  (forall cc, channels_ st !! ch = Some cc ->
     channels_ (setAttenuation drv st ch att).2 =
       <[ch := {| channel := ch; attenuation := att;
                  calibration_enable := calibration_enable cc |}]> (channels_ st) /\
     (isInitialized (state_ st) = false ->
      (setAttenuation drv st ch att).1 = ESP_ERR_INVALID_STATE) /\
     (isInitialized (state_ st) = true ->
      ret drv (hw_log st)
          (adc_oneshot_config_channel (adc_handle_ st) ch att (bit_width (config_ st)))
        <> ESP_OK ->
      (setAttenuation drv st ch att).1 =
        ret drv (hw_log st)
            (adc_oneshot_config_channel (adc_handle_ st) ch att (bit_width (config_ st))))).
Proof.
  intros Hk. split.
  - intros Hnone. unfold setAttenuation. rewrite Hnone. reflexivity.
  - intros cc Hcc. unfold setAttenuation. rewrite Hcc. rewrite (Hk _ _ Hcc).
    set (cc' := {| channel := ch; attenuation := att;
                   calibration_enable := calibration_enable cc |}).
    set (st0 := set_channels_ st (<[ch := cc']> (channels_ st))).
    split; [|split].
    + destruct (configureChannel_channels drv st0 cc') as ([H|H] & _); rewrite H.
      * reflexivity.
      * simpl. apply insert_insert_eq.
    + intros Hinit. unfold configureChannel. simpl. rewrite Hinit. reflexivity.
    + intros Hinit Hret. unfold configureChannel, call. simpl. rewrite Hinit. simpl.
      destruct (decide (_ <> ESP_OK)) as [_|Hn]; [reflexivity|contradiction].
Qed.

(** Channel 3 of the running ADC, on a driver that refuses every call: the
    call fails and the stored attenuation has changed. *)
Lemma setAttenuation_stores_before_configuring_witness :
  (setAttenuation Scenario.adc_broken_driver Scenario.adc_running 3 DB_0).1 = ESP_FAIL /\
  channels_ (setAttenuation Scenario.adc_broken_driver Scenario.adc_running 3 DB_0).2 !! 3 =
    Some {| channel := 3; attenuation := DB_0; calibration_enable := false |} /\
  setAttenuation Scenario.adc_broken_driver Scenario.adc_running 7 DB_0 =
    (ESP_ERR_INVALID_ARG, Scenario.adc_running).
Proof.
  assert (Hk : keyed_by_channel (channels_ Scenario.adc_running)).
  { intros k c. change (channels_ Scenario.adc_running) with
      (<[3 := Scenario.channel_3]> (∅ : gmap Z ChannelConfig)).
    rewrite lookup_insert. destruct (decide (3 = k)) as [<-|Hne].
    - intros [= <-]. reflexivity.
    - rewrite lookup_empty. discriminate. }
  destruct (setAttenuation_stores_before_configuring
              Scenario.adc_broken_driver Scenario.adc_running 3 DB_0 Hk) as [_ H3].
  destruct (H3 Scenario.channel_3 eq_refl) as (Htable & _ & Hret).
  split; [|split].
  - rewrite Hret; [reflexivity | reflexivity | discriminate].
  - rewrite Htable. apply lookup_insert_eq.
  - apply (setAttenuation_stores_before_configuring
             Scenario.adc_broken_driver Scenario.adc_running 7 DB_0 Hk). reflexivity.
Defined.

(** X13.  [calibrate] of a channel that was never configured fails with
    [InvalidArgument] and does nothing.  For a configured channel, a
    calibration that fails costs the channel the calibration it had: every
    later successful [read] of the channel is uncalibrated and reports the
    linear estimate.  After a calibration that succeeds, a [read] that reports
    [calibrated] took its voltage from the conversion with the new handle. *)
Theorem calibrate_decides_how_reads_convert
    (drv : Driver) (st : t) (ch : Z) (result : ReadResult) :
  (channels_ st !! ch = None -> calibrate drv st ch = (ESP_ERR_INVALID_ARG, st)) /\
  (is_Some (channels_ st !! ch) ->
   forall r st1 res st2,
     calibrate drv st ch = (r, st1) ->
     read drv st1 ch result = (ESP_OK, res, st2) ->
     (r <> ESP_OK ->
      calibrated res = false /\
      voltage_mv res = linear_estimate (raw_value res) (default_vref (config_ st))) /\
     (r = ESP_OK -> calibrated res = true ->
      exists h hist,
        calibration_handles_ st1 !! ch = Some h /\ h <> 0 /\
        ret drv hist (adc_cali_raw_to_voltage h (raw_value res)) = ESP_OK /\
        voltage_mv res = out drv hist (adc_cali_raw_to_voltage h (raw_value res)))).
Proof.
  split.
  - intros Hnone. unfold calibrate. rewrite Hnone. reflexivity.
  - intros [cc Hcc] r st1 res st2. unfold calibrate. rewrite Hcc. intros Hcal Hread.
    destruct (createCalibrationHandle_frame drv st ch (attenuation cc))
      as (_ & _ & _ & Hcfg & _).
    assert (Hnone : r <> ESP_OK -> find_handle (calibration_handles_ st1) ch = None).
    { intros Hr. revert Hcal. unfold createCalibrationHandle.
      destruct (destroyCalibrationHandle_frame drv st ch) as (_ & _ & _ & _ & _ & Hn & _).
      set (st0 := destroyCalibrationHandle drv st ch) in *.
      unfold call. cbv beta iota zeta.
      destruct (decide (_ <> ESP_OK)); intros [= <- <-]; [exact Hn|contradiction]. }
    rewrite Hcal in Hcfg. simpl in Hcfg.
    revert Hread. unfold read, call.
    destruct (isRunning (state_ st1)); simpl; [|discriminate].
    destruct (decide (_ <> ESP_OK)) as [Hr1|_]; [intros [= E _ _]; contradiction|].
    destruct (find_handle (calibration_handles_ st1) ch) as [h|] eqn:Hh.
    + destruct (decide (_ = ESP_OK)) as [Hv|Hv]; intros [= <- <-]; simpl.
      * split; [intros Hr; specialize (Hnone Hr); discriminate|].
        intros _ _. unfold find_handle in Hh.
        destruct (calibration_handles_ st1 !! ch) as [h'|] eqn:Hl; [|discriminate].
        destruct (decide (h' <> 0)); [|discriminate].
        injection Hh as ->. exists h. eexists. split; [reflexivity|].
        split; [assumption|]. split; [exact Hv|reflexivity].
      * rewrite Hcfg. split; [auto|]. intros _ Hc. discriminate.
    + intros [= <- <-]. simpl. rewrite Hcfg. split; [auto|]. intros _ Hc. discriminate.
Qed.

Lemma calibrate_decides_how_reads_convert_witness :
  exists res st2,
    read Scenario.adc_uncalibrated_driver
         (calibrate Scenario.adc_uncalibrated_driver Scenario.adc_running 3).2 3
         Scenario.no_result = (ESP_OK, res, st2) /\
    calibrated res = false /\ voltage_mv res = 550.
Proof.
  destruct (calibrate Scenario.adc_uncalibrated_driver Scenario.adc_running 3)
    as [r st1] eqn:Hcal.
  destruct (read Scenario.adc_uncalibrated_driver st1 3 Scenario.no_result)
    as [[r2 res] st2] eqn:Hread.
  assert (Hr : r <> ESP_OK) by (vm_compute in Hcal; injection Hcal as <- _; discriminate).
  assert (Hr2 : r2 = ESP_OK).
  { vm_compute in Hcal. injection Hcal as _ <-. vm_compute in Hread.
    injection Hread as <- _ _. reflexivity. }
  subst r2.
  assert (Hraw : raw_value res = 2048).
  { vm_compute in Hcal. injection Hcal as _ <-. vm_compute in Hread.
    injection Hread as <- _. reflexivity. }
  destruct (proj2 (calibrate_decides_how_reads_convert
                     Scenario.adc_uncalibrated_driver Scenario.adc_running 3
                     Scenario.no_result)
              ltac:(eexists; reflexivity) r st1 res st2 Hcal Hread) as [Hfail _].
  destruct (Hfail Hr) as [Hc Hv].
  exists res, st2. simpl. split; [exact Hread|]. split; [exact Hc|].
  rewrite Hv, Hraw. reflexivity.
Defined.

(** X14.  For a channel without a usable calibration handle
    [convertToVoltage] always succeeds, makes no driver call and maps the
    12-bit codes onto [0 .. default_vref] millivolts: 0 to 0, 4095 to
    [default_vref] exactly, and a larger code never to a smaller voltage. *)
Theorem convertToVoltage_uncalibrated_range
    (drv : Driver) (st : t) (ch raw raw' mv mv' : Z) :
  find_handle (calibration_handles_ st) ch = None ->
  0 <= default_vref (config_ st) -> 4095 * default_vref (config_ st) < 2 ^ 32 ->
  0 <= raw <= raw' -> raw' <= 4095 ->
  exists v v',
    convertToVoltage drv st ch raw mv = (ESP_OK, v, st) /\
    convertToVoltage drv st ch raw' mv' = (ESP_OK, v', st) /\
    0 <= v <= v' /\ v' <= default_vref (config_ st) /\
    (raw = 0 -> v = 0) /\ (raw' = 4095 -> v' = default_vref (config_ st)).
Proof.
  intros Hnone Hv Hmax Hraw Hraw'. unfold convertToVoltage. rewrite Hnone.
  set (vref := default_vref (config_ st)) in *.
  eexists _, _. split; [reflexivity|]. split; [reflexivity|].
  rewrite !linear_estimate_exact by nia.
  split; [split|split; [|split]].
  - apply Z.div_pos; nia.
  - apply Z.div_le_mono; nia.
  - apply Z.div_le_upper_bound; nia.
  - intros ->. reflexivity.
  - intros ->. rewrite Z.mul_comm. apply Z.div_mul. lia.
Qed.

Lemma convertToVoltage_uncalibrated_range_witness :
  convertToVoltage Scenario.adc_driver Scenario.adc_running 3 0 0
    = (ESP_OK, 0, Scenario.adc_running) /\
  convertToVoltage Scenario.adc_driver Scenario.adc_running 3 4095 0
    = (ESP_OK, 1100, Scenario.adc_running).
Proof.
  destruct (convertToVoltage_uncalibrated_range
              Scenario.adc_driver Scenario.adc_running 3 0 4095 0 0)
    as (v & v' & H1 & H2 & _ & _ & H0 & Hfull);
    [reflexivity | simpl; lia | simpl; lia | lia | lia |].
  rewrite H1, H2, (H0 eq_refl), (Hfull eq_refl). split; reflexivity.
Defined.

(** X15.  [reset] empties the filter bank: after [reset] and [start],
    in whatever state and with whatever filter history the object was, the
    driver is running and the first [readFiltered] of a channel returns the
    sample of [read] unfiltered and seeds the filter with it. *)
Theorem reset_restarts_filter
    (drv : Driver) (st : t) (ch : Z) (alpha : Float32.float)
    (result res : ReadResult) (st1 : t) :
  let st0 := (start (reset st).2).2 in
  Float32.out_of_range alpha = false ->
  read drv st0 ch result = (ESP_OK, res, st1) ->
  isRunning (state_ st0) = true /\
  channels_ st0 = channels_ st /\
  calibration_handles_ st0 = calibration_handles_ st /\
  readFiltered drv st0 ch alpha result =
    Some (ESP_OK, res,
          set_filter_values_ st1 {[ch := Float32.of_int (raw_value res)]}).
Proof.
  intros st0 Halpha Hread.
  assert (Hst0 : st0 = set_state_ (set_filter_values_ st ∅) RUNNING).
  { unfold st0, reset, start. simpl. rewrite !setState_eq. simpl.
    rewrite ?setState_eq. reflexivity. }
  assert (Hrun : isRunning (state_ st0) = true) by (rewrite Hst0; reflexivity).
  split; [exact Hrun|]. split; [rewrite Hst0; reflexivity|].
  split; [rewrite Hst0; reflexivity|].
  unfold readFiltered. rewrite Hrun, Halpha, Hread. simpl.
  destruct (read_frame _ _ _ _ _ _ _ Hread) as (_ & _ & _ & _ & Hf).
  destruct (decide (ESP_OK <> ESP_OK)) as [Hne|_]; [contradiction|].
  rewrite Hf, Hst0. simpl. rewrite lookup_empty. reflexivity.
Qed.

Lemma reset_restarts_filter_witness :
  filter_values_ Scenario.adc_seeded !! 3 = Some (Float32.of_int 2048) /\
  exists st',
    readFiltered Scenario.adc_driver (start (reset Scenario.adc_seeded).2).2 3
      Scenario.one_half Scenario.no_result
    = Some (ESP_OK, {| raw_value := 2048; voltage_mv := 550; calibrated := false |}, st').
Proof.
  split; [vm_compute; reflexivity|].
  destruct (read Scenario.adc_driver (start (reset Scenario.adc_seeded).2).2 3
              Scenario.no_result) as [[r res] st1] eqn:Hread.
  assert (Hr : r = ESP_OK /\
               res = {| raw_value := 2048; voltage_mv := 550; calibrated := false |}).
  { vm_compute in Hread. injection Hread as <- <- _. split; reflexivity. }
  destruct Hr as [-> ->].
  destruct (reset_restarts_filter Scenario.adc_driver Scenario.adc_seeded 3
              Scenario.one_half Scenario.no_result _ st1 eq_refl Hread)
    as (_ & _ & _ & Hf).
  eexists. exact Hf.
Defined.

End AdcOperationFacts.

(** ** I2C: plain reads, register writes, the 8- and 16-bit helpers *)

Section I2cRegisterFacts.
Import CInt Esp HalBase I2cHal.

Ltac run_transaction Hrun Hdrv :=
  unfold link_create; rewrite Hrun, (proj1 Hdrv); cbv beta iota zeta delta [negb];
  repeat (rewrite queue_op_ok by exact Hdrv;
          cbn [set_hw_log hw_log state_ config_ driver_installed_]);
  cbv beta iota zeta;
  (destruct (decide (ESP_OK <> ESP_OK)) as [Hne|_]; [contradiction|]);
  unfold execute, call, after_transaction, transaction_ret, transaction_received,
    build_calls;
  cbn [set_hw_log hw_log state_ config_ driver_installed_ List.map];
  cbv beta iota zeta;
  repeat rewrite <- app_assoc; cbn [app List.map].

Lemma read_built (drv : Driver) (st : t) (dev : Z) (data : list Z) (length : nat)
    (timeout : Z) :
  isRunning (state_ st) = true -> builds_links drv -> length <> 0%nat ->
  let link := read_link dev length in
  let r := transaction_ret drv st link timeout in
  read drv st dev data length timeout =
    (r,
     if decide (r <> ESP_OK) then []
     else store (transaction_received drv st link timeout) (vector_resize length data),
     after_transaction st link timeout).
Proof.
  intros Hrun Hdrv Hlen. unfold read_link, read.
  destruct (decide (length = 0%nat)) as [|_]; [contradiction|].
  destruct (decide (1 < length)%nat); run_transaction Hrun Hdrv;
    (destruct (decide (_ <> ESP_OK)) as [HR|HR];
     [reflexivity | apply dec_stable in HR; rewrite HR; reflexivity]).
Qed.

Lemma readRegister_built (drv : Driver) (st : t) (dev reg : Z) (data : list Z)
    (length : nat) (timeout : Z) :
  isRunning (state_ st) = true -> builds_links drv -> length <> 0%nat ->
  let link := register_read_link dev reg length in
  let r := transaction_ret drv st link timeout in
  readRegister drv st dev reg data length timeout =
    (r,
     if decide (r <> ESP_OK) then []
     else store (transaction_received drv st link timeout) (vector_resize length data),
     after_transaction st link timeout).
Proof.
  intros Hrun Hdrv Hlen. unfold register_read_link, readRegister.
  destruct (decide (length = 0%nat)) as [|_]; [contradiction|].
  destruct (decide (1 < length)%nat); run_transaction Hrun Hdrv;
    (destruct (decide (_ <> ESP_OK)) as [HR|HR];
     [reflexivity | apply dec_stable in HR; rewrite HR; reflexivity]).
Qed.

Lemma writeRegister_built (drv : Driver) (st : t) (dev reg : Z) (data : list Z)
    (timeout : Z) :
  isRunning (state_ st) = true -> builds_links drv ->
  let link := register_write_link dev reg data in
  writeRegister drv st dev reg data timeout =
    (transaction_ret drv st link timeout, after_transaction st link timeout).
Proof.
  intros Hrun Hdrv. unfold register_write_link, writeRegister.
  destruct (decide (data <> [])); run_transaction Hrun Hdrv;
    (destruct (decide (_ <> ESP_OK)) as [HR|HR];
     [reflexivity | apply dec_stable in HR; rewrite HR; reflexivity]).
Qed.

Lemma write_built (drv : Driver) (st : t) (dev : Z) (data : list Z) (timeout : Z) :
  isRunning (state_ st) = true -> builds_links drv -> data <> [] ->
  write drv st dev data timeout =
    (transaction_ret drv st (write_link dev data) timeout,
     after_transaction st (write_link dev data) timeout).
Proof.
  intros Hrun Hdrv Hdata. unfold write_link, write.
  destruct (decide (data = [])) as [|_]; [contradiction|].
  run_transaction Hrun Hdrv.
  destruct (decide (_ <> ESP_OK)) as [HR|HR];
    [reflexivity | apply dec_stable in HR; rewrite HR; reflexivity].
Qed.

Lemma transactions_after_transaction (drv : Driver) (st : t) (link : list Op)
    (timeout : Z) :
  transactions drv (hw_log st) (new_calls st (after_transaction st link timeout)) =
    [(port (config_ st), link, timeout, transaction_ret drv st link timeout)].
Proof.
  unfold new_calls, after_transaction, transaction_ret.
  cbn [hw_log set_hw_log]. rewrite drop_app_length, transactions_app.
  assert (Hnone : forall hist l, transactions drv hist (build_calls l) = []).
  { intros hist l. unfold build_calls, transactions. cbn [replay omap fst].
    generalize (hist ++ [i2c_cmd_link_create]). induction l as [|op l IH]; intros h.
    - reflexivity.
    - cbn [map replay omap fst]. apply IH. }
  rewrite Hnone. reflexivity.
Qed.

(** X16.  [writeRegister] on a running driver executes exactly one bus
    transaction: START, address+WRITE, the register byte, the payload bytes,
    STOP.  Unlike [write] it accepts an empty payload, which sends the
    register byte alone.  The lifecycle state and the configuration are not
    touched. *)
Theorem writeRegister_is_one_transaction
    (drv : Driver) (st : t) (dev reg : Z) (data : list Z) (timeout : Z) :
  isRunning (state_ st) = true -> builds_links drv ->
  exists r st',
    writeRegister drv st dev reg data timeout = (r, st') /\
    transactions drv (hw_log st) (new_calls st st') =
      [(port (config_ st), register_write_link dev reg data, timeout, r)] /\
    wire (register_write_link dev reg data) =
      [START; SEND (address_byte dev I2C_MASTER_WRITE); SEND reg]
      ++ map SEND data ++ [STOP] /\
    write drv st dev [] timeout = (ESP_ERR_INVALID_ARG, st) /\
    state_ st' = state_ st /\ config_ st' = config_ st.
Proof.
  intros Hrun Hdrv. eexists _, _.
  split; [apply writeRegister_built; assumption|].
  split; [apply transactions_after_transaction|].
  split; [|split; [|split; reflexivity]].
  - unfold register_write_link, wire. destruct (decide (data <> [])) as [Hd|Hd].
    + simpl. rewrite ?app_nil_r. reflexivity.
    + apply dec_stable in Hd. subst data. reflexivity.
  - unfold write. rewrite Hrun. reflexivity.
Qed.

(** Setting the register pointer of the device at 0x68 to 0x75. *)
Lemma writeRegister_is_one_transaction_witness :
  exists st',
    writeRegister Scenario.i2c_driver Scenario.i2c_running 0x68 0x75 [] 1000
      = (ESP_OK, st') /\
    wire (register_write_link 0x68 0x75 []) = [START; SEND 0xD0; SEND 0x75; STOP].
Proof.
  destruct (writeRegister_is_one_transaction
              Scenario.i2c_driver Scenario.i2c_running 0x68 0x75 [] 1000)
    as (r & st' & Hw & _ & Hwire & _); [reflexivity | split; intros; reflexivity |].
  exists st'. split; [|rewrite Hwire; reflexivity].
  vm_compute in Hw. injection Hw as <- <-. vm_compute. reflexivity.
Defined.

(** X17.  [read] with [length = 0] fails with [InvalidArgument] on a
    running driver and makes no driver call.  With [length >= 1] it executes
    exactly one bus transaction: START, address+READ, [length - 1] bytes
    answered with ACK, a last byte answered with NACK, STOP. *)
Theorem read_is_one_transaction
    (drv : Driver) (st : t) (dev : Z) (data : list Z) (length : nat) (timeout : Z) :
  isRunning (state_ st) = true ->
  read drv st dev data 0 timeout = (ESP_ERR_INVALID_ARG, data, st) /\
  (builds_links drv -> length <> 0%nat ->
   exists r data' st',
     read drv st dev data length timeout = (r, data', st') /\
     transactions drv (hw_log st) (new_calls st st') =
       [(port (config_ st), read_link dev length, timeout, r)] /\
     wire (read_link dev length) =
       [START; SEND (address_byte dev I2C_MASTER_READ)]
       ++ replicate (length - 1) RECV_ACK ++ [RECV_NACK; STOP]).
Proof.
  intros Hrun. split.
  - unfold read. rewrite Hrun. reflexivity.
  - intros Hdrv Hlen. eexists _, _, _.
    split; [apply read_built; assumption|].
    split; [apply transactions_after_transaction|].
    unfold read_link, wire. destruct (decide (1 < length)%nat) as [Hgt|Hle].
    + reflexivity.
    + assert (length = 1%nat) as -> by lia. reflexivity.
Qed.

Lemma read_is_one_transaction_witness :
  exists st',
    read Scenario.i2c_driver Scenario.i2c_running 0x68 [] 3 1000
      = (ESP_OK, [0xAB; 0xAB; 0xAB], st') /\
    wire (read_link 0x68 3) = [START; SEND 0xD1; RECV_ACK; RECV_ACK; RECV_NACK; STOP].
Proof.
  destruct (read_is_one_transaction
              Scenario.i2c_driver Scenario.i2c_running 0x68 [] 3 1000 eq_refl)
    as (_ & Hread).
  destruct Hread as (r & data' & st' & Hr & _ & Hwire);
    [split; intros; reflexivity | discriminate |].
  exists st'. split; [|rewrite Hwire; reflexivity].
  vm_compute in Hr. injection Hr as <- <- <-. vm_compute. reflexivity.
Defined.

Lemma store_length (bytes data : list Z) : length (store bytes data) = length data.
Proof.
  unfold store. rewrite length_take, length_app, length_map, length_drop. lia.
Qed.

(** The end of [read] and [readRegister], from the built link on, when the
    function returns [ESP_OK]. *)
Lemma finish_read_ok (drv : Driver) (b : esp_err_t * list Op * t)
    (data : list Z) (timeout : Z) (data' : list Z) (st' : t) :
  (let '(r, link, st) := b in
   if decide (r <> ESP_OK) then
     let '(_, st) := call drv st i2c_cmd_link_delete in (r, data, st)
   else
     let '(r, bytes, st) := execute drv st link timeout in
     if decide (r <> ESP_OK) then (r, [], st) else (ESP_OK, store bytes data, st))
  = (ESP_OK, data', st') ->
  length data' = length data.
Proof.
  destruct b as [[r0 link] st2].
  destruct (decide (r0 <> ESP_OK)) as [Hr|Hr].
  - unfold call. intros [= E _ _]. contradiction.
  - unfold execute, call. cbv beta iota zeta.
    destruct (decide (_ <> ESP_OK)) as [Hr1|Hr1].
    + intros [= E _ _]. contradiction.
    + intros [= <- _]. apply store_length.
Qed.

(** X18.  When [read] or [readRegister] returns [ESP_OK], the vector
    handed back holds exactly [length] bytes, whatever it held before, and
    [length] is not 0. *)
Theorem successful_read_returns_length_bytes
    (drv : Driver) (st : t) (dev reg : Z) (data : list Z) (length : nat) (timeout : Z) :
  (forall data' st',
     read drv st dev data length timeout = (ESP_OK, data', st') ->
     List.length data' = length /\ length <> 0%nat) /\
  (forall data' st',
     readRegister drv st dev reg data length timeout = (ESP_OK, data', st') ->
     List.length data' = length /\ length <> 0%nat).
Proof.
  assert (Hresize : List.length (vector_resize length data) = length)
    by apply length_resize.
  split; intros data' st'.
  - unfold read, link_create.
    destruct (isRunning (state_ st)); cbv beta iota zeta delta [negb]; [|discriminate].
    destruct (decide (length = 0%nat)) as [|Hlen]; [discriminate|].
    destruct (alloc drv (hw_log st)); [|discriminate].
    intros H. split; [|exact Hlen].
    transitivity (List.length (vector_resize length data)); [|exact Hresize].
    destruct (decide (1 < length)%nat);
      match type of H with
      | context [queue_op ?d ?x i2c_master_stop] =>
          exact (finish_read_ok d (queue_op d x i2c_master_stop) _ timeout _ _ H)
      end.
  - unfold readRegister, link_create.
    destruct (isRunning (state_ st)); cbv beta iota zeta delta [negb]; [|discriminate].
    destruct (decide (length = 0%nat)) as [|Hlen]; [discriminate|].
    destruct (alloc drv (hw_log st)); [|discriminate].
    intros H. split; [|exact Hlen].
    transitivity (List.length (vector_resize length data)); [|exact Hresize].
    destruct (decide (1 < length)%nat);
      match type of H with
      | context [queue_op ?d ?x i2c_master_stop] =>
          exact (finish_read_ok d (queue_op d x i2c_master_stop) _ timeout _ _ H)
      end.
Qed.

Lemma word16_bytes (hi lo : Z) :
  0 <= hi < 256 -> 0 <= lo < 256 -> word16 hi lo = hi * 256 + lo.
Proof.
  intros Hhi Hlo. unfold word16, to_uint16.
  assert (Hland : Z.land (Z.shiftl hi 8) lo = 0).
  { apply Z.bits_inj'. intros n Hn. rewrite Z.land_spec, Z.bits_0.
    destruct (Z.lt_ge_cases n 8) as [Hlt|Hge].
    - rewrite Z.shiftl_spec_low by exact Hlt. reflexivity.
    - rewrite <- (Z.mod_small lo (2 ^ 8)) by (change (2 ^ 8) with 256; lia).
      rewrite Z.mod_pow2_bits_high by lia. apply andb_false_r. }
  rewrite <- Z.lxor_lor by exact Hland.
  rewrite <- Z.add_nocarry_lxor by exact Hland.
  rewrite Z.shiftl_mul_pow2 by lia. change (2 ^ 8) with 256.
  apply Z.mod_small. change (2 ^ 16) with 65536. lia.
Qed.

Lemma bytes16_split (value : Z) (big_endian : bool) :
  0 <= value < 65536 ->
  bytes16 value big_endian =
    (if big_endian then [value / 256; value mod 256] else [value mod 256; value / 256]) /\
  0 <= value / 256 < 256 /\ 0 <= value mod 256 < 256.
Proof.
  intros Hv.
  assert (Hhi : 0 <= value / 256 < 256).
  { split; [apply Z.div_pos; lia | apply Z.div_lt_upper_bound; lia]. }
  assert (Hlo : 0 <= value mod 256 < 256) by (apply Z.mod_pos_bound; lia).
  split; [|split; assumption].
  unfold bytes16. change 255 with (Z.ones 8).
  rewrite !Z.land_ones, Z.shiftr_div_pow2 by lia. change (2 ^ 8) with 256.
  rewrite (Z.mod_small (value / 256)) by exact Hhi. reflexivity.
Qed.

(** X19.  The 16-bit register helpers agree on the byte order.  For a
    [uint16_t] value, [writeRegister16] sends the register byte followed by
    the high byte then the low byte when [big_endian] is set, low then high
    otherwise; and when the first two bytes the device answers
    [readRegister16] with are the two bytes [writeRegister16] sends for a
    value, in the same byte order, [readRegister16] returns that value. *)
Theorem register16_round_trip
    (drv : Driver) (st : t) (dev reg value old : Z) (big_endian : bool) (timeout : Z) :
  isRunning (state_ st) = true -> builds_links drv ->
  0 <= value < 65536 ->
  (exists r st',
     writeRegister16 drv st dev reg value big_endian timeout = (r, st') /\
     (transactions drv (hw_log st) (new_calls st st')).*1.*1.*2 =
       [register_write_link dev reg (bytes16 value big_endian)] /\
     wire (register_write_link dev reg (bytes16 value big_endian)) =
       [START; SEND (address_byte dev I2C_MASTER_WRITE); SEND reg]
       ++ (if big_endian
           then [SEND (value / 256); SEND (value mod 256)]
           else [SEND (value mod 256); SEND (value / 256)])
       ++ [STOP]) /\
  (transaction_ret drv st (register_read_link dev reg 2) timeout = ESP_OK ->
   take 2 (transaction_received drv st (register_read_link dev reg 2) timeout) =
     bytes16 value big_endian ->
   exists st',
     readRegister16 drv st dev reg old big_endian timeout = (ESP_OK, value, st')).
Proof.
  intros Hrun Hdrv Hv.
  destruct (bytes16_split value big_endian Hv) as (Hbytes & Hhi & Hlo).
  split.
  - unfold writeRegister16. eexists _, _.
    split; [apply writeRegister_built; assumption|].
    split; [rewrite transactions_after_transaction; reflexivity|].
    rewrite Hbytes. unfold register_write_link, wire.
    destruct big_endian; reflexivity.
  - intros Hret Hrecv. unfold readRegister16.
    rewrite readRegister_built by (assumption || discriminate).
    cbv zeta. rewrite Hret. rewrite Hbytes in Hrecv.
    destruct (decide (ESP_OK <> ESP_OK)) as [Hne|_]; [contradiction|].
    destruct (decide (ESP_OK = ESP_OK)) as [_|Hne]; [|contradiction].
    assert (Hjoin : value / 256 * 256 + value mod 256 = value).
    { rewrite (Z.div_mod value 256) at 3 by lia. lia. }
    eexists.
    destruct (transaction_received drv st (register_read_link dev reg 2) timeout)
      as [|x [|y rest]];
      destruct big_endian; try discriminate Hrecv;
      injection Hrecv as -> ->; unfold store, vector_resize;
      cbn [map length resize drop app take replicate];
      rewrite !to_uint8_small by assumption;
      rewrite word16_bytes by assumption; rewrite Hjoin; reflexivity.
Qed.

(** The register pair 0xABAB read back from the mock device at 0x68. *)
Lemma register16_round_trip_witness :
  exists st',
    readRegister16 Scenario.i2c_driver Scenario.i2c_running 0x68 0x3B 0 true 1000
      = (ESP_OK, 0xABAB, st').
Proof.
  destruct (register16_round_trip Scenario.i2c_driver Scenario.i2c_running
              0x68 0x3B 0xABAB 0 true 1000) as [_ Hread].
  - reflexivity.
  - split; intros; reflexivity.
  - lia.
  - apply Hread; vm_compute; reflexivity.
Defined.

(** X20.  The 8-bit register helpers: [writeRegister8] sends the register
    byte followed by the value, and [readRegister8] returns the byte the
    device answered with; when the transaction fails the caller's variable
    keeps its value. *)
Theorem register8_round_trip
    (drv : Driver) (st : t) (dev reg value old : Z) (timeout : Z) :
  isRunning (state_ st) = true -> builds_links drv ->
  0 <= value < 256 ->
  (exists r st',
     writeRegister8 drv st dev reg value timeout = (r, st') /\
     (transactions drv (hw_log st) (new_calls st st')).*1.*1.*2 =
       [register_write_link dev reg [value]] /\
     wire (register_write_link dev reg [value]) =
       [START; SEND (address_byte dev I2C_MASTER_WRITE); SEND reg; SEND value; STOP]) /\
  (transaction_ret drv st (register_read_link dev reg 1) timeout = ESP_OK ->
   take 1 (transaction_received drv st (register_read_link dev reg 1) timeout)
     = [value] ->
   exists st', readRegister8 drv st dev reg old timeout = (ESP_OK, value, st')) /\
  (transaction_ret drv st (register_read_link dev reg 1) timeout <> ESP_OK ->
   exists st',
     readRegister8 drv st dev reg old timeout =
       (transaction_ret drv st (register_read_link dev reg 1) timeout, old, st')).
Proof.
  intros Hrun Hdrv Hv. split; [|split].
  - unfold writeRegister8. eexists _, _.
    split; [apply writeRegister_built; assumption|].
    split; [rewrite transactions_after_transaction; reflexivity|]. reflexivity.
  - intros Hret Hrecv. unfold readRegister8.
    rewrite readRegister_built by (assumption || discriminate).
    cbv zeta. rewrite Hret.
    destruct (decide (ESP_OK <> ESP_OK)) as [Hne|_]; [contradiction|].
    destruct (decide (ESP_OK = ESP_OK)) as [_|Hne]; [|contradiction].
    eexists.
    destruct (transaction_received drv st (register_read_link dev reg 1) timeout)
      as [|x rest]; [discriminate Hrecv|].
    injection Hrecv as ->. unfold store, vector_resize.
    cbn [map length resize drop app take replicate].
    rewrite to_uint8_small by assumption. reflexivity.
  - intros Hret. unfold readRegister8.
    rewrite readRegister_built by (assumption || discriminate).
    cbv zeta.
    destruct (decide (_ <> ESP_OK)) as [_|Hn]; [|contradiction].
    eexists. reflexivity.
Qed.

(** The identification register 0x75 of the mock device at 0x68, and of the
    absent device at 0x50. *)
Lemma register8_round_trip_witness :
  (exists st',
     readRegister8 Scenario.i2c_driver Scenario.i2c_running 0x68 0x75 0 1000
       = (ESP_OK, 0xAB, st')) /\
  (exists st',
     readRegister8 Scenario.i2c_driver Scenario.i2c_running 0x50 0x75 0x11 1000
       = (ESP_FAIL, 0x11, st')).
Proof.
  split.
  - destruct (register8_round_trip Scenario.i2c_driver Scenario.i2c_running
                0x68 0x75 0xAB 0 1000) as (_ & Hread & _).
    + reflexivity.
    + split; intros; reflexivity.
    + lia.
    + apply Hread; vm_compute; reflexivity.
  - destruct (register8_round_trip Scenario.i2c_driver Scenario.i2c_running
                0x50 0x75 0 0x11 1000) as (_ & _ & Hfail).
    + reflexivity.
    + split; intros; reflexivity.
    + lia.
    + assert (Hne : transaction_ret Scenario.i2c_driver Scenario.i2c_running
                      (register_read_link 0x50 0x75 1) 1000 <> ESP_OK)
        by (vm_compute; discriminate).
      destruct (Hfail Hne) as [st' H].
      exists st'. rewrite H. reflexivity.
Defined.

End I2cRegisterFacts.

(** ** I2C: the driver installation and the lifecycle *)

Section I2cLifecycleFacts.
Import CInt Esp HalBase I2cHal.

Lemma only_calls_refl (st : t) : only_calls st st.
Proof. repeat split. exists []. rewrite app_nil_r. reflexivity. Qed.

Lemma only_calls_log (st st' : t) (c : Call) :
  only_calls st st' -> only_calls st (set_hw_log st' (hw_log st' ++ [c])).
Proof.
  intros (Hs & Hc & Hd & calls & Hl). repeat split; try assumption.
  exists (calls ++ [c]). cbn [hw_log set_hw_log]. rewrite Hl, app_assoc. reflexivity.
Qed.

Lemma queue_op_only_calls (drv : Driver) (st : t) (b : esp_err_t * list Op * t) (op : Op) :
  only_calls st b.2 -> only_calls st (queue_op drv b op).2.
Proof.
  destruct b as [[r link] st1]. unfold queue_op, call. cbn [snd].
  apply only_calls_log.
Qed.

(** The end of a bus operation, from the built link on: the link is
    deleted unexecuted, or executed and deleted. *)
Lemma finish_only_calls (drv : Driver) (st : t) (b : esp_err_t * list Op * t)
    (timeout : Z) :
  only_calls st b.2 ->
  only_calls st
    (let '(r, link, st) := b in
     if decide (r <> ESP_OK) then (call drv st i2c_cmd_link_delete).2
     else (execute drv st link timeout).2).
Proof.
  destruct b as [[r link] st1]. cbn [snd]. intros H.
  destruct (decide (r <> ESP_OK)).
  - unfold call. cbn [snd]. apply only_calls_log, H.
  - unfold execute, call. cbn [snd]. apply only_calls_log, only_calls_log, H.
Qed.

Ltac finish_bus_operation st :=
  match goal with
  | |- context [queue_op ?d ?x i2c_master_stop] =>
      let H := fresh "H" in
      assert (H : only_calls st (queue_op d x i2c_master_stop).2)
        by (repeat apply queue_op_only_calls; apply only_calls_log, only_calls_refl);
      destruct (queue_op d x i2c_master_stop) as [[? ?] ?]; cbn [snd] in H;
      unfold execute, call; cbv beta iota zeta;
      repeat (destruct (decide _)); cbn [snd];
      repeat apply only_calls_log; exact H
  end.

Lemma write_only_calls (drv : Driver) (st : t) (dev : Z) (data : list Z) (timeout : Z) :
  only_calls st (write drv st dev data timeout).2.
Proof.
  unfold write, link_create.
  destruct (isRunning (state_ st)); cbv beta iota zeta delta [negb];
    [|apply only_calls_refl].
  destruct (decide (data = [])); [apply only_calls_refl|].
  destruct (alloc drv (hw_log st)); [|apply only_calls_log, only_calls_refl].
  finish_bus_operation st.
Qed.

Lemma read_only_calls (drv : Driver) (st : t) (dev : Z) (data : list Z) (length : nat)
    (timeout : Z) :
  only_calls st (read drv st dev data length timeout).2.
Proof.
  unfold read, link_create.
  destruct (isRunning (state_ st)); cbv beta iota zeta delta [negb];
    [|apply only_calls_refl].
  destruct (decide (length = 0%nat)); [apply only_calls_refl|].
  destruct (alloc drv (hw_log st)); [|apply only_calls_log, only_calls_refl].
  destruct (decide (1 < length)%nat); finish_bus_operation st.
Qed.

Lemma writeRegister_only_calls (drv : Driver) (st : t) (dev reg : Z) (data : list Z)
    (timeout : Z) :
  only_calls st (writeRegister drv st dev reg data timeout).2.
Proof.
  unfold writeRegister, link_create.
  destruct (isRunning (state_ st)); cbv beta iota zeta delta [negb];
    [|apply only_calls_refl].
  destruct (alloc drv (hw_log st)); [|apply only_calls_log, only_calls_refl].
  destruct (decide (data <> [])); finish_bus_operation st.
Qed.

Lemma readRegister_only_calls (drv : Driver) (st : t) (dev reg : Z) (data : list Z)
    (length : nat) (timeout : Z) :
  only_calls st (readRegister drv st dev reg data length timeout).2.
Proof.
  unfold readRegister, link_create.
  destruct (isRunning (state_ st)); cbv beta iota zeta delta [negb];
    [|apply only_calls_refl].
  destruct (decide (length = 0%nat)); [apply only_calls_refl|].
  destruct (alloc drv (hw_log st)); [|apply only_calls_log, only_calls_refl].
  destruct (decide (1 < length)%nat); finish_bus_operation st.
Qed.

Lemma deviceExists_only_calls (drv : Driver) (st : t) (dev timeout : Z) :
  only_calls st (deviceExists drv st dev timeout).2.
Proof.
  unfold deviceExists, link_create.
  destruct (isRunning (state_ st)); cbv beta iota zeta delta [negb];
    [|apply only_calls_refl].
  destruct (alloc drv (hw_log st)); [|apply only_calls_log, only_calls_refl].
  finish_bus_operation st.
Qed.

Lemma only_calls_trans (a b c : t) : only_calls a b -> only_calls b c -> only_calls a c.
Proof.
  intros (H1 & H2 & H3 & l1 & H4) (G1 & G2 & G3 & l2 & G4).
  repeat split; try congruence. exists (l1 ++ l2). rewrite G4, H4, app_assoc. reflexivity.
Qed.

Lemma scanBus_loop_only_calls (drv : Driver) (fuel : nat) :
  forall (st : t) (addr : Z) (found found' : list Z) (st' : t),
    scanBus_loop drv fuel st addr found = Some (found', st') -> only_calls st st'.
Proof.
  induction fuel as [|fuel IH]; intros st addr found found' st'; cbn [scanBus_loop].
  - destruct (addr <=? 0x77); [discriminate|]. intros [= _ <-]. apply only_calls_refl.
  - destruct (addr <=? 0x77); [|intros [= _ <-]; apply only_calls_refl].
    pose proof (deviceExists_only_calls drv st addr (pdMS_TO_TICKS drv 100)) as Hd.
    destruct (deviceExists drv st addr (pdMS_TO_TICKS drv 100)) as [present st1].
    cbn [snd] in Hd. intros Hloop. apply IH in Hloop.
    eapply only_calls_trans; eassumption.
Qed.

(** X21.  Bus traffic never alters the object: [write], [read],
    [writeRegister], [readRegister], [deviceExists] and [scanBus] leave the
    lifecycle state, the configuration and the installation flag as they
    found them, whatever the driver answers; they only add driver calls. *)
Theorem bus_operations_only_make_calls
    (drv : Driver) (st : t) (dev reg : Z) (data : list Z) (length : nat) (timeout : Z) :
  only_calls st (write drv st dev data timeout).2 /\
  only_calls st (read drv st dev data length timeout).2 /\
  only_calls st (writeRegister drv st dev reg data timeout).2 /\
  only_calls st (readRegister drv st dev reg data length timeout).2 /\
  only_calls st (deviceExists drv st dev timeout).2 /\
  (forall r found st', scanBus drv st data = Some (r, found, st') -> only_calls st st').
Proof.
  split; [apply write_only_calls|]. split; [apply read_only_calls|].
  split; [apply writeRegister_only_calls|]. split; [apply readRegister_only_calls|].
  split; [apply deviceExists_only_calls|].
  intros r found st'. unfold scanBus.
  destruct (isRunning (state_ st)); cbv beta iota zeta delta [negb];
    [|intros [= _ _ <-]; apply only_calls_refl].
  destruct (scanBus_loop drv 256 st 8 []) as [[f s]|] eqn:Hloop; [|discriminate].
  intros [= _ _ <-]. eapply scanBus_loop_only_calls, Hloop.
Qed.

Lemma configure_outcome (drv : Driver) (st : t) :
  isInitialized (state_ st) = true ->
  exists r st',
    configure drv st = (r, st') /\
    config_ st' = config_ st /\
    (r = ESP_OK ->
     driver_installed_ st' = true /\ state_ st' = state_ st /\
     new_calls st st' =
       (if driver_installed_ st then [i2c_driver_delete (port (config_ st))] else [])
       ++ [i2c_param_config (port (config_ st)) (config_ st);
           i2c_driver_install (port (config_ st)) (mode (config_ st))]) /\
    (r <> ESP_OK -> driver_installed_ st' = false /\ state_ st' = ERROR).
Proof.
  intros Hinit. unfold configure, call. rewrite Hinit. cbv beta iota zeta delta [negb].
  set (st0 := if driver_installed_ st
              then set_driver_installed_
                     (set_hw_log st (hw_log st ++ [i2c_driver_delete (port (config_ st))]))
                     false
              else st).
  assert (H0 : state_ st0 = state_ st /\ config_ st0 = config_ st /\
               driver_installed_ st0 = false /\
               hw_log st0 = hw_log st ++
                 (if driver_installed_ st
                  then [i2c_driver_delete (port (config_ st))] else [])).
  { unfold st0. destruct (driver_installed_ st) eqn:Hd; cbn; rewrite ?app_nil_r; auto. }
  destruct H0 as (Hs & Hc & Hd & Hl).
  replace (if driver_installed_ st
           then let '(_, st1) := (ret drv (hw_log st) (i2c_driver_delete (port (config_ st))),
                                  set_hw_log st
                                    (hw_log st ++ [i2c_driver_delete (port (config_ st))]))
                in set_driver_installed_ st1 false
           else st) with st0 by (unfold st0; destruct (driver_installed_ st); reflexivity).
  clearbody st0. cbv beta iota zeta.
  destruct (decide (_ <> ESP_OK)) as [H1|H1].
  { eexists _, _. split; [reflexivity|]. cbn. split; [exact Hc|].
    split; [intros E; contradiction|]. intros _. split; [exact Hd|apply setState_eq]. }
  cbn [set_hw_log hw_log state_ config_ driver_installed_].
  destruct (decide (_ <> ESP_OK)) as [H2|H2].
  { eexists _, _. split; [reflexivity|]. cbn. split; [exact Hc|].
    split; [intros E; contradiction|]. intros _. split; [exact Hd|apply setState_eq]. }
  eexists _, _. split; [reflexivity|]. cbn. split; [exact Hc|].
  split; [|intros E; contradiction]. intros _. split; [reflexivity|]. split; [exact Hs|].
  unfold new_calls. cbn. rewrite Hl, Hc. repeat rewrite <- app_assoc.
  rewrite drop_app_length. reflexivity.
Qed.



Lemma traffic_only_refl (st : t) : traffic_only st st.
Proof. repeat split. exists []. rewrite app_nil_r. auto. Qed.

Lemma traffic_only_log (st st' : t) (c : Call) :
  keeps_drivers c = true ->
  traffic_only st st' -> traffic_only st (set_hw_log st' (hw_log st' ++ [c])).
Proof.
  intros Hc (Hs & Hcfg & Hd & calls & Hl & Hk). repeat split; try assumption.
  exists (calls ++ [c]). cbn [hw_log set_hw_log]. rewrite Hl, app_assoc.
  split; [reflexivity|]. rewrite forallb_app, Hk. cbn. rewrite Hc. reflexivity.
Qed.

Lemma queue_op_traffic_only (drv : Driver) (st : t) (b : esp_err_t * list Op * t)
    (op : Op) :
  traffic_only st b.2 -> traffic_only st (queue_op drv b op).2.
Proof.
  destruct b as [[r link] st1]. unfold queue_op, call. cbn [snd].
  apply traffic_only_log. reflexivity.
Qed.

Ltac finish_bus_traffic st :=
  match goal with
  | |- context [queue_op ?d ?x i2c_master_stop] =>
      let H := fresh "H" in
      assert (H : traffic_only st (queue_op d x i2c_master_stop).2)
        by (repeat apply queue_op_traffic_only;
            apply traffic_only_log; [reflexivity | apply traffic_only_refl]);
      destruct (queue_op d x i2c_master_stop) as [[? ?] ?]; cbn [snd] in H;
      unfold execute, call; cbv beta iota zeta;
      repeat (destruct (decide _)); cbn [snd];
      repeat (apply traffic_only_log; [reflexivity|]); exact H
  end.

Lemma write_traffic_only (drv : Driver) (st : t) (dev : Z) (data : list Z) (timeout : Z) :
  traffic_only st (write drv st dev data timeout).2.
Proof.
  unfold write, link_create.
  destruct (isRunning (state_ st)); cbv beta iota zeta delta [negb];
    [|apply traffic_only_refl].
  destruct (decide (data = [])); [apply traffic_only_refl|].
  destruct (alloc drv (hw_log st));
    [|apply traffic_only_log; [reflexivity | apply traffic_only_refl]].
  finish_bus_traffic st.
Qed.

Lemma read_traffic_only (drv : Driver) (st : t) (dev : Z) (data : list Z) (length : nat)
    (timeout : Z) :
  traffic_only st (read drv st dev data length timeout).2.
Proof.
  unfold read, link_create.
  destruct (isRunning (state_ st)); cbv beta iota zeta delta [negb];
    [|apply traffic_only_refl].
  destruct (decide (length = 0%nat)); [apply traffic_only_refl|].
  destruct (alloc drv (hw_log st));
    [|apply traffic_only_log; [reflexivity | apply traffic_only_refl]].
  destruct (decide (1 < length)%nat); finish_bus_traffic st.
Qed.

Lemma writeRegister_traffic_only (drv : Driver) (st : t) (dev reg : Z) (data : list Z)
    (timeout : Z) :
  traffic_only st (writeRegister drv st dev reg data timeout).2.
Proof.
  unfold writeRegister, link_create.
  destruct (isRunning (state_ st)); cbv beta iota zeta delta [negb];
    [|apply traffic_only_refl].
  destruct (alloc drv (hw_log st));
    [|apply traffic_only_log; [reflexivity | apply traffic_only_refl]].
  destruct (decide (data <> [])); finish_bus_traffic st.
Qed.

Lemma readRegister_traffic_only (drv : Driver) (st : t) (dev reg : Z) (data : list Z)
    (length : nat) (timeout : Z) :
  traffic_only st (readRegister drv st dev reg data length timeout).2.
Proof.
  unfold readRegister, link_create.
  destruct (isRunning (state_ st)); cbv beta iota zeta delta [negb];
    [|apply traffic_only_refl].
  destruct (decide (length = 0%nat)); [apply traffic_only_refl|].
  destruct (alloc drv (hw_log st));
    [|apply traffic_only_log; [reflexivity | apply traffic_only_refl]].
  destruct (decide (1 < length)%nat); finish_bus_traffic st.
Qed.

Lemma deviceExists_traffic_only (drv : Driver) (st : t) (dev timeout : Z) :
  traffic_only st (deviceExists drv st dev timeout).2.
Proof.
  unfold deviceExists, link_create.
  destruct (isRunning (state_ st)); cbv beta iota zeta delta [negb];
    [|apply traffic_only_refl].
  destruct (alloc drv (hw_log st));
    [|apply traffic_only_log; [reflexivity | apply traffic_only_refl]].
  finish_bus_traffic st.
Qed.

Lemma installed_after_app (p : Z) (l1 l2 : list (Call * esp_err_t)) :
  forall b, installed_after p b (l1 ++ l2) = installed_after p (installed_after p b l1) l2.
Proof.
  induction l1 as [|[c r] l1 IH]; intros b; [reflexivity|].
  destruct c; cbn [app installed_after]; apply IH.
Qed.

Lemma installed_after_traffic (drv : Driver) (p : Z) (calls : list Call) :
  forall hist b,
    forallb keeps_drivers calls = true ->
    installed_after p b (replay drv hist calls) = b.
Proof.
  induction calls as [|c calls IH]; intros hist b Hk; [reflexivity|].
  cbn [forallb] in Hk. apply andb_true_iff in Hk as [Hc Hk].
  destruct c; try discriminate Hc; cbn [replay installed_after]; apply IH, Hk.
Qed.

Lemma serves_port_log (drv : Driver) (st : t) (calls : list Call) :
  installed_after (port (config_ st)) false (replay drv [] (hw_log st ++ calls)) =
  installed_after (port (config_ st)) (serves_port drv st) (replay drv (hw_log st) calls).
Proof. unfold serves_port. rewrite replay_app, installed_after_app. reflexivity. Qed.

Lemma traffic_keeps_ready (drv : Driver) (st st' : t) :
  traffic_only st st' -> driver_ready drv st -> driver_ready drv st'.
Proof.
  intros (Hs & Hc & Hd & calls & Hl & Hk) [Hrun Hflag].
  unfold driver_ready, installed_when_running, serves_port. rewrite Hs, Hd, Hc, Hl.
  split; [exact Hrun|]. intros Hi.
  rewrite serves_port_log, (installed_after_traffic drv _ calls _ _ Hk). apply Hflag, Hi.
Qed.

(** [configure] on an initialised object leaves it ready, whatever it was
    before: a failure leaves it in [ERROR] with the flag clear, a success ends
    with a successful installation on the configured port. *)
Lemma configure_ready (drv : Driver) (st : t) :
  isInitialized (state_ st) = true -> driver_ready drv (configure drv st).2.
Proof.
  intros Hinit. unfold configure, call. rewrite Hinit. cbv beta iota zeta delta [negb].
  set (st0 := if driver_installed_ st
              then set_driver_installed_
                     (set_hw_log st (hw_log st ++ [i2c_driver_delete (port (config_ st))]))
                     false
              else st).
  replace (if driver_installed_ st
           then let '(_, st1) := (ret drv (hw_log st) (i2c_driver_delete (port (config_ st))),
                                  set_hw_log st
                                    (hw_log st ++ [i2c_driver_delete (port (config_ st))]))
                in set_driver_installed_ st1 false
           else st) with st0 by (unfold st0; destruct (driver_installed_ st); reflexivity).
  assert (Hd : driver_installed_ st0 = false)
    by (unfold st0; destruct (driver_installed_ st) eqn:E; [reflexivity|exact E]).
  clearbody st0. cbv beta iota zeta.
  destruct (decide (_ <> ESP_OK)) as [H1|H1].
  { split.
    - unfold installed_when_running. cbn. rewrite setState_eq. discriminate.
    - cbn. rewrite Hd. discriminate. }
  cbn [set_hw_log hw_log state_ config_ driver_installed_].
  destruct (decide (_ <> ESP_OK)) as [H2|H2].
  { split.
    - unfold installed_when_running. cbn. rewrite setState_eq. discriminate.
    - cbn. rewrite Hd. discriminate. }
  apply dec_stable in H2. split.
  - intros _. reflexivity.
  - intros _. unfold serves_port.
    cbn [snd hw_log config_ set_driver_installed_ set_hw_log].
    rewrite replay_app, installed_after_app. cbn [replay installed_after app].
    rewrite H2.
    destruct (decide (port (config_ st0) = port (config_ st0) /\ ESP_OK = ESP_OK))
      as [_|Hn]; [reflexivity|]. exfalso. apply Hn. split; reflexivity.
Qed.

(** X23.  A running I2C object has the installation flag set, and a set
    flag stands for a driver installed on the configured port: the calls made
    so far include a successful [i2c_driver_install] on that port with no
    [i2c_driver_delete] of it afterwards.  This holds for a new object and is
    preserved by every member function except [setConfig].  [setConfig] keeps
    the state and the flag and replaces the configuration, port included: with
    the same port the property is kept; with a port on which no driver is
    installed it is lost, the object stays running with the flag set, and
    [write] executes its transaction on the new port. *)
Theorem running_driver_is_installed
    (drv : Driver) (st : t) (c : Config) (dev reg : Z) (data : list Z) (length : nat)
    (timeout : Z) :
  driver_ready drv st ->
  (driver_ready drv (initialize st).2 /\
   driver_ready drv (configure drv st).2 /\
   driver_ready drv (start drv st).2 /\
   driver_ready drv (stop st).2 /\
   driver_ready drv (reset drv st).2 /\
   driver_ready drv (write drv st dev data timeout).2 /\
   driver_ready drv (read drv st dev data length timeout).2 /\
   driver_ready drv (writeRegister drv st dev reg data timeout).2 /\
   driver_ready drv (readRegister drv st dev reg data length timeout).2 /\
   driver_ready drv (deviceExists drv st dev timeout).2 /\
   forall p, driver_ready drv (create p)) /\
  (installed_when_running (setConfig st c).2 /\
   (port c = port (config_ st) -> driver_ready drv (setConfig st c).2) /\
   (isRunning (state_ st) = true ->
    installed_after (port c) false (replay drv [] (hw_log st)) = false ->
    isRunning (state_ (setConfig st c).2) = true /\
    driver_installed_ (setConfig st c).2 = true /\
    serves_port drv (setConfig st c).2 = false /\
    (builds_links drv -> data <> [] ->
     exists r st',
       write drv (setConfig st c).2 dev data timeout = (r, st') /\
       transactions drv (hw_log st) (new_calls st st') =
         [(port c, write_link dev data, timeout, r)]))).
Proof.
  intros Hready. pose proof Hready as [Hrun Hflag].
  assert (Hcfg : driver_ready drv (configure drv st).2).
  { destruct (isInitialized (state_ st)) eqn:Hinit; [apply configure_ready, Hinit|].
    unfold configure. rewrite Hinit. exact Hready. }
  split.
  - split; [|split; [exact Hcfg|split; [|split; [|split]]]].
    + unfold initialize. split.
      * unfold installed_when_running. destruct (decide _); cbn; rewrite !setState_eq;
          discriminate.
      * destruct (decide _); cbn; exact Hflag.
    + unfold start. destruct (isInitialized (state_ st)) eqn:Hinit;
        cbv beta iota zeta delta [negb]; [|exact Hready].
      destruct (driver_installed_ st) eqn:Hd; cbv beta iota zeta delta [negb].
      * destruct (decide (ESP_OK <> ESP_OK)) as [Hne|_]; [contradiction|].
        split; [intros _; exact Hd | intros _; apply Hflag; reflexivity].
      * pose proof (configure_ready drv st Hinit) as [Hr1 Hf1].
        destruct (configure_outcome drv st Hinit) as (r & st' & E & _ & Hok & _).
        rewrite E in *. cbn [snd] in Hr1, Hf1.
        destruct (decide (r <> ESP_OK)) as [Hr|Hr]; [split; assumption|].
        apply dec_stable in Hr. destruct (Hok Hr) as (Hi & _).
        split; [intros _; exact Hi | intros _; apply Hf1, Hi].
    + unfold stop. split.
      * unfold installed_when_running. cbn. rewrite setState_eq. discriminate.
      * cbn. exact Hflag.
    + unfold reset, call. split.
      * unfold installed_when_running.
        destruct (driver_installed_ st); cbn; rewrite setState_eq; discriminate.
      * destruct (driver_installed_ st) eqn:Hd; cbn; [discriminate|].
        rewrite Hd. discriminate.
    + split; [eapply traffic_keeps_ready; [apply write_traffic_only|exact Hready]|].
      split; [eapply traffic_keeps_ready; [apply read_traffic_only|exact Hready]|].
      split; [eapply traffic_keeps_ready; [apply writeRegister_traffic_only|exact Hready]|].
      split; [eapply traffic_keeps_ready; [apply readRegister_traffic_only|exact Hready]|].
      split; [eapply traffic_keeps_ready; [apply deviceExists_traffic_only|exact Hready]|].
      intros p. split; [intros H; discriminate H | intros H; discriminate H].
  - split; [exact Hrun|]. split.
    + intros Hport. split; [exact Hrun|]. unfold serves_port. cbn. rewrite Hport.
      exact Hflag.
    + intros Hr Hnone. cbn [setConfig snd state_ set_config_ driver_installed_].
      split; [exact Hr|]. split; [apply Hrun, Hr|]. split; [exact Hnone|].
      intros Hdrv Hdata. eexists _, _.
      split; [apply write_built; [exact Hr | exact Hdrv | exact Hdata]|].
      apply (transactions_after_transaction drv (set_config_ st c)).
Qed.

(** The running scenario object is ready and stays so through a register
    read.  After [setConfig] moves it to port 1, where no driver was installed,
    it is still running with the flag set and [write] executes on port 1. *)
Lemma running_driver_is_installed_witness :
  driver_ready Scenario.i2c_driver
    (readRegister Scenario.i2c_driver Scenario.i2c_running 0x68 0x75 [] 2 1000).2 /\
  isRunning (state_ (setConfig Scenario.i2c_running Scenario.i2c_config_port_1).2) = true /\
  driver_installed_ (setConfig Scenario.i2c_running Scenario.i2c_config_port_1).2 = true /\
  serves_port Scenario.i2c_driver
    (setConfig Scenario.i2c_running Scenario.i2c_config_port_1).2 = false /\
  exists r st',
    write Scenario.i2c_driver
      (setConfig Scenario.i2c_running Scenario.i2c_config_port_1).2 0x3C [0xAE] 1000
      = (r, st') /\
    transactions Scenario.i2c_driver (hw_log Scenario.i2c_running)
      (new_calls Scenario.i2c_running st') = [(1, write_link 0x3C [0xAE], 1000, r)].
Proof.
  assert (Hready : driver_ready Scenario.i2c_driver Scenario.i2c_running).
  { split; [intros _; reflexivity | intros _; vm_compute; reflexivity]. }
  destruct (running_driver_is_installed Scenario.i2c_driver Scenario.i2c_running
              Scenario.i2c_config_port_1 0x3C 0x75 [0xAE] 2 1000 Hready)
    as [Hkept (_ & _ & Hmoved)].
  destruct Hmoved as (H1 & H2 & H3 & Hwrite); [reflexivity | vm_compute; reflexivity |].
  split; [|split; [exact H1|split; [exact H2|split; [exact H3|]]]].
  - apply (running_driver_is_installed Scenario.i2c_driver Scenario.i2c_running
             Scenario.i2c_config_port_1 0x68 0x75 [] 2 1000 Hready).
  - destruct Hwrite as (r & st' & Hw & Htx);
      [split; intros; reflexivity | discriminate |].
    exists r, st'. split; [exact Hw | exact Htx].
Defined.

(** X24.  Bringing up the bus.  [initialize] succeeds exactly when both
    pins are set; without them it fails with [InvalidArgument] and leaves the
    object in [ERROR].  On an initialised object without an installed driver,
    [start] configures the port and installs the driver before it moves to
    [RUNNING]; when either driver call fails it returns that error and the
    object is in [ERROR]; with a driver already installed it makes no driver
    call. *)
Theorem start_installs_missing_driver (drv : Driver) (st : t) :
  ((initialize st).1 = ESP_OK <->
   sda_pin (config_ st) <> GPIO_NUM_NC /\ scl_pin (config_ st) <> GPIO_NUM_NC) /\
  ((initialize st).1 <> ESP_OK ->
   (initialize st).1 = ESP_ERR_INVALID_ARG /\ state_ (initialize st).2 = ERROR) /\
  ((initialize st).1 = ESP_OK -> state_ (initialize st).2 = INITIALIZED) /\
  (isInitialized (state_ st) = true ->
   exists r st',
     start drv st = (r, st') /\
     (r = ESP_OK ->
      state_ st' = RUNNING /\ driver_installed_ st' = true /\
      new_calls st st' =
        if driver_installed_ st then []
        else [i2c_param_config (port (config_ st)) (config_ st);
              i2c_driver_install (port (config_ st)) (mode (config_ st))]) /\
     (r <> ESP_OK -> state_ st' = ERROR /\ driver_installed_ st' = false)).
Proof.
  split; [|split; [|split]].
  - unfold initialize. cbn [config_ set_state_].
    destruct (decide _) as [Hnc|Hnc]; cbn [fst].
    + split; [discriminate|]. intros [H1 H2]. destruct Hnc; contradiction.
    + split; [|reflexivity]. intros _. split; intros E; apply Hnc; auto.
  - unfold initialize. cbn [config_ set_state_].
    destruct (decide _) as [Hnc|Hnc]; cbn [fst snd state_].
    + intros _. split; [reflexivity|apply setState_eq].
    + intros E. contradiction.
  - unfold initialize. cbn [config_ set_state_].
    destruct (decide _) as [Hnc|Hnc]; cbn [fst snd state_].
    + discriminate.
    + intros _. apply setState_eq.
  - intros Hi. unfold start. rewrite Hi. cbv beta iota zeta delta [negb].
    destruct (driver_installed_ st) eqn:Hd; cbv beta iota zeta delta [negb].
    + destruct (decide (ESP_OK <> ESP_OK)) as [Hne|_]; [contradiction|].
      eexists _, _. split; [reflexivity|]. split; [|intros E; contradiction].
      intros _. cbn. rewrite setState_eq. split; [reflexivity|]. split; [exact Hd|].
      unfold new_calls. cbn. apply drop_all.
    + destruct (configure_outcome drv st Hi) as (r & st' & E & _ & Hok & Herr).
      rewrite E, Hd in *. destruct (decide (r <> ESP_OK)) as [Hr|Hr].
      * exists r, st'. split; [reflexivity|]. split; [intros E'; contradiction|].
        intros _. destruct (Herr Hr) as [H1 H2]. auto.
      * apply dec_stable in Hr. destruct (Hok Hr) as (H1 & H2 & H3).
        eexists _, _. split; [reflexivity|]. split; [|intros E'; contradiction].
        intros _. cbn. rewrite setState_eq. split; [reflexivity|].
        split; [exact H1|]. exact H3.
Qed.

Lemma start_installs_missing_driver_witness :
  (initialize (create I2C_NUM_0)).1 = ESP_ERR_INVALID_ARG /\
  exists st',
    start Scenario.i2c_driver
          (initialize (setConfig (create I2C_NUM_0) Scenario.i2c_config).2).2
      = (ESP_OK, st') /\
    state_ st' = RUNNING /\ driver_installed_ st' = true.
Proof.
  split.
  - apply (start_installs_missing_driver Scenario.i2c_driver (create I2C_NUM_0)).
    discriminate.
  - destruct (proj2 (proj2 (proj2
                (start_installs_missing_driver Scenario.i2c_driver
                   (initialize (setConfig (create I2C_NUM_0) Scenario.i2c_config).2).2)))
                eq_refl) as (r & st' & Hstart & Hok & _).
    assert (Hr : r = ESP_OK)
      by (vm_compute in Hstart; injection Hstart as <- _; reflexivity).
    subst r. destruct (Hok eq_refl) as (H1 & H2 & _).
    exists st'. auto.
Defined.

End I2cLifecycleFacts.

(** ** Interrupts: statistics, stopping, removal *)

Section InterruptHousekeepingFacts.
Import CInt Esp HalBase InterruptHal.

Lemma call_each_spec {A} (drv : Driver) (c : A -> Call) (l : list (Z * A)) :
  forall st : t,
    hw_log (call_each drv c l st) = hw_log st ++ map (fun kv => c kv.2) l /\
    state_ (call_each drv c l st) = state_ st /\
    timers_ (call_each drv c l st) = timers_ st /\
    interrupts_ (call_each drv c l st) = interrupts_ st.
Proof.
  induction l as [|[k x] l IH]; intros st; cbn [call_each map].
  - rewrite app_nil_r. auto.
  - unfold call. destruct (IH (set_hw_log st (hw_log st ++ [c x]))) as (H1 & H2 & H3 & H4).
    rewrite H1, H2, H3, H4. cbn. rewrite <- app_assoc. auto.
Qed.

(** X25.  Timers and interrupts share the ids of [getStatistics] and
    [resetStatistics], and timers are looked up first.  An id in neither
    table gives [ESP_ERR_NOT_FOUND] and changes nothing.  For a timer id the
    timer's statistics are returned, and [resetStatistics] zeroes them and
    touches nothing else, not even an interrupt registered under the same id;
    registering an interrupt under the id of a timer is accepted, so the
    statistics of such an interrupt cannot be read or reset by id. *)
Theorem statistics_lookup_prefers_timers
    (drv : Driver) (st : t) (id : Z) (stats : Statistics) :
  (timers_ st !! id = None -> interrupts_ st !! id = None ->
   getStatistics st id stats = (ESP_ERR_NOT_FOUND, stats) /\
   resetStatistics st id = (ESP_ERR_NOT_FOUND, st)) /\
  (forall ti, timers_ st !! id = Some ti ->
     getStatistics st id stats = (ESP_OK, TimerInfo.stats ti) /\
     (resetStatistics st id).1 = ESP_OK /\
     getStatistics (resetStatistics st id).2 id stats = (ESP_OK, no_statistics) /\
     timers_ (resetStatistics st id).2 = <[id := clear_timer_stats ti]> (timers_ st) /\
     interrupts_ (resetStatistics st id).2 = interrupts_ st /\
     (isRunning (state_ st) = true -> interrupts_ st !! id = None ->
      forall config handler,
        ret drv (hw_log st) (esp_intr_alloc (source config) (flags config) id) = ESP_OK ->
        (registerInterrupt drv st id config handler).1 = ESP_OK)) /\
  (forall ii, timers_ st !! id = None -> interrupts_ st !! id = Some ii ->
     getStatistics st id stats = (ESP_OK, InterruptInfo.stats ii) /\
     (resetStatistics st id).1 = ESP_OK /\
     getStatistics (resetStatistics st id).2 id stats = (ESP_OK, no_statistics) /\
     timers_ (resetStatistics st id).2 = timers_ st /\
     interrupts_ (resetStatistics st id).2 =
       <[id := clear_interrupt_stats ii]> (interrupts_ st)).
Proof.
  split; [|split].
  - intros Ht Hi. unfold getStatistics, resetStatistics. rewrite Ht, Hi. auto.
  - intros ti Ht. unfold getStatistics, resetStatistics. rewrite Ht. cbn.
    rewrite lookup_insert_eq. repeat split.
    intros Hrun Hi config handler Hret. unfold registerInterrupt, call.
    rewrite Hrun, Hi. cbn. rewrite Hret.
    destruct (decide (ESP_OK <> ESP_OK)) as [Hne|_]; [contradiction|reflexivity].
  - intros ii Ht Hi. unfold getStatistics, resetStatistics. rewrite Ht, Hi. cbn.
    rewrite Ht, lookup_insert_eq. repeat split.
Qed.

(** Timer 1 of the scenario: an interrupt registered under id 1 as well is
    accepted, and the statistics of id 1 remain those of the timer. *)
Lemma statistics_lookup_prefers_timers_witness :
  (registerInterrupt Scenario.intr_driver Scenario.interrupts_running 1
     Scenario.source_5 (Some 3%nat)).1 = ESP_OK /\
  getStatistics Scenario.interrupts_running 1 no_statistics = (ESP_OK, no_statistics) /\
  getStatistics Scenario.interrupts_running 8 no_statistics =
    (ESP_ERR_NOT_FOUND, no_statistics).
Proof.
  destruct (statistics_lookup_prefers_timers
              Scenario.intr_driver Scenario.interrupts_running 1 no_statistics)
    as (_ & Htimer & _).
  destruct (timers_ Scenario.interrupts_running !! 1) as [ti|] eqn:Hti;
    [|vm_compute in Hti; discriminate].
  destruct (Htimer ti eq_refl) as (Hget & _ & _ & _ & _ & Hreg).
  split; [|split].
  - apply Hreg; reflexivity.
  - rewrite Hget. vm_compute in Hti. injection Hti as <-. reflexivity.
  - apply (statistics_lookup_prefers_timers
             Scenario.intr_driver Scenario.interrupts_running 8 no_statistics);
      reflexivity.
Defined.

(** X26.  [reset] returns [ESP_OK] from every state, moves to
    [INITIALIZED], makes no driver call and keeps every registration with its
    handle, configuration and callback: the ids [getStatistics] knows are the
    same as before, and each now reports zeroed statistics. *)
Theorem reset_zeroes_every_statistic (st : t) (id : Z) (stats : Statistics) :
  (reset st).1 = ESP_OK /\
  state_ (reset st).2 = INITIALIZED /\
  hw_log (reset st).2 = hw_log st /\
  timers_ (reset st).2 !! id = clear_timer_stats <$> timers_ st !! id /\
  interrupts_ (reset st).2 !! id = clear_interrupt_stats <$> interrupts_ st !! id /\
  (getStatistics (reset st).2 id stats).1 = (getStatistics st id stats).1 /\
  ((getStatistics st id stats).1 = ESP_OK ->
   getStatistics (reset st).2 id stats = (ESP_OK, no_statistics)).
Proof.
  unfold reset. cbn. rewrite setState_eq. rewrite !lookup_fmap.
  repeat split; unfold getStatistics; cbn; rewrite !lookup_fmap;
    destruct (timers_ st !! id); cbn; try reflexivity;
    destruct (interrupts_ st !! id); cbn; try reflexivity; discriminate.
Qed.

(** X27.  [stop] asks the driver to stop every registered timer, once
    each and in id order, ignores what the driver answers, returns [ESP_OK]
    and leaves the object in [SUSPENDED] with all registrations in place.  The
    destructor deletes every timer and frees every interrupt, in id order, and
    stops no timer first. *)
Theorem stop_stops_every_timer (drv : Driver) (st : t) :
  (exists st',
     stop drv st = (ESP_OK, st') /\
     state_ st' = SUSPENDED /\ timers_ st' = timers_ st /\
     interrupts_ st' = interrupts_ st /\
     new_calls st st' =
       map (fun kv => esp_timer_stop (TimerInfo.handle kv.2))
           (AdcHal.in_key_order (timers_ st)) /\
     length (new_calls st st') = size (timers_ st)) /\
  (new_calls st (destroy drv st) =
     map (fun kv => esp_timer_delete (TimerInfo.handle kv.2))
         (AdcHal.in_key_order (timers_ st))
     ++ map (fun kv => esp_intr_free (InterruptInfo.handle kv.2))
            (AdcHal.in_key_order (interrupts_ st)) /\
   List.filter is_timer_stop (new_calls st (destroy drv st)) = [] /\
   timers_ (destroy drv st) = ∅ /\ interrupts_ (destroy drv st) = ∅).
Proof.
  split.
  - unfold stop.
    destruct (call_each_spec drv (fun info => esp_timer_stop (TimerInfo.handle info))
                (AdcHal.in_key_order (timers_ st)) st) as (Hl & Hs & Ht & Hi).
    eexists. split; [reflexivity|]. cbn. rewrite setState_eq, Ht, Hi.
    repeat split.
    + unfold new_calls. cbn. rewrite Hl, drop_app_length. reflexivity.
    + unfold new_calls. cbn. rewrite Hl, drop_app_length, length_map.
      apply in_key_order_length.
  - unfold destroy.
    destruct (call_each_spec drv (fun info => esp_timer_delete (TimerInfo.handle info))
                (AdcHal.in_key_order (timers_ st)) st) as (Hl & Hs & Ht & Hi).
    set (st1 := call_each drv _ (AdcHal.in_key_order (timers_ st)) st) in *.
    destruct (call_each_spec drv (fun info => esp_intr_free (InterruptInfo.handle info))
                (AdcHal.in_key_order (interrupts_ (set_timers_ st1 ∅)))
                (set_timers_ st1 ∅)) as (Gl & Gs & Gt & Gi).
    cbn [interrupts_ set_timers_ hw_log] in Gl, Gi, Gt |- *.
    assert (Hcalls : new_calls st
                       (set_interrupts_
                          (call_each drv
                             (fun info => esp_intr_free (InterruptInfo.handle info))
                             (AdcHal.in_key_order (interrupts_ st1)) (set_timers_ st1 ∅))
                          ∅) =
                     map (fun kv => esp_timer_delete (TimerInfo.handle kv.2))
                         (AdcHal.in_key_order (timers_ st))
                     ++ map (fun kv => esp_intr_free (InterruptInfo.handle kv.2))
                            (AdcHal.in_key_order (interrupts_ st))).
    { unfold new_calls. cbn [hw_log set_interrupts_]. rewrite Gl, Hl, Hi.
      rewrite <- app_assoc, drop_app_length. reflexivity. }
    split; [exact Hcalls|]. split; [|split; [|reflexivity]].
    + rewrite Hcalls, List.filter_app.
      assert (Hnone : forall {A} (c : A -> Call) (l : list (Z * A)),
                 (forall x, is_timer_stop (c x) = false) ->
                 List.filter is_timer_stop (map (fun kv => c kv.2) l) = []).
      { intros A c l Hc. induction l as [|kv l IH]; [reflexivity|].
        cbn. rewrite Hc. exact IH. }
      rewrite (Hnone _ (fun info => esp_timer_delete (TimerInfo.handle info)))
        by reflexivity.
      rewrite (Hnone _ (fun info => esp_intr_free (InterruptInfo.handle info)))
        by reflexivity.
      reflexivity.
    + cbn. rewrite Gt. reflexivity.
Qed.

(** X28.  Removal needs a known id and the driver's consent, and no
    lifecycle state.  [deleteTimer], [stopTimer] and [unregisterInterrupt] of
    an id that is not registered return [ESP_ERR_NOT_FOUND] and do nothing.
    When the driver refuses to delete a timer or to free an interrupt, its
    error is returned and the registration stays; when it accepts, exactly
    that id is removed.  [deleteTimer] stops the timer first and ignores the
    result of that. *)
Theorem removal_needs_known_id_and_consent (drv : Driver) (st : t) (id : Z) :
  (timers_ st !! id = None ->
   deleteTimer drv st id = (ESP_ERR_NOT_FOUND, st) /\
   stopTimer drv st id = (ESP_ERR_NOT_FOUND, st)) /\
  (interrupts_ st !! id = None ->
   unregisterInterrupt drv st id = (ESP_ERR_NOT_FOUND, st)) /\
  (forall ti, timers_ st !! id = Some ti ->
     let h := TimerInfo.handle ti in
     let r := ret drv (hw_log st ++ [esp_timer_stop h]) (esp_timer_delete h) in
     exists st',
       deleteTimer drv st id = (r, st') /\
       new_calls st st' = [esp_timer_stop h; esp_timer_delete h] /\
       timers_ st' = (if decide (r = ESP_OK) then delete id (timers_ st) else timers_ st) /\
       interrupts_ st' = interrupts_ st /\ state_ st' = state_ st) /\
  (forall ii, interrupts_ st !! id = Some ii ->
     let h := InterruptInfo.handle ii in
     let r := ret drv (hw_log st) (esp_intr_free h) in
     exists st',
       unregisterInterrupt drv st id = (r, st') /\
       new_calls st st' = [esp_intr_free h] /\
       interrupts_ st' =
         (if decide (r = ESP_OK) then delete id (interrupts_ st) else interrupts_ st) /\
       timers_ st' = timers_ st /\ state_ st' = state_ st).
Proof.
  split; [|split; [|split]].
  - intros Hn. unfold deleteTimer, stopTimer. rewrite Hn. auto.
  - intros Hn. unfold unregisterInterrupt. rewrite Hn. reflexivity.
  - intros ti Ht h r. unfold deleteTimer, call. rewrite Ht. cbn. fold h. fold r.
    destruct (decide (r <> ESP_OK)) as [Hr|Hr].
    + eexists. split; [reflexivity|]. cbn.
      destruct (decide (r = ESP_OK)) as [E|_]; [contradiction|].
      repeat split. unfold new_calls. cbn. rewrite <- app_assoc, drop_app_length.
      reflexivity.
    + apply dec_stable in Hr. eexists. split; [rewrite Hr; reflexivity|]. cbn.
      destruct (decide (r = ESP_OK)) as [_|E]; [|contradiction].
      repeat split. unfold new_calls. cbn. rewrite <- app_assoc, drop_app_length.
      reflexivity.
  - intros ii Hi h r. unfold unregisterInterrupt, call. rewrite Hi. cbn. fold h. fold r.
    destruct (decide (r <> ESP_OK)) as [Hr|Hr].
    + eexists. split; [reflexivity|]. cbn.
      destruct (decide (r = ESP_OK)) as [E|_]; [contradiction|].
      repeat split. unfold new_calls. cbn. rewrite drop_app_length. reflexivity.
    + apply dec_stable in Hr. eexists. split; [rewrite Hr; reflexivity|]. cbn.
      destruct (decide (r = ESP_OK)) as [_|E]; [|contradiction].
      repeat split. unfold new_calls. cbn. rewrite drop_app_length. reflexivity.
Qed.

(** Timer 1 of the scenario is deleted after a stop; timer 8 is unknown. *)
Lemma removal_needs_known_id_and_consent_witness :
  deleteTimer Scenario.intr_driver Scenario.interrupts_running 8 =
    (ESP_ERR_NOT_FOUND, Scenario.interrupts_running) /\
  exists st',
    deleteTimer Scenario.intr_driver Scenario.interrupts_running 1 = (ESP_OK, st') /\
    new_calls Scenario.interrupts_running st' = [esp_timer_stop 0x41; esp_timer_delete 0x41] /\
    timers_ st' !! 1 = None.
Proof.
  destruct (removal_needs_known_id_and_consent
              Scenario.intr_driver Scenario.interrupts_running 8) as (H8 & _).
  split; [apply H8; reflexivity|].
  destruct (removal_needs_known_id_and_consent
              Scenario.intr_driver Scenario.interrupts_running 1) as (_ & _ & H1 & _).
  destruct (timers_ Scenario.interrupts_running !! 1) as [ti|] eqn:Hti;
    [|vm_compute in Hti; discriminate].
  destruct (H1 ti eq_refl) as (st' & Hdel & Hcalls & Htimers & _).
  assert (Hh : TimerInfo.handle ti = 0x41)
    by (vm_compute in Hti; injection Hti as <-; reflexivity).
  exists st'. split; [rewrite Hdel; reflexivity|].
  split; [rewrite Hcalls, Hh; reflexivity|].
  rewrite Htimers. cbn. apply lookup_delete_eq.
Defined.

End InterruptHousekeepingFacts.

(** ** GPIO: which bindings an interrupt dispatch can reach *)

Section GpioDispatchFacts.
Import CInt Esp HalBase GpioHal.

Lemma disableInterrupt_spec (drv : Driver) (g : Statics) (self : t) (p : Z) :
  exists g' self',
    disableInterrupt drv g self p = (ESP_OK, g', self') /\
    pin_map_ g' = pin_map_ g /\
    isr_service_installed_ g' = isr_service_installed_ g /\
    hw_log g' = hw_log g ++ disable_calls p /\
    callbacks_ self' = delete p (callbacks_ self) /\
    state_ self' = state_ self.
Proof.
  unfold disableInterrupt, call. cbn.
  eexists _, _. split; [reflexivity|]. cbn. rewrite <- app_assoc.
  destruct (pin_configs_ self !! p); cbn; auto.
Qed.

Lemma disable_all_spec (drv : Driver) (l : list (Z * Config)) :
  forall (g : Statics) (self : t),
    pin_map_ (disable_all drv l g self).1 = pin_map_ g /\
    isr_service_installed_ (disable_all drv l g self).1 = isr_service_installed_ g /\
    hw_log (disable_all drv l g self).1 =
      hw_log g ++ concat (map (fun kv => disable_calls kv.1) l) /\
    state_ (disable_all drv l g self).2 = state_ self /\
    (forall q,
       callbacks_ (disable_all drv l g self).2 !! q = None \/
       callbacks_ (disable_all drv l g self).2 !! q = callbacks_ self !! q) /\
    (forall q c, In (q, c) l -> callbacks_ (disable_all drv l g self).2 !! q = None).
Proof.
  induction l as [|[p c] l IH]; intros g self; cbn [disable_all map concat].
  - rewrite app_nil_r. repeat split; auto. intros q c [].
  - destruct (disableInterrupt_spec drv g self p)
      as (g1 & self1 & E & H1 & H2 & H3 & H4 & H5).
    rewrite E. destruct (IH g1 self1) as (G1 & G2 & G3 & G4 & G5 & G6).
    rewrite G1, G2, G3, G4, H1, H2, H3, H5, <- app_assoc.
    repeat split.
    + intros q. destruct (G5 q) as [Hq|Hq]; [left; exact Hq|].
      rewrite Hq, H4. destruct (decide (p = q)) as [->|Hne].
      * left. apply lookup_delete_eq.
      * right. apply lookup_delete_ne. exact Hne.
    + intros q c' [[= <- <-]|Hin].
      * destruct (G5 p) as [Hq|Hq]; [exact Hq|].
        rewrite Hq, H4. apply lookup_delete_eq.
      * eapply G6, Hin.
Qed.

Lemma silent_without_callback (drv : Driver) (g : Statics) (objects : gmap Z t)
    (this : Z) (self : t) (p : Z) :
  pin_map_ g !! p = Some this -> callbacks_ self !! p = None ->
  gpioIsrHandler drv g (<[this := self]> objects) p = None.
Proof.
  intros Hmap Hcb. unfold gpioIsrHandler. rewrite Hmap, lookup_insert_eq, Hcb. reflexivity.
Qed.

(** X29.  An interrupt dispatch reaches live bindings only.  After
    [disableInterrupt] the pin's entry stays in the pin map but the dispatch
    runs nothing.  When [setInterrupt] fails at [gpio_isr_handler_add] the pin
    is left mapped to the object without a callback, a callback bound earlier
    included, and the dispatch runs nothing.  After [stop] no configured pin
    dispatches.  After the destructor no pin maps to the destroyed object,
    the entries of other objects are kept, and a pin that belonged to the
    object dispatches nothing. *)
Theorem dispatch_reaches_only_live_bindings
    (drv : Driver) (g : Statics) (this : Z) (self : t) (p : Z)
    (ty : InterruptType) (callback : InterruptCallback) (objects : gmap Z t) :
  pin_map_ g !! p = Some this ->
  (exists g' self',
     disableInterrupt drv g self p = (ESP_OK, g', self') /\
     pin_map_ g' !! p = Some this /\
     gpioIsrHandler drv g' (<[this := self']> objects) p = None) /\
  (isValidPin drv p = true -> isr_service_installed_ g = true ->
   ret drv (hw_log g) (gpio_set_intr_type p ty) = ESP_OK ->
   ret drv (hw_log g ++ [gpio_set_intr_type p ty]) (gpio_isr_handler_add p p) <> ESP_OK ->
   exists g' self',
     setInterrupt drv g this self p ty callback =
       (ret drv (hw_log g ++ [gpio_set_intr_type p ty]) (gpio_isr_handler_add p p),
        g', self') /\
     pin_map_ g' !! p = Some this /\ callbacks_ self' !! p = None /\
     gpioIsrHandler drv g' (<[this := self']> objects) p = None) /\
  (exists g' self',
     stop drv g self = (ESP_OK, g', self') /\ state_ self' = SUSPENDED /\
     (is_Some (pin_configs_ self !! p) ->
      gpioIsrHandler drv g' (<[this := self']> objects) p = None)) /\
  ((forall q, pin_map_ (destroy drv g this self) !! q <> Some this) /\
   (forall q other, other <> this ->
      pin_map_ (destroy drv g this self) !! q = Some other <->
      pin_map_ g !! q = Some other) /\
   gpioIsrHandler drv (destroy drv g this self) objects p = None).
Proof.
  intros Hmap. split; [|split; [|split]].
  - destruct (disableInterrupt_spec drv g self p)
      as (g' & self' & E & H1 & _ & _ & H4 & _).
    exists g', self'. split; [exact E|]. rewrite H1. split; [exact Hmap|].
    apply silent_without_callback; [rewrite H1; exact Hmap|].
    rewrite H4. apply lookup_delete_eq.
  - intros Hvalid Hisr Hset Hadd. unfold setInterrupt, call. rewrite Hvalid, Hisr.
    cbv beta iota zeta delta [negb].
    destruct (decide (ESP_OK <> ESP_OK)) as [Hne|_]; [contradiction|].
    rewrite Hset. destruct (decide (ESP_OK <> ESP_OK)) as [Hne|_]; [contradiction|].
    cbn [hw_log pin_map_ isr_service_installed_].
    destruct (decide (_ <> ESP_OK)) as [_|Hn]; [|contradiction].
    eexists _, _. split; [reflexivity|]. cbn.
    split; [apply lookup_insert_eq|]. split; [apply lookup_delete_eq|].
    apply silent_without_callback; cbn; [apply lookup_insert_eq|apply lookup_delete_eq].
  - unfold stop.
    set (self0 := mk (setState (state_ self) SUSPENDED) (pin_configs_ self)
                     (callbacks_ self)).
    destruct (disable_all_spec drv (AdcHal.in_key_order (pin_configs_ self0)) g self0)
      as (G1 & _ & _ & G4 & _ & G6).
    destruct (disable_all drv (AdcHal.in_key_order (pin_configs_ self0)) g self0)
      as [g' self'] eqn:E.
    cbn [fst snd] in *. exists g', self'. split; [reflexivity|].
    split; [rewrite G4; apply setState_eq|].
    intros [c Hc]. apply silent_without_callback; [rewrite G1; exact Hmap|].
    apply (G6 p c). apply in_key_order_lookup. exact Hc.
  - unfold destroy.
    destruct (disable_all_spec drv (AdcHal.in_key_order (pin_configs_ self)) g self)
      as (G1 & _).
    destruct (disable_all drv (AdcHal.in_key_order (pin_configs_ self)) g self)
      as [g' self'] eqn:E.
    cbn [fst snd pin_map_] in *. rewrite G1.
    split; [|split].
    + intros q Hq. apply map_lookup_filter_Some in Hq as [_ Hne]. apply Hne. reflexivity.
    + intros q other Hother. rewrite map_lookup_filter_Some. cbn.
      split; [intros [H _]; exact H | intros H; split; [exact H|exact Hother]].
    + unfold gpioIsrHandler. cbn [pin_map_].
      destruct (filter (fun kv : Z * Z => kv.2 <> this) (pin_map_ g) !! p) as [q|] eqn:Hq;
        [|reflexivity].
      apply map_lookup_filter_Some in Hq as [Hq Hne]. cbn in Hne.
      rewrite Hmap in Hq. injection Hq as <-. contradiction.
Qed.

(** Pin 5 of the scenario object: silent after [disableInterrupt], and
    silent after a second [setInterrupt] that the driver refuses. *)
Lemma dispatch_reaches_only_live_bindings_witness :
  gpioIsrHandler Scenario.gpio_driver Scenario.gpio_statics
    {[ Scenario.gpio_address := Scenario.gpio_inverted ]} 5 = Some (1%nat, 5, false) /\
  (exists g' self',
     disableInterrupt Scenario.gpio_driver Scenario.gpio_statics Scenario.gpio_inverted 5
       = (ESP_OK, g', self') /\
     gpioIsrHandler Scenario.gpio_driver g' {[ Scenario.gpio_address := self' ]} 5 = None) /\
  (exists g' self',
     setInterrupt Scenario.gpio_no_handler_driver Scenario.gpio_statics
       Scenario.gpio_address Scenario.gpio_inverted 5 POSEDGE 2%nat
       = (ESP_ERR_NO_MEM, g', self') /\
     gpioIsrHandler Scenario.gpio_no_handler_driver g'
       {[ Scenario.gpio_address := self' ]} 5 = None).
Proof.
  split; [vm_compute; reflexivity|]. split.
  - destruct (dispatch_reaches_only_live_bindings
                Scenario.gpio_driver Scenario.gpio_statics Scenario.gpio_address
                Scenario.gpio_inverted 5 POSEDGE 2%nat ∅ eq_refl)
      as ((g' & self' & E & _ & Hsilent) & _).
    exists g', self'. split; [exact E|]. rewrite insert_empty in Hsilent. exact Hsilent.
  - destruct (dispatch_reaches_only_live_bindings
                Scenario.gpio_no_handler_driver Scenario.gpio_statics Scenario.gpio_address
                Scenario.gpio_inverted 5 POSEDGE 2%nat ∅ eq_refl)
      as (_ & Hfail & _).
    destruct Hfail as (g' & self' & E & _ & _ & Hsilent);
      [reflexivity | reflexivity | reflexivity | discriminate |].
    exists g', self'. split; [exact E|]. rewrite insert_empty in Hsilent. exact Hsilent.
Defined.

(** X30.  [digitalRead] and the interrupt dispatch report the same logical
    level for a configured pin: the hardware level, inverted when the pin is
    configured with [invert].  [digitalRead] of a pin that was never
    configured fails with [InvalidArgument], reads nothing and leaves the
    caller's variable; a dispatch for such a pin reports the hardware level as
    it is. *)
Theorem isr_level_agrees_with_digitalRead
    (drv : Driver) (g : Statics) (objects : gmap Z t) (this : Z) (self : t) (p : Z)
    (callback : InterruptCallback) (old : bool) :
  pin_map_ g !! p = Some this -> objects !! this = Some self ->
  callbacks_ self !! p = Some callback ->
  let high := negb (level drv (hw_log g) p =? 0) in
  (forall c, pin_configs_ self !! p = Some c ->
     exists g',
       digitalRead drv g self p old = (ESP_OK, xorb (invert c) high, g') /\
       hw_log g' = hw_log g ++ [gpio_get_level p] /\
       gpioIsrHandler drv g objects p = Some (callback, p, xorb (invert c) high)) /\
  (pin_configs_ self !! p = None ->
   digitalRead drv g self p old = (ESP_ERR_INVALID_ARG, old, g) /\
   gpioIsrHandler drv g objects p = Some (callback, p, high)).
Proof.
  intros Hmap Hobj Hcb high. split.
  - intros c Hc. unfold digitalRead, gpioIsrHandler, call.
    rewrite Hc, Hmap, Hobj, Hcb, Hc. fold high.
    assert (Hread : (if invert c then level drv (hw_log g) p =? 0 else high)
                    = xorb (invert c) high).
    { unfold high. destruct (invert c); cbn [xorb];
        destruct (level drv (hw_log g) p =? 0); reflexivity. }
    assert (Hisr : (if invert c then negb high else high) = xorb (invert c) high).
    { destruct (invert c); cbn [xorb]; [reflexivity|]. destruct high; reflexivity. }
    rewrite Hread, Hisr. eexists. split; [reflexivity|]. split; reflexivity.
  - intros Hc. unfold digitalRead, gpioIsrHandler.
    rewrite Hc, Hmap, Hobj, Hcb, Hc. auto.
Qed.

(** Pin 5 of the scenario is an inverted input and the line is high: both
    report [false]. *)
Lemma isr_level_agrees_with_digitalRead_witness :
  (exists g',
     digitalRead Scenario.gpio_driver Scenario.gpio_statics Scenario.gpio_inverted 5 true
       = (ESP_OK, false, g')) /\
  gpioIsrHandler Scenario.gpio_driver Scenario.gpio_statics
    {[ Scenario.gpio_address := Scenario.gpio_inverted ]} 5 = Some (1%nat, 5, false).
Proof.
  destruct (isr_level_agrees_with_digitalRead
              Scenario.gpio_driver Scenario.gpio_statics
              {[ Scenario.gpio_address := Scenario.gpio_inverted ]}
              Scenario.gpio_address Scenario.gpio_inverted 5 1%nat true)
    as [Hcfg _]; [vm_compute; reflexivity | apply lookup_singleton_eq
                  | vm_compute; reflexivity |].
  destruct (Hcfg Scenario.gpio_pin_5 eq_refl) as (g' & Hread & _ & Hisr).
  split; [exists g'; exact Hread | exact Hisr].
Defined.

End GpioDispatchFacts.
